(** * MusicQuest: listening-history ingestion and fingerprint scoring

    A shallow embedding of the algorithmic core of the MusicQuest front end:
    the two universal parsers (format detection, Spotify filtering, timestamp
    conversion, batch validation), the ListenBrainz scroll-back loop, the
    multi-file import hook, the five-axis listening fingerprint, the data
    of the 24-hour listening clock and the migration of legacy settings.

    Conventions of the embedding:
    - JavaScript values are the inductive type [value]; an object is the
      list of its own properties (each key once, as [JSON.parse] leaves
      them), a property read on [null] or [undefined] throws.
    - Thrown exceptions are explicit: a function that can throw returns an
      [outcome], and [try]/[catch] is [try_catch].  An error the engine
      throws is recorded under the name of its class ([TypeError],
      [RangeError]): its message is the engine's own.
    - Numbers are the integer-valued doubles plus NaN.  Ratios that the
      code rounds or compares are computed exactly, in [Q], and in [R]
      where [Math.log2] is involved; the rounding of intermediate
      floating-point results is not modelled, so where the exact value
      of a ratio lies within rounding error of a half-integer the score
      of the code can differ by one from the score computed here.
    - An object used as a counter is the list of its entries; where the
      keys are free text ([genreCounts]) the members every object
      inherits are part of the model.
    - [Array.prototype.sort] is a stable insertion sort; this is the
      order of the code where the comparator returns a number for
      every pair.  A call that spreads an array ([f(...a)]) throws beyond
      the host's [max_arguments].
    - What the code takes from its host (the clock, [Date] parsing,
      [JSON.parse], DOMPurify, the network, the modules it imports from
      elsewhere) is a parameter: the classes [Host] and [Collaborators] and
      the section variables of the scroll-back loop.
    - Console logging and React state updates are left out unless they can
      throw. *)

From Stdlib Require Import ZArith QArith Qround Qminmax Reals Lra Lia.
From Stdlib Require Import List String Ascii Bool.
From Stdlib Require Import Permutation Sorted.
Import ListNotations.

Set Warnings "-register-all".

Local Open Scope string_scope.
Local Open Scope list_scope.
Local Open Scope Z_scope.

(* ================================================================= *)
(** * Part I: the embedding *)
(* ================================================================= *)

(** ** JavaScript values, exceptions and coercions *)

Module Js.

(** A computation that either returns or throws an [Error] whose message
    is recorded. *)
Inductive outcome (A : Type) : Type :=
| Ret (a : A)
| Throw (message : string).
Arguments Ret {A} a.
Arguments Throw {A} message.

Definition bind {A B} (c : outcome A) (k : A -> outcome B) : outcome B :=
  match c with
  | Ret a => k a
  | Throw m => Throw m
  end.

Notation "x <- c ;; k" := (bind c (fun x => k))
  (at level 61, c at next level, right associativity).

(** [try { c } catch (error) { h error.message }]. *)
Definition try_catch {A} (c : outcome A) (h : string -> outcome A) : outcome A :=
  match c with
  | Ret a => Ret a
  | Throw m => h m
  end.

Fixpoint mapM {A B} (f : A -> outcome B) (l : list A) : outcome (list B) :=
  match l with
  | [] => Ret []
  | x :: l' =>
      bind (f x) (fun y => bind (mapM f l') (fun ys => Ret (y :: ys)))
  end.

Fixpoint filterM {A} (f : A -> outcome bool) (l : list A) : outcome (list A) :=
  match l with
  | [] => Ret []
  | x :: l' =>
      bind (f x) (fun b =>
      bind (filterM f l') (fun ys => Ret (if b then x :: ys else ys)))
  end.

(** [Array.prototype.map] with the element index, starting at [i]. *)
Fixpoint mapiM {A B} (f : A -> nat -> outcome B) (i : nat) (l : list A)
  : outcome (list B) :=
  match l with
  | [] => Ret []
  | x :: l' =>
      bind (f x i) (fun y => bind (mapiM f (S i) l') (fun ys => Ret (y :: ys)))
  end.

(** [Array.prototype.sort] with a comparator: a stable insertion sort.
    [cmp a b > 0] puts [a] after [b]; a NaN result is passed as [0].
    The standard fixes the result of the sort only for a comparator that
    is a consistent order on the elements, and this is the result it
    fixes; with a comparator that returns NaN for some pairs the order an
    engine produces is its own, so what is proved of an order is proved
    for elements that all have a numeric key. *)
Fixpoint insert_by {A} (cmp : A -> A -> Z) (x : A) (l : list A) : list A :=
  match l with
  | [] => [x]
  | y :: l' => if cmp x y <=? 0 then x :: y :: l' else y :: insert_by cmp x l'
  end.

Definition sort_by {A} (cmp : A -> A -> Z) (l : list A) : list A :=
  fold_right (insert_by cmp) [] l.

(** The comparator [a - b] on two possibly-NaN numbers. *)
Definition compare_keys (a b : option Z) : Z :=
  match a, b with
  | Some x, Some y => x - y
  | _, _ => 0
  end.

(** [Math.min(...l)] and [Math.max(...l)]; [None] is the infinite result
    on an empty argument list.  The two folds are the value of the call;
    that the call itself fails on more arguments than the engine can
    spread ([max_arguments] below) is part of [spread], or a hypothesis
    where a function is modelled without it. *)
Definition min_of (l : list Z) : option Z :=
  match l with [] => None | z :: l' => Some (fold_left Z.min l' z) end.
Definition max_of (l : list Z) : option Z :=
  match l with [] => None | z :: l' => Some (fold_left Z.max l' z) end.

(** JSON-shaped values.  [VNum z] is a number with an integer value,
    [VNaN] the not-a-number double.  An object is its list of own
    properties in insertion order. *)
Inductive value : Type :=
| VUndefined
| VNull
| VBool (b : bool)
| VNum (z : Z)
| VNaN
| VStr (s : string)
| VArr (items : list value)
| VObj (fields : list (string * value)).

Definition is_empty (s : string) : bool :=
  match s with EmptyString => true | String _ _ => false end.

(** [ToBoolean]. *)
Definition truthy (v : value) : bool :=
  match v with
  | VUndefined | VNull | VNaN => false
  | VBool b => b
  | VNum z => negb (z =? 0)
  | VStr s => negb (is_empty s)
  | VArr _ | VObj _ => true
  end.

(** [a || b] and [a && b] on already evaluated operands. *)
Definition js_or (a b : value) : value := if truthy a then a else b.
Definition js_and (a b : value) : value := if truthy a then b else a.

(** The short-circuit forms, for operands whose evaluation may throw. *)
Definition or_else (a b : outcome value) : outcome value :=
  x <- a ;; if truthy x then Ret x else b.
Definition and_then (a b : outcome value) : outcome value :=
  x <- a ;; if truthy x then b else Ret x.

Fixpoint lookup (k : string) (fs : list (string * value)) : value :=
  match fs with
  | [] => VUndefined
  | (k', v) :: fs' => if String.eqb k k' then v else lookup k fs'
  end.

Definition TypeError : string := "TypeError".

(** Property read [v.k] for a property name that is not an array index. *)
Definition get (v : value) (k : string) : outcome value :=
  match v with
  | VUndefined | VNull => Throw TypeError
  | VObj fs => Ret (lookup k fs)
  | VArr l => Ret (if String.eqb k "length" then VNum (Z.of_nat (List.length l)) else VUndefined)
  | VStr s => Ret (if String.eqb k "length" then VNum (Z.of_nat (String.length s)) else VUndefined)
  | VBool _ | VNum _ | VNaN => Ret VUndefined
  end.

(** [null] and [undefined], the two values a property read throws on. *)
Definition nullish (v : value) : bool :=
  match v with VUndefined | VNull => true | _ => false end.

(** The property [k] of a value that is neither of them. *)
Definition field (v : value) (k : string) : value :=
  match get v k with Ret x => x | Throw _ => VUndefined end.

(** Optional chaining [v?.k]. *)
Definition get_opt (v : value) (k : string) : value :=
  match v with
  | VUndefined | VNull => VUndefined
  | _ => match get v k with Ret x => x | Throw _ => VUndefined end
  end.

Definition isArray (v : value) : bool :=
  match v with VArr _ => true | _ => false end.

Definition typeof (v : value) : string :=
  match v with
  | VUndefined => "undefined"
  | VNull | VArr _ | VObj _ => "object"
  | VBool _ => "boolean"
  | VNum _ | VNaN => "number"
  | VStr _ => "string"
  end.

Definition is_number (v : value) : bool :=
  match v with VNum _ | VNaN => true | _ => false end.

(** [String.prototype.toLowerCase] and [includes], on ASCII text. *)
Definition lower_ascii (c : ascii) : ascii :=
  let n := nat_of_ascii c in
  if (Nat.leb 65 n && Nat.leb n 90)%bool then ascii_of_nat (n + 32) else c.

Fixpoint toLowerCase (s : string) : string :=
  match s with
  | EmptyString => EmptyString
  | String c s' => String (lower_ascii c) (toLowerCase s')
  end.

Fixpoint includes (s sub : string) : bool :=
  (String.prefix sub s ||
   match s with
   | EmptyString => false
   | String _ s' => includes s' sub
   end)%bool.

(** [String.prototype.split] on a one-character separator. *)
Fixpoint split_on (sep : ascii) (s : string) : list string :=
  match s with
  | EmptyString => [EmptyString]
  | String c s' =>
      if Ascii.eqb c sep then EmptyString :: split_on sep s'
      else match split_on sep s' with
           | [] => [String c EmptyString]
           | w :: ws => String c w :: ws
           end
  end.

(** Decimal rendering of an integer-valued number. *)
Fixpoint digits (fuel : nat) (n : N) (acc : string) : string :=
  match fuel with
  | O => acc
  | S fuel' =>
      let d := ascii_of_N (48 + N.modulo n 10) in
      let q := N.div n 10 in
      if N.eqb q 0 then String d acc else digits fuel' q (String d acc)
  end.

Definition string_of_N (n : N) : string := digits (S (N.to_nat (N.log2 n))) n "".

Definition string_of_Z (z : Z) : string :=
  match z with
  | Z0 => "0"
  | Zpos p => string_of_N (Npos p)
  | Zneg p => ("-" ++ string_of_N (Npos p))%string
  end.

(** What the model takes from the JavaScript host: date parsing, the
    clock, the local-time epoch of the spreadsheet calendar, numeric
    string parsing, array stringification, the HTML sanitiser,
    [JSON.parse], and the number of elements a call can spread
    ([f(...a)]) before the engine throws a RangeError. *)
Class Host : Type := {
  date_parse : string -> option Z;          (* ms since the epoch; None = Invalid Date *)
  now_ms : Z;                               (* Date.now() *)
  local_1900_ms : Z;                        (* new Date(1900, 0, 1).getTime() *)
  string_to_number : string -> option Z;    (* StringToNumber; None = NaN *)
  array_to_string : list value -> string;   (* Array.prototype.toString *)
  sanitize : string -> string;              (* DOMPurify.sanitize *)
  json_parse : string -> option value;      (* JSON.parse; None = SyntaxError *)
  syntax_error_message : string -> string;  (* the SyntaxError's message *)
  max_arguments : Z                         (* the longest array f(...a) can spread *)
}.

Section Coercions.
Context {H : Host}.

(** [ToNumber]; [None] is NaN. *)
Definition to_number (v : value) : option Z :=
  match v with
  | VUndefined | VNaN | VObj _ => None
  | VNull => Some 0
  | VBool b => Some (if b then 1 else 0)
  | VNum z => Some z
  | VStr s => string_to_number s
  | VArr l => string_to_number (array_to_string l)
  end.

Definition of_number (n : option Z) : value :=
  match n with Some z => VNum z | None => VNaN end.

(** [ToString]. *)
Definition to_string (v : value) : string :=
  match v with
  | VUndefined => "undefined"
  | VNull => "null"
  | VBool b => if b then "true" else "false"
  | VNum z => string_of_Z z
  | VNaN => "NaN"
  | VStr s => s
  | VArr l => array_to_string l
  | VObj _ => "[object Object]"
  end.

(** [a >= n] against a numeric literal. *)
Definition ge_num (a : value) (n : Z) : bool :=
  match to_number a with
  | Some z => n <=? z
  | None => false
  end.

Definition MAX_TIME_MS : Z := 8640000000000000.

(** [new Date(v).getTime()]: strings are parsed, everything else goes
    through [ToNumber] and [TimeClip]. *)
Definition date_time (v : value) : option Z :=
  match v with
  | VStr s => date_parse s
  | VArr l => date_parse (array_to_string l)
  | VObj _ => date_parse "[object Object]"
  | _ => match to_number v with
         | Some z => if Z.abs z <=? MAX_TIME_MS then Some z else None
         | None => None
         end
  end.

(** [Math.floor(ms / 1000)] on a possibly-NaN time value. *)
Definition floor_seconds (ms : option Z) : value :=
  match ms with Some z => VNum (z / 1000) | None => VNaN end.

(** The arguments of a call [f(...l)]: the elements of [l], or a
    RangeError when there are more of them than the engine can pass. *)
Definition spread {A} (l : list A) : outcome (list A) :=
  if max_arguments <? Z.of_nat (List.length l) then Throw "RangeError" else Ret l.

End Coercions.

End Js.

Import Js.
Notation "x <- c ;; k" := (Js.bind c (fun x => k))
  (at level 61, c at next level, right associativity).

(** ** [src/utils/parsers/universalParser.js] *)

Module UniversalParser.

Inductive format : Type := ListenBrainz | Spotify | LastFm.

Definition format_name (f : format) : string :=
  match f with
  | ListenBrainz => "listenbrainz"
  | Spotify => "spotify"
  | LastFm => "lastfm"
  end.

(** Result objects of the parsers: [{success, listens, count, ...}]. *)
Record parse_result : Type := {
  success : bool;
  listens : list value;
  count : nat;
  totalEntries : option nat;
  filtered : option nat;
  format_of : option format;
  error : option string
}.

Definition failed (message : string) : parse_result :=
  {| success := false; listens := []; count := 0; totalEntries := None;
     filtered := None; format_of := None; error := Some message |}.

Definition detectDataFormat (data : value) (fileName : string) : outcome format :=
  if negb (truthy data) then Throw "No data provided" else
  let dataArray := match data with VArr l => l | _ => [data] end in
  match dataArray with
  | [] => Throw "Data array is empty"
  | firstItem :: _ =>
      lb <- and_then (get firstItem "listened_at") (get firstItem "track_metadata") ;;
      if truthy lb then Ret ListenBrainz else
      sp <- and_then (get firstItem "ts")
              (or_else (get firstItem "master_metadata_track_name")
                       (get firstItem "spotify_track_uri")) ;;
      if truthy sp then Ret Spotify else
      fm <- and_then (d <- get firstItem "date" ;; Ret (get_opt d "uts"))
              (get firstItem "artist") ;;
      if truthy fm then Ret LastFm else
      let lowerFileName := toLowerCase fileName in
      if (includes lowerFileName "spotify" || includes lowerFileName "streaming_history")%bool
      then Ret Spotify
      else if includes lowerFileName "listenbrainz" then Ret ListenBrainz
      else if (includes lowerFileName "lastfm" || includes lowerFileName "last.fm")%bool
      then Ret LastFm
      else Throw "Unknown data format. Please upload ListenBrainz or Spotify extended streaming history JSON files."
  end.

Section Parsers.
Context {H : Host}.

(** [x * 1000] on a value. *)
Definition times_1000 (v : value) : value :=
  match to_number v with Some z => VNum (z * 1000) | None => VNaN end.

Definition parseListenBrainzFormat (data : value) : outcome parse_result :=
  try_catch
    (match data with
     | VArr items =>
         parsedListens <-
           mapiM (fun listen index =>
             tm <- get listen "track_metadata" ;;
             let trackMetadata := js_or tm (VObj []) in
             la <- get listen "listened_at" ;;
             let listenedAt := js_or la (VNum (now_ms / 1000)) in
             track_name <- get trackMetadata "track_name" ;;
             artist_name <- get trackMetadata "artist_name" ;;
             release_name <- get trackMetadata "release_name" ;;
             recording_msid <- get listen "recording_msid" ;;
             additional_info <- get trackMetadata "additional_info" ;;
             Ret (VObj [
               ("id", VStr ("lb-" ++ string_of_Z (Z.of_nat index) ++ "-"
                            ++ to_string listenedAt)%string);
               ("listened_at", listenedAt);
               ("timestamp", times_1000 listenedAt);
               ("trackName", VStr (sanitize (to_string (js_or track_name (VStr "Unknown Track")))));
               ("artistName", VStr (sanitize (to_string (js_or artist_name (VStr "Unknown Artist")))));
               ("albumName", VStr (sanitize (to_string (js_or release_name (VStr "Unknown Album")))));
               ("recordingMsid", js_or recording_msid VNull);
               ("additionalInfo", js_or additional_info (VObj []));
               ("source", VStr "listenbrainz")]))
             0%nat items ;;
         Ret {| success := true; listens := parsedListens;
                count := List.length parsedListens; totalEntries := None;
                filtered := None; format_of := Some ListenBrainz; error := None |}
     | _ => Throw "Invalid ListenBrainz JSON format: expected array"
     end)
    (fun message => Ret (failed message)).

(** The filter predicate of [parseSpotifyFormat]. *)
Definition spotify_keep (item : value) : outcome bool :=
  r <- and_then
         (and_then
            (and_then (get item "ts")
               (or_else (get item "master_metadata_track_name")
                        (get item "spotify_track_uri")))
            (get item "master_metadata_album_artist_name"))
         (ms <- get item "ms_played" ;;
          Ret (VBool (ge_num (js_or ms (VNum 0)) 30000))) ;;
  Ret (truthy r).

(** The four conditions of the filter, read off a record that is an
    object: a timestamp, a track name or track identifier, an artist,
    and at least 30000 ms played. *)
Definition accepted (item : value) : bool :=
  truthy (field item "ts")
  && truthy (js_or (field item "master_metadata_track_name")
                   (field item "spotify_track_uri"))
  && truthy (field item "master_metadata_album_artist_name")
  && ge_num (js_or (field item "ms_played") (VNum 0)) 30000.

(** [uri?.split(':')[2]]. *)
Definition uri_track_id (uri : value) : outcome value :=
  match uri with
  | VUndefined | VNull => Ret VUndefined
  | VStr s => Ret (match nth_error (split_on ":"%char s) 2 with
                   | Some part => VStr part
                   | None => VUndefined
                   end)
  | _ => Throw TypeError
  end.

Definition spotify_listen (listen : value) (index : nat) : outcome value :=
  isoTimestamp <- get listen "ts" ;;
  let timestampMs := date_time isoTimestamp in
  let listenedAt := floor_seconds timestampMs in
  track_name <- get listen "master_metadata_track_name" ;;
  spotify_track_uri <- get listen "spotify_track_uri" ;;
  trackName <- or_else (Ret track_name)
                 (or_else (uri_track_id spotify_track_uri)
                          (Ret (VStr "Unknown Track"))) ;;
  artist <- get listen "master_metadata_album_artist_name" ;;
  album <- get listen "master_metadata_album_album_name" ;;
  ms_played <- get listen "ms_played" ;;
  reason_start <- get listen "reason_start" ;;
  reason_end <- get listen "reason_end" ;;
  shuffle <- get listen "shuffle" ;;
  skipped <- get listen "skipped" ;;
  offline <- get listen "offline" ;;
  Ret (VObj [
    ("id", VStr ("spotify-" ++ string_of_Z (Z.of_nat index) ++ "-"
                 ++ to_string listenedAt)%string);
    ("listened_at", listenedAt);
    ("timestamp", of_number timestampMs);
    ("trackName", VStr (sanitize (to_string trackName)));
    ("artistName", VStr (sanitize (to_string (js_or artist (VStr "Unknown Artist")))));
    ("albumName", VStr (sanitize (to_string (js_or album (VStr "Unknown Album")))));
    ("msPlayed", js_or ms_played (VNum 0));
    ("additionalInfo", VObj [
       ("spotify_track_uri", spotify_track_uri);
       ("reason_start", reason_start);
       ("reason_end", reason_end);
       ("shuffle", shuffle);
       ("skipped", skipped);
       ("offline", offline)]);
    ("source", VStr "spotify")]).

Definition parseSpotifyFormat (data : value) : outcome parse_result :=
  try_catch
    (match data with
     | VArr items =>
         validListens <- filterM spotify_keep items ;;
         parsedListens <- mapiM spotify_listen 0%nat validListens ;;
         let filteredCount := (List.length items - List.length validListens)%nat in
         Ret {| success := true; listens := parsedListens;
                count := List.length parsedListens;
                totalEntries := Some (List.length items);
                filtered := Some filteredCount;
                format_of := Some Spotify; error := None |}
     | _ => Throw "Invalid Spotify JSON format: expected array"
     end)
    (fun message => Ret (failed message)).

Definition parseLastFmFormat (data : value) : outcome parse_result :=
  Throw "Last.fm format support coming soon".

Definition parseUniversalData (fileContent fileName : string) : outcome parse_result :=
  try_catch
    (parsed <- match json_parse fileContent with
               | Some v => Ret v
               | None => Throw (syntax_error_message fileContent)
               end ;;
     fmt <- detectDataFormat parsed fileName ;;
     match fmt with
     | ListenBrainz => parseListenBrainzFormat parsed
     | Spotify => parseSpotifyFormat parsed
     | LastFm => parseLastFmFormat parsed
     end)
    (fun message => Throw ("Failed to parse file: " ++ message)%string).

End Parsers.


(** *** [validateUniversalData] *)

Definition MIN_TIMESTAMP : Z := 946684800.
Definition MAX_TIMESTAMP : Z := 2147483647.

(** The four result shapes.  [TooManyInvalid] is the result whose error
    reads "Data contains too many invalid timestamps"; it carries the
    [debugInfo] fields.  [SpanTooShort] is "Data span too short."; its
    bounds are [None] when [Math.min]/[Math.max] ran on no argument. *)
Inductive validation : Type :=
| NoListens
| TooManyInvalid (validCount total : nat)
    (sampleInvalidTimestamp : value) (detectedFormat : string) (firstTimestamp : value)
| SpanTooShort (earliest latest : option Z)
| IsValid (earliest latest : Z) (totalListens validTimestamps : nat).

Definition isValid (r : validation) : bool :=
  match r with IsValid _ _ _ _ => true | _ => false end.

(** [typeof ts === 'number' && ts > MIN_TIMESTAMP && ts < MAX_TIMESTAMP] *)
Definition plausible (ts : value) : bool :=
  match ts with
  | VNum z => (MIN_TIMESTAMP <? z) && (z <? MAX_TIMESTAMP)
  | _ => false
  end.

(** [typeof ts !== 'number' || ts < MIN_TIMESTAMP || ts > MAX_TIMESTAMP] *)
Definition offending (ts : value) : bool :=
  match ts with
  | VNum z => (z <? MIN_TIMESTAMP) || (MAX_TIMESTAMP <? z)
  | VNaN => false
  | _ => true
  end.

(** [Array.prototype.find]. *)
Definition find_value (p : value -> bool) (l : list value) : value :=
  match List.find p l with Some v => v | None => VUndefined end.

Definition number_of (v : value) : option Z :=
  match v with VNum z => Some z | _ => None end.

Definition Qltb (x y : Q) : bool := negb (Qle_bool y x).

Definition percentage (part whole : nat) : Q :=
  (inject_Z (Z.of_nat part) / inject_Z (Z.of_nat whole)) * 100.

Definition SECONDS_PER_YEAR : Q := 31557600.   (* 365.25 * 24 * 60 * 60 *)

Definition yearSpan (earliest latest : Z) : Q :=
  inject_Z (latest - earliest) / SECONDS_PER_YEAR.

(** A list of number values as the list of their numbers. *)
Definition numbers (l : list value) : list Z :=
  flat_map (fun v => match number_of v with Some z => [z] | None => [] end) l.

(** The threshold [yearSpan < 0.08] in seconds: 0.08 * 31557600, about
    29.22 days. *)
Definition MIN_SPAN_SECONDS : Z := 2524608.

Definition validateTimestamps (timestamps : list value) : validation :=
  let validTimestamps := List.filter plausible timestamps in
  let validPercentage :=
    percentage (List.length validTimestamps) (List.length timestamps) in
  if Qltb validPercentage 90 then
    TooManyInvalid (List.length validTimestamps) (List.length timestamps)
      (find_value offending timestamps)
      (typeof (hd VUndefined timestamps))
      (hd VUndefined timestamps)
  else
    match min_of (numbers validTimestamps), max_of (numbers validTimestamps) with
    | Some earliest, Some latest =>
        if Qltb (yearSpan earliest latest) (8 # 100)
        then SpanTooShort (Some earliest) (Some latest)
        else IsValid earliest latest (List.length timestamps)
               (List.length validTimestamps)
    | _, _ => SpanTooShort None None
    end.

Definition validateUniversalData (data : value) : outcome validation :=
  if negb (truthy data) then Ret NoListens else
  ls <- get data "listens" ;;
  if negb (truthy ls) then Ret NoListens else
  len <- get ls "length" ;;
  match len with
  | VNum 0 => Ret NoListens
  | _ =>
      match ls with
      | VArr items =>
          timestamps <- mapM (fun l => get l "listened_at") items ;;
          Ret (validateTimestamps timestamps)
      | _ => Throw TypeError
      end
  end.

End UniversalParser.

(** ** The universal parser with timestamp conversion
       ([parseImportedData] and its helpers) *)

Module ImportParser.

Inductive format : Type := ListenBrainz | Spotify.

(** [{listens, format, parsedAt}] *)
Record parsed : Type := {
  listens : list value;
  format_of : format;
  parsedAt : Z
}.

Definition UNABLE_TO_DETECT : string :=
  "Unable to detect file format. Please upload:
• ListenBrainz JSON export, or
• Spotify extended streaming history".

Definition detectDataFormat (data : value) (fileName : string) : outcome format :=
  (* the diagnostic log reads [data.payload] before anything else *)
  _ <- get data "payload" ;;
  byFirst <-
    match data with
    | VArr (first :: _) =>
        lb <- and_then (get first "listened_at") (get first "track_metadata") ;;
        if truthy lb then Ret (Some ListenBrainz) else
        sp <- and_then (get first "ts")
                (or_else (get first "master_metadata_track_name")
                         (get first "episode_name")) ;;
        if truthy sp then Ret (Some Spotify) else Ret None
    | _ => Ret None
    end ;;
  match byFirst with
  | Some f => Ret f
  | None =>
      envelope <- and_then (get data "payload")
                    (p <- get data "payload" ;;
                     ls <- get p "listens" ;;
                     Ret (VBool (isArray ls))) ;;
      if truthy envelope then Ret ListenBrainz else
      let lowerFileName := toLowerCase fileName in
      if (includes lowerFileName "spotify" || includes lowerFileName "streaming")%bool
      then Ret Spotify
      else Throw UNABLE_TO_DETECT
  end.

Section Parsers.
Context {H : Host}.

Definition now_seconds : Z := now_ms / 1000.   (* Math.floor(Date.now() / 1000) *)

Definition convertSpotifyTimestamp (timestamp : value) : Z :=
  match timestamp with
  | VStr s =>
      match date_parse s with
      | None => now_seconds
      | Some ms => ms / 1000
      end
  | VNum t =>
      if 1000000000000 <? t then t / 1000
      else if (1000000000 <? t) && (t <? 2000000000) then t
      else if (40000 <? t) && (t <? 60000) then
        let excelEpoch := local_1900_ms in
        let adjustedDays := if 60 <? t then t - 2 else t - 1 in
        let dateMs := excelEpoch + adjustedDays * 24 * 60 * 60 * 1000 in
        dateMs / 1000
      else now_seconds
  | _ => now_seconds
  end.

Definition parseListenBrainzFormat (data : value) : outcome parsed :=
  listens <- match data with
             | VArr _ => Ret data
             | _ => payload <- get data "payload" ;;
                    Ret (js_or (get_opt payload "listens") (VArr []))
             end ;;
  len <- get listens "length" ;;
  match len with
  | VNum 0 => Throw "No listens found in ListenBrainz file"
  | _ =>
      match listens with
      | VArr items =>
          out <- mapM (fun item =>
                   listened_at <- get item "listened_at" ;;
                   tm <- get item "track_metadata" ;;
                   Ret (VObj [
                     ("listened_at", listened_at);
                     ("track_metadata", VObj [
                        ("track_name", js_or (get_opt tm "track_name") (VStr "Unknown Track"));
                        ("artist_name", js_or (get_opt tm "artist_name") (VStr "Unknown Artist"));
                        ("release_name", js_or (get_opt tm "release_name") VNull);
                        ("additional_info", js_or (get_opt tm "additional_info") (VObj []))]);
                     ("genre", VNull);
                     ("source", VStr "listenbrainz")])) items ;;
          Ret {| listens := out; format_of := ListenBrainz; parsedAt := now_ms |}
      | _ => Throw TypeError
      end
  end.

(** The filter predicate of this [parseSpotifyFormat]. *)
Definition spotify_keep (item : value) : outcome bool :=
  r <- and_then
         (and_then
            (and_then (get item "ts")
               (get item "master_metadata_track_name"))
            (get item "master_metadata_album_artist_name"))
         (ms <- get item "ms_played" ;;
          Ret (VBool (ge_num (js_or ms (VNum 0)) 30000))) ;;
  Ret (truthy r).

(** Its four conditions, read off a record that is an object. *)
Definition accepted (item : value) : bool :=
  truthy (field item "ts")
  && truthy (field item "master_metadata_track_name")
  && truthy (field item "master_metadata_album_artist_name")
  && ge_num (js_or (field item "ms_played") (VNum 0)) 30000.

Definition spotify_listen (item : value) (index : nat) : outcome value :=
  originalTs <- get item "ts" ;;
  let unixTimestamp := convertSpotifyTimestamp originalTs in
  (* the first three conversions are logged with
     [new Date(unixTimestamp * 1000).toISOString()], a RangeError on an
     invalid date *)
  _ <- (if (index <? 3)%nat && negb (Z.abs (unixTimestamp * 1000) <=? MAX_TIME_MS)
        then Throw "RangeError" else Ret tt) ;;
  track_name <- get item "master_metadata_track_name" ;;
  artist_name <- get item "master_metadata_album_artist_name" ;;
  album_name <- get item "master_metadata_album_album_name" ;;
  ms_played <- get item "ms_played" ;;
  spotify_track_uri <- get item "spotify_track_uri" ;;
  Ret (VObj [
    ("listened_at", VNum unixTimestamp);
    ("track_metadata", VObj [
       ("track_name", track_name);
       ("artist_name", artist_name);
       ("release_name", js_or album_name VNull);
       ("additional_info", VObj [
          ("ms_played", ms_played);
          ("spotify_track_uri", spotify_track_uri);
          ("original_timestamp", originalTs)])]);
    ("genre", VNull);
    ("source", VStr "spotify")]).

Definition parseSpotifyFormat (data : value) : outcome parsed :=
  let listens := match data with VArr items => items | _ => [] end in
  match listens with
  | [] => Throw "No listens found in Spotify file"
  | _ =>
      validListens <- filterM spotify_keep listens ;;
      convertedListens <- mapiM spotify_listen 0%nat validListens ;;
      Ret {| listens := convertedListens; format_of := Spotify; parsedAt := now_ms |}
  end.

Definition parseImportedData (fileContent fileName : string) : outcome parsed :=
  match json_parse fileContent with
  | None => Throw "Invalid JSON file. Please check the file format."
  | Some parsed =>
      try_catch
        (fmt <- detectDataFormat parsed fileName ;;
         match fmt with
         | ListenBrainz => parseListenBrainzFormat parsed
         | Spotify => parseSpotifyFormat parsed
         end)
        (fun message => Throw ("Failed to parse file: " ++ message)%string)
  end.

End Parsers.

End ImportParser.

(** ** [src/utils/api/listenbrainz.js] *)

Module ListenBrainzApi.

(** [{success, listens, count}] or [{success: false, error, listens: []}];
    [count] is 0 where the object has none. *)
Record response : Type := {
  success : bool;
  listens : list value;
  count : Z;
  error : option string
}.

Definition batchSize : nat := 1000.

Record state : Type := {
  allListens : list value;
  maxTs : value;
  batchCount : nat
}.

Definition initial : state :=
  {| allListens := []; maxTs := VNull; batchCount := 0 |}.

Inductive step_result : Type :=
| Continue (s : state)          (* [hasMore] is still true *)
| Return (r : response)         (* a [return] statement is reached *)
| Abort.                        (* the AbortError is thrown *)

Section Scrollback.
Context {H : Host}.
(** The throttled [fetch] of the [call]-th request, as the JSON body it
    resolves to or the error it rejects with. *)
Variable request : nat -> string -> outcome value.
(** [signal?.aborted] as read at the top of the [n]-th iteration. *)
Variable aborted : nat -> bool.
Variable username : string.
Variable maxListens : option nat.     (* [null] or a number *)

Definition listens_url (count : nat) (maxTs : value) : string :=
  let url := ("https://api.listenbrainz.org/1/user/" ++ username
              ++ "/listens?count=" ++ string_of_Z (Z.of_nat count))%string in
  if truthy maxTs then (url ++ "&max_ts=" ++ to_string maxTs)%string else url.

Definition fetchUserListens (call count : nat) (maxTs : value) : response :=
  let attempt :=
    response <- request call (listens_url count maxTs) ;;
    payload <- get response "payload" ;;
    if negb (truthy payload)
    then Throw "API response missing payload. Check username and permissions."
    else
      ls <- get payload "listens" ;;
      if negb (truthy ls)
      then Throw "API response missing listens array. User may have no listening history."
      else match ls with
           | VArr items =>
               c <- get payload "count" ;;
               Ret {| success := true; listens := items;
                      count := match to_number (js_or c (VNum 0)) with
                               | Some z => z | None => 0 end;
                      error := None |}
           | _ => Throw "API response listens is not an array"
           end in
  match attempt with
  | Ret r => r
  | Throw message =>
      {| success := false; listens := []; count := 0; error := Some message |}
  end.

(** [oldestTimestamp - 1] *)
Definition minus_one (v : value) : value :=
  match to_number v with Some z => VNum (z - 1) | None => VNaN end.

Definition cap_reached (n : nat) : bool :=
  match maxListens with
  | Some m => negb (Nat.eqb m 0) && Nat.leb m n
  | None => false
  end.

(** One iteration of the [while (hasMore)] loop. *)
Definition step (s : state) : step_result :=
  if aborted (batchCount s) then Abort else
  let result := fetchUserListens (batchCount s) batchSize (maxTs s) in
  if negb (success result) then Return result else
  let '(all, cursor, hasMore) :=
    match listens result with
    | [] => (allListens s, maxTs s, false)
    | _ :: _ =>
        let oldestListen := last (listens result) VUndefined in
        let oldestTimestamp := get_opt oldestListen "listened_at" in
        let '(cursor, more) :=
          if truthy oldestTimestamp
          then (minus_one oldestTimestamp, true)
          else (maxTs s, false) in
        (allListens s ++ listens result, cursor,
         if (List.length (listens result) <? batchSize)%nat then false else more)
    end in
  let hasMore := if cap_reached (List.length all) then false else hasMore in
  if hasMore
  then Continue {| allListens := all; maxTs := cursor;
                   batchCount := S (batchCount s) |}
  else Return {| success := true; listens := all;
                 count := Z.of_nat (List.length all); error := None |}.

(** The loop, bounded by [fuel] iterations; [None] when the bound is hit. *)
Fixpoint run (fuel : nat) (s : state) : option (outcome response) :=
  match fuel with
  | O => None
  | S fuel' =>
      match step s with
      | Continue s' => run fuel' s'
      | Return r => Some (Ret r)
      | Abort => Some (Throw "AbortError")
      end
  end.

Definition fetchAllUserListens (fuel : nat) : option (outcome response) :=
  run fuel initial.

(** The states the loop passes through, for stating facts about
    successive pages. *)
Fixpoint trace (fuel : nat) (s : state) : list state :=
  match fuel with
  | O => []
  | S fuel' =>
      s :: match step s with
           | Continue s' => trace fuel' s'
           | _ => []
           end
  end.

End Scrollback.

End ListenBrainzApi.

(** ** [src/hooks/useDataParser.js] *)

Module DataParser.

Import UniversalParser.

(** A [File]: its name, byte size and the text [file.text()] resolves to
    (or the error it rejects with). *)
Record file : Type := {
  name : string;
  size : Z;
  text : outcome string
}.

Inductive fileType : Type := Auto | ForceListenBrainz | ForceSpotify | OtherType.

(** [{success, data, mergeInfo: {duplicates}, error}] *)
Record merge_result : Type := {
  merge_success : bool;
  data : list value;
  duplicates : Z;
  merge_error : value
}.

(** The collaborators of the hook: the JSONL reader, the per-format
    validators and parsers, the genre cleaner, the store and the corpus
    check.  Each may throw. *)
Class Collaborators : Type := {
  isJSONLFile : string -> bool;
  parseJSONL : file -> outcome value;
  validateListenBrainzJSON : value -> outcome (bool * string);   (* {valid, message} *)
  parseListenBrainzJSON : value -> outcome parse_result;
  validateSpotifyJSON : value -> outcome (bool * string);
  parseSpotifyJSON : value -> outcome parse_result;
  cleanGenreData : list value -> outcome (list value * value);   (* {cleanedListens, report} *)
  mergeListeningData : list value -> outcome merge_result;
  validateListeningData : list value -> outcome (bool * string)  (* {isValid, error} *)
}.

Inductive run_error : Type :=
| SizeLimitExceeded (totalSize : Z)    (* "Total file size exceeds 250MB limit. ..." *)
| NoValidListens                       (* "No valid listens found in uploaded files" *)
| MergeFailed (message : string)       (* mergeResult.error || "Failed to merge data" *)
| ValidationFailed (message : string)  (* validation.error *)
| Exception (message : string).        (* anything else that reaches the outer catch *)

(** The successful result.  [dateRange] holds the minimum and maximum time
    key of the merged corpus, from which the two dates are built; [None] is
    an invalid date. *)
Record summary : Type := {
  run_count : nat;
  run_listens : list value;
  run_duplicates : Z;
  genreReport : value;
  dateRange : option Z * option Z
}.

(** [{success: true, ...}] or [{success: false, error}] *)
Inductive run_result : Type :=
| RunOk (s : summary)
| RunFailed (e : run_error).

Definition maxSize : Z := 250 * 1024 * 1024.

Section Hook.
Context {H : Host} {C : Collaborators}.

Definition parse_json (fileContent : string) : outcome value :=
  match json_parse fileContent with
  | Some v => Ret v
  | None => Throw (syntax_error_message fileContent)
  end.

(** The body of the per-file [try] up to the point where [parseResult]
    is set: [Ret None] is the [continue] taken on a failed validation. *)
Definition parse_unit (ft : fileType) (f : file) : outcome (option parse_result) :=
  if isJSONLFile (name f) then
    fileData <- parseJSONL f ;;
    first <- (match ft with
              | ForceListenBrainz | Auto =>
                  v <- validateListenBrainzJSON fileData ;;
                  if fst v then r <- parseListenBrainzJSON fileData ;; Ret (Some r)
                  else Ret None
              | _ => Ret None
              end) ;;
    second <- (match first, ft with
               | None, (ForceSpotify | Auto) =>
                   v <- validateSpotifyJSON fileData ;;
                   if fst v then r <- parseSpotifyJSON fileData ;; Ret (Some r)
                   else Ret None
               | _, _ => Ret first
               end) ;;
    match second with
    | Some r => Ret (Some r)
    | None => Throw "JSONL file format not recognized"
    end
  else
    fileContent <- text f ;;
    match ft with
    | Auto => r <- parseUniversalData fileContent (name f) ;; Ret (Some r)
    | ForceListenBrainz =>
        fileData <- parse_json fileContent ;;
        v <- validateListenBrainzJSON fileData ;;
        if fst v then r <- parseListenBrainzJSON fileData ;; Ret (Some r)
        else Ret None
    | ForceSpotify =>
        fileData <- parse_json fileContent ;;
        v <- validateSpotifyJSON fileData ;;
        if fst v then r <- parseSpotifyJSON fileData ;; Ret (Some r)
        else Ret None
    | OtherType => Throw "Unknown file type"
    end.

(** What one iteration of the file loop pushes onto [allListens].  The
    RangeError of [allListens.push(...parseResult.listens)] on a result
    too long to spread is caught like every other error of the iteration,
    with nothing pushed. *)
Definition unit_listens (ft : fileType) (f : file) : list value :=
  match parse_unit ft f with
  | Ret (Some parseResult) =>
      if success parseResult then
        match spread (listens parseResult) with
        | Ret pushed => pushed
        | Throw _ => []
        end
      else []
  | Ret None => []
  | Throw _ => []
  end.

(** The [for] loop over the files. *)
Fixpoint accumulate (ft : fileType) (files : list file) (allListens : list value)
  : list value :=
  match files with
  | [] => allListens
  | f :: rest => accumulate ft rest (allListens ++ unit_listens ft f)
  end.

(** [a.timestamp || a.listened_at || 0] as a number. *)
Definition time_key (a : value) : outcome (option Z) :=
  ts <- get a "timestamp" ;;
  la <- get a "listened_at" ;;
  Ret (to_number (js_or (js_or ts la) (VNum 0))).

(** [allListens.sort((a, b) => aTime - bTime)]; the comparator is not
    run on fewer than two elements. *)
Definition sort_listens (l : list value) : outcome (list value) :=
  match l with
  | [] | [_] => Ret l
  | _ =>
      keys <- mapM time_key l ;;
      Ret (List.map snd
             (sort_by (fun a b => compare_keys (fst a) (fst b))
                (List.combine keys l)))
  end.

(** The numbers of a list, or [None] when one of them is NaN. *)
Fixpoint all_numbers (l : list (option Z)) : option (list Z) :=
  match l with
  | [] => Some []
  | None :: _ => None
  | Some z :: l' => option_map (cons z) (all_numbers l')
  end.

Definition bound (pick : list Z -> option Z) (l : list (option Z)) : option Z :=
  match all_numbers l with Some zs => pick zs | None => None end.

Definition protect {A} (c : outcome A) (k : A -> run_result) : run_result :=
  match c with
  | Ret a => k a
  | Throw message => RunFailed (Exception message)
  end.

(** The arguments of [Math.min(...timestamps)] and
    [Math.max(...timestamps)] on the merged corpus. *)
Definition date_keys (merged : list value) : outcome (list (option Z)) :=
  timestamps <- mapM time_key merged ;; spread timestamps.

(** Everything after the file loop, with the outer [catch] applied. *)
Definition finish (allListens : list value) : run_result :=
  match allListens with
  | [] => RunFailed NoValidListens
  | _ =>
      protect (sort_listens allListens) (fun sorted =>
      protect (cleanGenreData sorted) (fun cleaned =>
      protect (mergeListeningData (fst cleaned)) (fun mergeResult =>
      if negb (merge_success mergeResult) then
        RunFailed (MergeFailed
          (to_string (js_or (merge_error mergeResult) (VStr "Failed to merge data"))))
      else
        protect (validateListeningData (data mergeResult)) (fun validation =>
        if negb (fst validation) then RunFailed (ValidationFailed (snd validation))
        else
          protect (date_keys (data mergeResult)) (fun timestamps =>
          RunOk {| run_count := List.length (data mergeResult);
                   run_listens := data mergeResult;
                   run_duplicates := duplicates mergeResult;
                   genreReport := snd cleaned;
                   dateRange := (bound min_of timestamps,
                                 bound max_of timestamps) |})))))
  end.

Definition totalSize (files : list file) : Z :=
  fold_left (fun sum f => sum + size f) files 0.

Definition parseFiles (files : list file) (ft : fileType) : run_result :=
  if maxSize <? totalSize files then RunFailed (SizeLimitExceeded (totalSize files))
  else finish (accumulate ft files []).

(** The order the sort leaves the accumulated listens in: the order of
    [sort_listens] where every listen has a numeric time, and some
    order, which is the engine's to choose, where one has not. *)
Definition in_sorted_order (allListens sorted : list value) : Prop :=
  Permutation sorted allListens
  /\ (Forall (fun a => exists z, time_key a = Ret (Some z)) allListens ->
      sort_listens allListens = Ret sorted).

(** The merge result of the store on the accumulated listens, sorted and
    cleaned. *)
Definition stored (allListens : list value) (mergeResult : merge_result) : Prop :=
  exists sorted cleaned,
    in_sorted_order allListens sorted
    /\ cleanGenreData sorted = Ret cleaned
    /\ mergeListeningData (fst cleaned) = Ret mergeResult.

(** What a failed run is blamed on: the sizes of its files, or what the
    stages after the file loop do on the listens the loop accumulated. *)
Definition cause (ft : fileType) (files : list file) (e : run_error) : Prop :=
  let allListens := accumulate ft files [] in
  match e with
  | SizeLimitExceeded total => total = totalSize files /\ maxSize < total
  | NoValidListens => totalSize files <= maxSize /\ allListens = []
  | MergeFailed message =>
      totalSize files <= maxSize
      /\ exists mergeResult,
           stored allListens mergeResult
           /\ merge_success mergeResult = false
           /\ message = to_string (js_or (merge_error mergeResult)
                                         (VStr "Failed to merge data"))
  | ValidationFailed message =>
      totalSize files <= maxSize
      /\ exists mergeResult,
           stored allListens mergeResult
           /\ merge_success mergeResult = true
           /\ validateListeningData (data mergeResult) = Ret (false, message)
  | Exception message =>
      totalSize files <= maxSize
      /\ (sort_listens allListens = Throw message
          \/ (exists sorted,
                in_sorted_order allListens sorted
                /\ (cleanGenreData sorted = Throw message
                    \/ exists cleaned,
                         cleanGenreData sorted = Ret cleaned
                         /\ mergeListeningData (fst cleaned) = Throw message))
          \/ exists mergeResult,
               stored allListens mergeResult
               /\ merge_success mergeResult = true
               /\ (validateListeningData (data mergeResult) = Throw message
                   \/ (exists note,
                          validateListeningData (data mergeResult) = Ret (true, note))
                      /\ date_keys (data mergeResult) = Throw message))
  end.

End Hook.

End DataParser.

(** ** [src/utils/listeningStats.js] *)

Module ListeningStats.

(** A listen as the fingerprint reads it: the numeric fields hold an
    integer-valued number or are absent, the text fields hold a string or
    are absent, [genres] is an array of strings or absent. *)
Record Listen : Type := {
  timestamp : option Z;
  listened_at : option Z;
  artistName : option string;
  trackName : option string;
  genres : option (list string);
  normalizedGenre : option string;
  genre : option string
}.

Definition truthy_num (n : option Z) : bool :=
  match n with Some z => negb (z =? 0) | None => false end.

Definition truthy_str (t : option string) : bool :=
  match t with Some s => negb (is_empty s) | None => false end.

(** [listen.timestamp || listen.listened_at] *)
Definition time_of (l : Listen) : option Z :=
  if truthy_num (timestamp l) then timestamp l else listened_at l.

(** The template literal [`${x}`] on a string-or-undefined field. *)
Definition interpolate (t : option string) : string :=
  match t with Some s => s | None => "undefined" end.

(** [`${l.artistName}-${l.trackName}`] *)
Definition track_key (l : Listen) : string :=
  (interpolate (artistName l) ++ "-" ++ interpolate (trackName l))%string.

(** [l.genres?.[0] || l.normalizedGenre || l.genre || 'Unknown'] *)
Definition genre_of (l : Listen) : string :=
  let head := match genres l with
              | Some (g :: _) => Some g
              | _ => None
              end in
  if truthy_str head then interpolate head
  else if truthy_str (normalizedGenre l) then interpolate (normalizedGenre l)
  else if truthy_str (genre l) then interpolate (genre l)
  else "Unknown".

(** [counts[k] = (counts[k] || 0) + 1] on an object used as a map, its
    keys kept in insertion order, for keys that no object inherits: a
    day number, and a track key, which holds a ["-"]. *)
Fixpoint bump {K} (eqb : K -> K -> bool) (k : K) (counts : list (K * nat))
  : list (K * nat) :=
  match counts with
  | [] => [(k, 1%nat)]
  | (k', n) :: rest =>
      if eqb k k' then (k', S n) :: rest else (k', n) :: bump eqb k rest
  end.

(** [new Set(l).size] *)
Definition distinct (l : list string) : nat :=
  List.length (nodup string_dec l).

(** [Math.round] on exact rationals and reals: the nearest integer, ties
    upward. *)
Definition round_Q (q : Q) : Z := Qfloor (q + (1 # 2)).
Definition round_R (x : R) : Z := Zfloor (x + / 2).

Definition ratio (a b : nat) : Q := inject_Z (Z.of_nat a) / inject_Z (Z.of_nat b).

(** [[...listens].sort((a, b) => aTime - bTime)] with
    [aTime = a.timestamp || a.listened_at]: the difference is NaN when
    one of the two listens has neither field. *)
Definition sorted_by_time (listens : list Listen) : list Listen :=
  sort_by (fun a b => compare_keys (time_of a) (time_of b)) listens.


(** *** Consistency *)

(** The calendar day of [new Date(ts * 1000).toISOString().split('T')[0]],
    as the number of the UTC day; the conversion is a RangeError outside
    the range of valid dates. *)
Definition dayKey (ts : Z) : outcome Z :=
  if Z.abs (ts * 1000) <=? MAX_TIME_MS then Ret (ts / 86400)
  else Throw "RangeError".

Fixpoint listensByDay (listens : list Listen) (acc : list (Z * nat))
  : outcome (list (Z * nat)) :=
  match listens with
  | [] => Ret acc
  | listen :: rest =>
      match time_of listen with
      | Some ts =>
          if ts =? 0 then listensByDay rest acc
          else k <- dayKey ts ;; listensByDay rest (bump Z.eqb k acc)
      | None => listensByDay rest acc
      end
  end.


Definition truthy_times (listens : list Listen) : list Z :=
  flat_map (fun l => match time_of l with
                     | Some ts => if ts =? 0 then [] else [ts]
                     | None => []
                     end) listens.

Definition totalDays (earliest latest : Z) : Z :=
  Z.max 1 (Qceiling (inject_Z (latest - earliest) / 86400)).

(** The two spread calls [Math.min(...timestamps)] and
    [Math.max(...timestamps)] are modelled by their value: what is proved
    of a returned score assumes no more than [max_arguments] usable
    timestamps. *)
Definition calculateConsistency (listens : list Listen) : outcome value :=
  byDay <- listensByDay listens [] ;;
  let days := List.length byDay in
  let timestamps := truthy_times listens in
  match min_of timestamps, max_of timestamps with
  | Some earliest, Some latest =>
      let consistency :=
        round_Q ((inject_Z (Z.of_nat days) / inject_Z (totalDays earliest latest)) * 100) in
      Ret (VNum (Z.min consistency 100))
  | _, _ => Ret (VNum 50)
  end.

(** *** Discovery *)

Fixpoint newArtists (sorted : list Listen) (seenArtists : list string) : nat :=
  match sorted with
  | [] => 0
  | listen :: rest =>
      match artistName listen with
      | Some artist =>
          if negb (is_empty artist) && negb (existsb (String.eqb artist) seenArtists)
          then S (newArtists rest (artist :: seenArtists))
          else newArtists rest seenArtists
      | None => newArtists rest seenArtists
      end
  end.

Definition calculateDiscovery (listens : list Listen) : value :=
  let sorted := sorted_by_time listens in
  let newArtistCount := newArtists sorted [] in
  match List.length listens with
  | O => VNaN                                  (* 0 / 0 *)
  | S _ =>
      let discoveryRate := (ratio newArtistCount (List.length listens) * 100 * 10)%Q in
      VNum (round_Q (Qmin discoveryRate 100))
  end.

(** *** Variety *)

Definition uniqueArtists (listens : list Listen) : nat :=
  distinct (flat_map (fun l => if truthy_str (artistName l)
                               then [interpolate (artistName l)] else []) listens).

Definition uniqueTracks (listens : list Listen) : nat :=
  distinct (List.filter (fun k => negb (String.eqb k "-")) (List.map track_key listens)).

(** [genreCounts] is a plain object, so a read [genreCounts[genre]] of a
    key the object does not own finds what [Object.prototype] holds under
    that name.  These are its function-valued members. *)
Definition inherited_methods : list string :=
  ["constructor"; "hasOwnProperty"; "isPrototypeOf"; "propertyIsEnumerable";
   "toLocaleString"; "toString"; "valueOf";
   "__defineGetter__"; "__defineSetter__"; "__lookupGetter__"; "__lookupSetter__"].

Definition inherited_method (g : string) : bool :=
  existsb (String.eqb g) inherited_methods.

(** What [genreCounts] holds under a key: a number, or the text that
    [+ 1] makes of a function (and of that text again). *)
Inductive counter : Type :=
| Count (n : nat)
| Text.

(** [genreCounts[genre] = (genreCounts[genre] || 0) + 1], the own keys
    in insertion order.  Under ["__proto__"] the read finds the prototype
    object and the assignment, of a text, is ignored: the key is never
    stored. *)
Fixpoint count_genre (g : string) (counts : list (string * counter))
  : list (string * counter) :=
  match counts with
  | [] =>
      if String.eqb g "__proto__" then []
      else if inherited_method g then [(g, Text)]
      else [(g, Count 1)]
  | (k, c) :: rest =>
      if String.eqb g k
      then (k, match c with Count n => Count (S n) | Text => Text end) :: rest
      else (k, c) :: count_genre g rest
  end.

(** The body of the [forEach] over the listens. *)
Definition count_listen_genre (counts : list (string * counter)) (listen : Listen)
  : list (string * counter) :=
  let g := genre_of listen in
  if String.eqb g "Unknown" then counts else count_genre g counts.

Definition genreCounts (listens : list Listen) : list (string * counter) :=
  fold_left count_listen_genre listens [].

(** The counts that are numbers, and whether all of them are. *)
Definition counted (counts : list (string * counter)) : list nat :=
  flat_map (fun entry => match snd entry with Count n => [n] | Text => [] end) counts.

Definition all_counted (counts : list (string * counter)) : bool :=
  forallb (fun entry => match snd entry with Count _ => true | Text => false end) counts.

Definition log2 (x : R) : R := (ln x / ln 2)%R.

(** The loop [entropy -= p * Math.log2(p)] over the genre counts. *)
Definition entropy (counts : list nat) (totalListens : nat) : R :=
  fold_left (fun e c => let p := (INR c / INR totalListens)%R in
                        (e - p * log2 p)%R)
            counts 0%R.

Definition maxEntropy (uniqueGenres : nat) : R :=
  if (1 <? uniqueGenres)%nat then log2 (INR uniqueGenres) else 1%R.

(** [entropy / maxEntropy] when every count is a number. *)
Definition normalizedEntropy (listens : list Listen) : R :=
  let counts := genreCounts listens in
  (entropy (counted counts) (List.length listens) / maxEntropy (List.length counts))%R.

(** [(uniqueArtists / totalListens) * 100] and its track counterpart. *)
Definition artistDiversity (listens : list Listen) : R :=
  (INR (uniqueArtists listens) / INR (List.length listens) * 100)%R.

Definition trackDiversity (listens : list Listen) : R :=
  (INR (uniqueTracks listens) / INR (List.length listens) * 100)%R.

(** The argument of [Math.round] in the weighted branch. *)
Definition weightedScore (listens : list Listen) : R :=
  (normalizedEntropy listens * 100 * (4 / 10)
   + Rmin (artistDiversity listens * 5) 100 * (3 / 10)
   + Rmin (trackDiversity listens * 3) 100 * (3 / 10))%R.

(** The artist and track terms of the weighted score. *)
Definition diversityTerms (listens : list Listen) : R :=
  (Rmin (artistDiversity listens * 5) 100 * (3 / 10)
   + Rmin (trackDiversity listens * 3) 100 * (3 / 10))%R.

Definition calculateVariety (listens : list Listen) : value :=
  let totalListens := List.length listens in
  match genreCounts listens with
  | [] =>
      match totalListens with
      | O => VNaN                              (* 0 / 0 *)
      | S _ =>
          let basicVariety :=
            round_Q ((ratio (uniqueArtists listens) totalListens * 100 * 5
                      + ratio (uniqueTracks listens) totalListens * 100 * 3) / 2)%Q in
          VNum (Z.min basicVariety 100)
      end
  | (_ :: _) as counts =>
      if all_counted counts then
        let varietyScore := round_R (weightedScore listens) in
        VNum (Z.min (Z.max varietyScore 0) 100)
      else VNaN            (* a count that is a text makes the entropy NaN *)
  end.

(** *** Replay rate *)

Definition trackCounts (listens : list Listen) : list (string * nat) :=
  fold_left (fun counts listen =>
               let key := track_key listen in
               if String.eqb key "-" then counts else bump String.eqb key counts)
            listens [].

Definition calculateReplayRate (listens : list Listen) : value :=
  let counts := trackCounts listens in
  let replayedTracks := List.length (List.filter (fun c => (1 <? snd c)%nat) counts) in
  let totalUniqueTracks := List.length counts in
  match totalUniqueTracks with
  | O => VNum 50
  | S _ =>
      let replayRate := (ratio replayedTracks totalUniqueTracks * 100)%Q in
      VNum (round_Q (Qmin replayRate 100))
  end.

(** *** Exploration *)

(** The loop over adjacent pairs; returns (genreSwitches, validComparisons). *)
Fixpoint switches (sorted : list Listen) : nat * nat :=
  match sorted with
  | prev :: ((curr :: _) as rest) =>
      let '(genreSwitches, validComparisons) := switches rest in
      let prevGenre := genre_of prev in
      let currGenre := genre_of curr in
      if negb (String.eqb prevGenre "Unknown") && negb (String.eqb currGenre "Unknown")
      then ((if String.eqb prevGenre currGenre then genreSwitches else S genreSwitches),
            S validComparisons)
      else (genreSwitches, validComparisons)
  | _ => (0%nat, 0%nat)
  end.

Definition calculateExploration (listens : list Listen) : value :=
  let '(genreSwitches, validComparisons) := switches (sorted_by_time listens) in
  match validComparisons with
  | O => VNum 50
  | S _ =>
      let exploration := (ratio genreSwitches validComparisons * 100 * 2)%Q in
      VNum (round_Q (Qmin exploration 100))
  end.

(** *** The fingerprint *)

Definition fingerprint (consistency discovery variety replayRate exploration : value)
  : value :=
  VObj [("consistency", consistency); ("discovery", discovery);
        ("variety", variety); ("replayRate", replayRate);
        ("exploration", exploration)].

Definition neutral : value :=
  fingerprint (VNum 50) (VNum 50) (VNum 50) (VNum 50) (VNum 50).

(** The argument is [None] for a missing ([null] or [undefined]) list. *)
Definition calculateListeningFingerprint (listens : option (list Listen))
  : outcome value :=
  match listens with
  | None | Some [] => Ret neutral
  | Some l =>
      consistency <- calculateConsistency l ;;
      Ret (fingerprint consistency (calculateDiscovery l) (calculateVariety l)
             (calculateReplayRate l) (calculateExploration l))
  end.

Section Validation.
Context {H : Host}.

(** [Number(x) || 50] *)
Definition number_or_50 (x : value) : value :=
  js_or (of_number (to_number x)) (VNum 50).

Definition isNaN (v : value) : bool :=
  match to_number v with None => true | Some _ => false end.

Definition axes : list string :=
  ["consistency"; "discovery"; "variety"; "replayRate"; "exploration"].

(** Returns the validated object, or [null]. *)
Definition validateFingerprintData (fp : value) : value :=
  if negb (truthy fp) || negb (String.eqb (typeof fp) "object") then VNull
  else
    let validated :=
      List.map (fun axis => (axis, number_or_50 (get_opt fp axis))) axes in
    let hasInvalid :=
      existsb (fun v => isNaN v
                        || match v with VUndefined | VNull => true | _ => false end)
              (List.map snd validated) in
    if hasInvalid then VNull else VObj validated.

End Validation.

End ListeningStats.

(** ** [src/components/Timeline/ListeningClockVisualization.jsx] *)

(** The data behind the 24-hour clock: the counters per hour of the day,
    their maximum, the bars and the peak hour.  The drawing itself is
    left out, and so is the early return on a missing or empty list. *)
Module ListeningClock.

Import ListeningStats.

(** [hourCounts[hour]++] on the array of counters, for an index inside
    the array. *)
Fixpoint increment (hour : nat) (hourCounts : list nat) : list nat :=
  match hourCounts, hour with
  | [], _ => []
  | c :: rest, O => S c :: rest
  | c :: rest, S h => c :: increment h rest
  end.

(** One bar of the clock: [{hour, count, label}]. *)
Record bar : Type := {
  hour : nat;
  count : nat;
  label : string
}.

(** [`${String(hour).padStart(2, '0')}:00`] *)
Definition label_of (hour : nat) : string :=
  let digits := string_of_Z (Z.of_nat hour) in
  ((if (String.length digits <? 2)%nat then "0" ++ digits else digits) ++ ":00")%string.

(** [hourCounts.map((count, hour) => ({hour, count, label}))], the hours
    numbered from [hour] on. *)
Fixpoint bars (hour : nat) (hourCounts : list nat) : list bar :=
  match hourCounts with
  | [] => []
  | c :: rest =>
      {| hour := hour; count := c; label := label_of hour |} :: bars (S hour) rest
  end.

(** [Math.max(...hourCounts)]; [None] is [-Infinity]. *)
Definition maxCount (hourCounts : list nat) : option nat :=
  match hourCounts with
  | [] => None
  | c :: rest => Some (fold_left Nat.max rest c)
  end.

(** [data.reduce((max, curr) => curr.count > max.count ? curr : max, data[0])];
    [None] is the [undefined] an empty array reduces to. *)
Definition peakHour (data : list bar) : option bar :=
  match data with
  | [] => None
  | first :: _ =>
      Some (fold_left (fun max curr => if (count max <? count curr)%nat then curr else max)
              data first)
  end.

Section Clock.
(** [new Date(ms).getHours()]: the hour of the day in the local time
    zone, [None] (NaN) for an invalid date. *)
Variable getHours : Z -> option nat.

(** The body of the loop over the listens. *)
Definition count_listen (hourCounts : list nat) (listen : Listen) : list nat :=
  match time_of listen with
  | Some timestamp =>
      if timestamp =? 0 then hourCounts
      else match getHours (timestamp * 1000) with
           | Some hour => increment hour hourCounts
           | None => hourCounts        (* [hourCounts[NaN]++] touches no counter *)
           end
  | None => hourCounts
  end.

Definition hourCounts (listens : list Listen) : list nat :=
  fold_left count_listen listens (repeat 0%nat 24).

(** The listens the clock shows: those with a truthy time that is a
    valid date. *)
Definition on_clock (listen : Listen) : bool :=
  match time_of listen with
  | Some timestamp =>
      negb (timestamp =? 0)
      && match getHours (timestamp * 1000) with Some _ => true | None => false end
  | None => false
  end.

End Clock.

End ListeningClock.

(** ** The legacy-data migration ([migrateOldData] and the migration
       notice) *)

(** The [localStorage] phase of the migration and the two functions of
    the migration notice.  The IndexedDB phase that runs before it is
    left out; what it hands over is the [migrationPerformed] flag. *)
Module DataMigration.

(** [localStorage], and an object literal with string values: the keys
    with their values, in insertion order. *)
Definition storage : Type := list (string * string).

(** [localStorage.getItem(key)] and [object[key]]; [None] is [null] (or
    [undefined]). *)
Fixpoint getItem (key : string) (st : storage) : option string :=
  match st with
  | [] => None
  | (k, v) :: rest => if String.eqb key k then Some v else getItem key rest
  end.

Fixpoint setItem (key value : string) (st : storage) : storage :=
  match st with
  | [] => [(key, value)]
  | (k, v) :: rest =>
      if String.eqb key k then (k, value) :: rest else (k, v) :: setItem key value rest
  end.

Definition removeItem (key : string) (st : storage) : storage :=
  List.filter (fun entry => negb (String.eqb key (fst entry))) st.

(** [ToBoolean] on a string or [null]. *)
Definition truthy_item (v : option string) : bool :=
  match v with Some s => negb (is_empty s) | None => false end.

Definition oldLocalStorageKeys : list string :=
  ["music-genre-settings"; "music-genre-theme"; "music-genome-cache";
   "genre-viz-settings"; "viz-theme"; "listening-data-cache"].

Definition newKeyMap : storage :=
  [("music-genre-settings", "musicquest_settings");
   ("music-genre-theme", "musicquest_theme");
   ("music-genome-cache", "musicquest_cache");
   ("genre-viz-settings", "musicquest_settings");
   ("viz-theme", "musicquest_theme");
   ("listening-data-cache", "musicquest_cache")].

Section Migration.
(** [oldKey.replace(/^(music-gene(re|ome)|genre-viz|viz)/, 'musicquest')] *)
Variable replace_prefix : string -> string.

(** [newKeyMap[oldKey] || oldKey.replace(...)] *)
Definition new_key (oldKey : string) : string :=
  match getItem oldKey newKeyMap with
  | Some mapped => if is_empty mapped then replace_prefix oldKey else mapped
  | None => replace_prefix oldKey
  end.

(** The body of the loop over the legacy keys, on the storage and the
    [migrationPerformed] flag. *)
Definition migrate_key (state : storage * bool) (oldKey : string) : storage * bool :=
  match getItem oldKey (fst state) with
  | Some value =>
      if is_empty value then state
      else
        let newKey := new_key oldKey in
        let existingValue := getItem newKey (fst state) in
        let written :=
          if truthy_item existingValue then state
          else (setItem newKey value (fst state), true) in
        (removeItem oldKey (fst written), snd written)
  | None => state
  end.

Definition migrateLocalStorage (st : storage) (migrationPerformed : bool)
  : storage * bool :=
  fold_left migrate_key oldLocalStorageKeys (st, migrationPerformed).

End Migration.

Definition MIGRATION_COMPLETED : string := "musicquest_migration_completed".

Section Notice.
Context {H : Host}.

Definition shouldShowMigrationNotice (st : storage) : bool :=
  negb (truthy_item (getItem MIGRATION_COMPLETED st)).

Definition markMigrationComplete (st : storage) : storage :=
  setItem MIGRATION_COMPLETED (string_of_Z now_ms) st.

End Notice.

End DataMigration.

(** ** Derived notions *)

(** Notions the properties of Part II are stated with: views on the data
    of the functions above, none of them part of the program. *)
Module Derived.

(** A comparator agrees with a numeric key on the elements of a list. *)
Definition keyed {A} (cmp : A -> A -> Z) (key : A -> Z) (l : list A) : Prop :=
  forall a b, In a l -> In b l -> cmp a b = key a - key b.

Section SortKeys.
Context {H : Host}.

(** The number [a.timestamp || a.listened_at || 0] of a listen that has
    one. *)
Definition sort_key (a : value) : Z :=
  match DataParser.time_key a with
  | Ret (Some z) => z
  | _ => 0
  end.

Definition has_time (a : value) : Prop :=
  exists z, DataParser.time_key a = Ret (Some z).

End SortKeys.

(** The key of a listen paired with its time key. *)
Definition pair_key (p : option Z * value) : Z :=
  match fst p with Some z => z | None => 0 end.

(** The artist names the discovery loop looks at: the truthy ones. *)
Definition artist_names (listens : list ListeningStats.Listen) : list string :=
  flat_map (fun l => if ListeningStats.truthy_str (ListeningStats.artistName l)
                     then [ListeningStats.interpolate (ListeningStats.artistName l)]
                     else []) listens.

(** The keys the replay loop counts: every track key but ["-"]. *)
Definition track_keys (listens : list ListeningStats.Listen) : list string :=
  List.filter (fun k => negb (String.eqb k "-"))
              (List.map ListeningStats.track_key listens).

(** The loop [counts[k] = (counts[k] || 0) + 1] over a list of keys. *)
Definition tally (keys : list string) (counts : list (string * nat))
  : list (string * nat) :=
  fold_left (fun c k => ListeningStats.bump String.eqb k c) keys counts.

(** The count an object used as a map holds for a key; 0 when absent. *)
Definition count_for (k : string) (counts : list (string * nat)) : nat :=
  match List.find (fun p => String.eqb k (fst p)) counts with
  | Some p => snd p
  | None => 0%nat
  end.

(** The distinct keys that occur more than once. *)
Definition repeated (keys : list string) : list string :=
  List.filter (fun k => (1 <? count_occ string_dec keys k)%nat)
              (nodup string_dec keys).

(** A corpus none of whose genres is the name of a method that
    [genreCounts] inherits. *)
Definition plain_genres (listens : list ListeningStats.Listen) : Prop :=
  Forall (fun l => ListeningStats.inherited_method (ListeningStats.genre_of l) = false)
         listens.


(** What [genreCounts] holds at every point of its loop: a text under
    the name of an inherited method, a positive number under every other
    key. *)
Definition well_counted (counts : list (string * ListeningStats.counter)) : Prop :=
  Forall (fun entry =>
            match snd entry with
            | ListeningStats.Count n =>
                ListeningStats.inherited_method (fst entry) = false /\ (1 <= n)%nat
            | ListeningStats.Text =>
                ListeningStats.inherited_method (fst entry) = true
            end) counts.

(** The prefix [parseUniversalData] puts before the message of an error
    it caught. *)
Definition FAILED_TO_PARSE : string := "Failed to parse file: ".

(** Legacy keys none of which is its own migration target. *)
Definition apart (replace_prefix : string -> string) (ks : list string) : Prop :=
  forall o, In o ks -> DataMigration.new_key replace_prefix o <> o.

End Derived.

(** ** Sample host and sample data *)

Module Sample.

(** Decimal numerals, the empty string reading as zero. *)
Fixpoint parse_digits (s : string) (acc : Z) : option Z :=
  match s with
  | EmptyString => Some acc
  | String c s' =>
      let n := Z.of_nat (nat_of_ascii c) in
      if (48 <=? n) && (n <=? 57) then parse_digits s' (10 * acc + (n - 48))
      else None
  end.

Definition parse_number (s : string) : option Z :=
  match s with
  | String "-"%char s' => option_map Z.opp (parse_digits s' 0)
  | _ => parse_digits s 0
  end.

(** A host in the UTC time zone on 2024-05-04, knowing two date strings. *)
Definition host : Host := {|
  date_parse := fun s =>
    if String.eqb s "2024-05-04T18:32:49Z" then Some 1714847569000
    else if String.eqb s "1999-12-31T23:59:59Z" then Some 946684799000
    else None;
  now_ms := 1714847569123;
  local_1900_ms := -2208988800000;
  string_to_number := parse_number;
  array_to_string := fun l => match l with
                              | [] => ""
                              | _ => "[object Object]"
                              end;
  sanitize := fun s => s;
  json_parse := fun s =>
    if String.eqb s "<two ListenBrainz listens>"
    then Some (VArr [VObj [("listened_at", VNum 1609459200);
                           ("track_metadata", VObj [("track_name", VStr "Song");
                                                    ("artist_name", VStr "Band")])];
                     VObj [("listened_at", VNum 1612137600);
                           ("track_metadata", VObj [("track_name", VStr "Tune");
                                                    ("artist_name", VStr "Duo")])]])
    else None;
  syntax_error_message := fun _ => "Unexpected token";
  max_arguments := 120000
|}.

(** A ListenBrainz API envelope [{payload: {listens: [...]}}]. *)
Definition lb_listen (listened_at : Z) : value :=
  VObj [("listened_at", VNum listened_at);
        ("track_metadata", VObj [("track_name", VStr "Song");
                                 ("artist_name", VStr "Band")])].

Definition envelope : value :=
  VObj [("payload", VObj [("count", VNum 1);
                          ("listens", VArr [lb_listen 1609459200])])].

(** A batch [{listens: [...]}] of canonical listens with the given
    [listened_at] values. *)
Definition canonical (ts : Z) : value := VObj [("listened_at", VNum ts)].

Definition batch (timestamps : list Z) : value :=
  VObj [("listens", VArr (List.map canonical timestamps))].

(** Ten listens: eight inside the plausible window, spread over more than
    two months, and two exactly on its lower bound. *)
Definition boundary_timestamps : list Z :=
  [946684800; 946684800; 1609459200; 1610000000; 1611000000;
   1612000000; 1613000000; 1614000000; 1615000000; 1616000000].

Definition boundary_batch : value := batch boundary_timestamps.

(** Eleven listens: one exactly on the lower bound of the window, and
    ten an hour apart on the first of January 2021. *)
Definition edge_timestamps : list Z :=
  [946684800; 1609459200; 1609462800; 1609466400; 1609470000; 1609473600;
   1609477200; 1609480800; 1609484400; 1609488000; 1609491600].

Definition edge_batch : value := batch edge_timestamps.

(** Three listens over 31 days, and three over exactly 29 days. *)
Definition month_batch : value :=
  batch [1609459200; 1610000000; 1609459200 + 31 * 86400].
Definition short_batch : value :=
  batch [1609459200; 1610000000; 1609459200 + 29 * 86400].

(** An upstream history: [n] listens with descending timestamps starting
    at [from], wrapped in the API envelope. *)
Fixpoint page (from : Z) (n : nat) : list value :=
  match n with
  | O => []
  | S n' => lb_listen from :: page (from - 1) n'
  end.

Definition api_body (listens : list value) : value :=
  VObj [("payload", VObj [("count", VNum (Z.of_nat (List.length listens)));
                          ("listens", VArr listens)])].

(** A server that answers the first request with a full page, the second
    with 400 listens and every later one with none. *)
Definition server (call : nat) (url : string) : outcome value :=
  match call with
  | 0%nat => Ret (api_body (page 1700003000 1000))
  | 1%nat => Ret (api_body (page 1700002000 400))
  | _ => Ret (api_body [])
  end.

(** A server whose first page is full but ends in a listen without
    [listened_at], and a server whose connection fails. *)
Definition untimed_server (call : nat) (url : string) : outcome value :=
  Ret (api_body (page 1700003000 999 ++ [VObj [("track_metadata", VObj [])]])).

Definition failing_server (call : nat) (url : string) : outcome value :=
  Throw "Failed to fetch".

Definition never_aborted (n : nat) : bool := false.

(** Import collaborators that accept what they are given: no JSONL
    support, a genre cleaner and a store that return the batch unchanged,
    and a corpus check that accepts everything. *)
Definition collaborators : DataParser.Collaborators := {|
  DataParser.isJSONLFile := fun _ => false;
  DataParser.parseJSONL := fun _ => Throw "not a JSONL file";
  DataParser.validateListenBrainzJSON := fun _ => Ret (false, "not recognised");
  DataParser.parseListenBrainzJSON := fun _ => Throw "not recognised";
  DataParser.validateSpotifyJSON := fun _ => Ret (false, "not recognised");
  DataParser.parseSpotifyJSON := fun _ => Throw "not recognised";
  DataParser.cleanGenreData := fun l => Ret (l, VObj []);
  DataParser.mergeListeningData := fun l =>
    Ret {| DataParser.merge_success := true; DataParser.data := l;
           DataParser.duplicates := 0; DataParser.merge_error := VUndefined |};
  DataParser.validateListeningData := fun _ => Ret (true, "")
|}.


(** A store that already holds a listen of an earlier import, and a
    store that holds a broken entry. *)
Definition full_store : DataParser.Collaborators := {|
  DataParser.isJSONLFile := fun _ => false;
  DataParser.parseJSONL := fun _ => Throw "not a JSONL file";
  DataParser.validateListenBrainzJSON := fun _ => Ret (false, "not recognised");
  DataParser.parseListenBrainzJSON := fun _ => Throw "not recognised";
  DataParser.validateSpotifyJSON := fun _ => Ret (false, "not recognised");
  DataParser.parseSpotifyJSON := fun _ => Throw "not recognised";
  DataParser.cleanGenreData := fun l => Ret (l, VObj []);
  DataParser.mergeListeningData := fun l =>
    Ret {| DataParser.merge_success := true;
           DataParser.data := VObj [("listened_at", VNum 1500000000)] :: l;
           DataParser.duplicates := 0; DataParser.merge_error := VUndefined |};
  DataParser.validateListeningData := fun _ => Ret (true, "")
|}.

Definition corrupt_store : DataParser.Collaborators := {|
  DataParser.isJSONLFile := fun _ => false;
  DataParser.parseJSONL := fun _ => Throw "not a JSONL file";
  DataParser.validateListenBrainzJSON := fun _ => Ret (false, "not recognised");
  DataParser.parseListenBrainzJSON := fun _ => Throw "not recognised";
  DataParser.validateSpotifyJSON := fun _ => Ret (false, "not recognised");
  DataParser.parseSpotifyJSON := fun _ => Throw "not recognised";
  DataParser.cleanGenreData := fun l => Ret (l, VObj []);
  DataParser.mergeListeningData := fun l =>
    Ret {| DataParser.merge_success := true; DataParser.data := VNull :: l;
           DataParser.duplicates := 0; DataParser.merge_error := VUndefined |};
  DataParser.validateListeningData := fun _ => Ret (true, "")
|}.

(** The sample host on an engine that spreads no more than two
    arguments. *)
Definition narrow_host : Host := {|
  date_parse := @date_parse host;
  now_ms := @now_ms host;
  local_1900_ms := @local_1900_ms host;
  string_to_number := @string_to_number host;
  array_to_string := @array_to_string host;
  sanitize := @sanitize host;
  json_parse := @json_parse host;
  syntax_error_message := @syntax_error_message host;
  max_arguments := 2
|}.

Definition good_file : DataParser.file :=
  {| DataParser.name := "listens.json"; DataParser.size := 2048;
     DataParser.text := Ret "<two ListenBrainz listens>" |}.

Definition broken_file : DataParser.file :=
  {| DataParser.name := "notes.json"; DataParser.size := 512;
     DataParser.text := Ret "not json at all" |}.


(** Four Spotify records: played exactly 30000 ms; played 29999 ms; no
    track name but a track identifier; no artist. *)
Definition spotify_record (track uri artist : value) (ms : Z) : value :=
  VObj [("ts", VStr "2024-05-04T18:32:49Z");
        ("master_metadata_track_name", track);
        ("spotify_track_uri", uri);
        ("master_metadata_album_artist_name", artist);
        ("ms_played", VNum ms)].


Definition spotify_export : value :=
  VArr [spotify_record (VStr "Song") (VStr "spotify:track:abc") (VStr "Band") 30000;
        spotify_record (VStr "Tune") (VStr "spotify:track:def") (VStr "Band") 29999;
        spotify_record VNull (VStr "spotify:track:ghi") (VStr "Duo") 45000;
        spotify_record (VStr "Air") (VStr "spotify:track:jkl") VNull 60000].

(** A listen as the fingerprint reads it. *)
Definition listen (ts : Z) (artist track : string) (genre : string)
  : ListeningStats.Listen :=
  {| ListeningStats.timestamp := Some ts;
     ListeningStats.listened_at := None;
     ListeningStats.artistName := Some artist;
     ListeningStats.trackName := Some track;
     ListeningStats.genres := Some [genre];
     ListeningStats.normalizedGenre := None;
     ListeningStats.genre := None |}.


(** Two corpora of eight listens with the same artists and tracks: in the
    first the genres are rock and jazz, four listens each; in the second
    two of the jazz listens are relabelled pop and folk. *)
Definition two_genres : list ListeningStats.Listen :=
  [listen 1609459200 "A1" "T1" "rock"; listen 1609459201 "A2" "T2" "rock";
   listen 1609459202 "A3" "T3" "rock"; listen 1609459203 "A4" "T4" "rock";
   listen 1609459204 "A5" "T5" "jazz"; listen 1609459205 "A6" "T6" "jazz";
   listen 1609459206 "A7" "T7" "jazz"; listen 1609459207 "A8" "T8" "jazz"].

Definition four_genres : list ListeningStats.Listen :=
  [listen 1609459200 "A1" "T1" "rock"; listen 1609459201 "A2" "T2" "rock";
   listen 1609459202 "A3" "T3" "rock"; listen 1609459203 "A4" "T4" "rock";
   listen 1609459204 "A5" "T5" "jazz"; listen 1609459205 "A6" "T6" "jazz";
   listen 1609459206 "A7" "T7" "pop"; listen 1609459207 "A8" "T8" "folk"].

(** Five listens of one genre, and the same five spread over five genres. *)
Definition one_genre : list ListeningStats.Listen :=
  [listen 1609459200 "A1" "T1" "rock"; listen 1609459201 "A1" "T1" "rock";
   listen 1609459202 "A1" "T1" "rock"; listen 1609459203 "A1" "T1" "rock";
   listen 1609459204 "A1" "T1" "rock"].

Definition five_genres : list ListeningStats.Listen :=
  [listen 1609459200 "A1" "T1" "rock"; listen 1609459201 "A1" "T1" "jazz";
   listen 1609459202 "A1" "T1" "pop"; listen 1609459203 "A1" "T1" "folk";
   listen 1609459204 "A1" "T1" "soul"].

(** Two listens of one track, filed under a genre named like a method of
    every object. *)
Definition inherited_genre : list ListeningStats.Listen :=
  [listen 1609459200 "Band" "Song" "constructor";
   listen 1609459201 "Band" "Song" "constructor"].

(** A fingerprint whose discovery score is 0. *)
Definition flat_fingerprint : list (string * value) :=
  [("consistency", VNum 49); ("discovery", VNum 0); ("variety", VNum 68);
   ("replayRate", VNum 36); ("exploration", VNum 84)].

(** Three canonical listens delivered out of order, two of them in the
    same second; and the order the import hook gives them. *)
Definition titled (ts : Z) (title : string) : value :=
  VObj [("listened_at", VNum ts); ("trackName", VStr title)].

Definition unsorted_listens : list value :=
  [titled 1612137600 "late"; titled 1609459200 "first"; titled 1609459200 "second"].

Definition sorted_listens : list value :=
  [titled 1609459200 "first"; titled 1609459200 "second"; titled 1612137600 "late"].

(** A listen without any genre, and a corpus of two of them, three days
    apart, by different artists. *)
Definition untagged (ts : Z) (artist track : string) : ListeningStats.Listen :=
  {| ListeningStats.timestamp := Some ts;
     ListeningStats.listened_at := None;
     ListeningStats.artistName := Some artist;
     ListeningStats.trackName := Some track;
     ListeningStats.genres := None;
     ListeningStats.normalizedGenre := None;
     ListeningStats.genre := None |}.

Definition untagged_listens : list ListeningStats.Listen :=
  [untagged 1609459200 "A1" "T1"; untagged 1609718400 "A2" "T2"].

(** The fingerprint of that corpus: listens on two days out of three, no
    track played twice, no genre to compare. *)
Definition untagged_fingerprint : value :=
  ListeningStats.fingerprint (VNum 67) (VNum 100) (VNum 100) (VNum 0) (VNum 50).

(** What [parseListenBrainzFormat] of universalParser.js returns for one
    sample listen. *)
Definition parsed_listen : value :=
  VObj [("id", VStr "lb-0-1609459200");
        ("listened_at", VNum 1609459200);
        ("timestamp", VNum 1609459200000);
        ("trackName", VStr "Song");
        ("artistName", VStr "Band");
        ("albumName", VStr "Unknown Album");
        ("recordingMsid", VNull);
        ("additionalInfo", VObj []);
        ("source", VStr "listenbrainz")].

Definition parsed_export : UniversalParser.parse_result :=
  {| UniversalParser.success := true;
     UniversalParser.listens := [parsed_listen];
     UniversalParser.count := 1;
     UniversalParser.totalEntries := None;
     UniversalParser.filtered := None;
     UniversalParser.format_of := Some UniversalParser.ListenBrainz;
     UniversalParser.error := None |}.

(** What the scroll-back returns from the sample server without a record
    cap, and with a cap of 500 records. *)
Definition full_history : ListenBrainzApi.response :=
  {| ListenBrainzApi.success := true;
     ListenBrainzApi.listens := page 1700003000 1000 ++ page 1700002000 400;
     ListenBrainzApi.count := 1400;
     ListenBrainzApi.error := None |}.

Definition capped_history : ListenBrainzApi.response :=
  {| ListenBrainzApi.success := true;
     ListenBrainzApi.listens := page 1700003000 1000;
     ListenBrainzApi.count := 1000;
     ListenBrainzApi.error := None |}.

(** The hour of the day in the UTC time zone. *)
Definition utc_hours (ms : Z) : option nat :=
  if Z.abs ms <=? MAX_TIME_MS then Some (Z.to_nat ((ms / 3600000) mod 24)) else None.

(** A browser that holds settings of two earlier versions of the
    application, a theme of the current one and an unrelated entry. *)
Definition legacy_storage : DataMigration.storage :=
  [("genre-viz-settings", "{zoom:2}");
   ("music-genre-settings", "{zoom:1}");
   ("viz-theme", "light");
   ("musicquest_theme", "dark");
   ("unrelated", "kept")].


End Sample.

(* ================================================================= *)
(** * Part II: properties *)
(* ================================================================= *)

(** ** Format detection *)

Module DetectorFacts.

(** The detector of [parseImportedData] recognises every object that
    carries a [payload.listens] array, whatever the file is called. *)
Lemma import_detect_envelope :
  forall (fs : list (string * value)) (items : list value) (fileName : string),
    get (lookup "payload" fs) "listens" = Ret (VArr items) ->
    ImportParser.detectDataFormat (VObj fs) fileName = Ret ImportParser.ListenBrainz.
Proof.
  intros fs items fileName Hl.
  unfold ImportParser.detectDataFormat. cbn [get bind].
  unfold and_then. cbn [get bind].
  assert (Ht : truthy (lookup "payload" fs) = true).
  { destruct (lookup "payload" fs); cbn in Hl |- *;
      try reflexivity; try discriminate. }
  rewrite Ht, Hl. reflexivity.
Qed.

(** The detector of [universalParser.js] has no envelope rule: an object
    with none of the first-item markers is classified by file name only. *)
Lemma universal_detect_by_name_only :
  forall (fs : list (string * value)) (fileName : string),
    truthy (lookup "listened_at" fs) = false ->
    truthy (lookup "ts" fs) = false ->
    truthy (get_opt (lookup "date" fs) "uts") = false ->
    includes (toLowerCase fileName) "spotify" = false ->
    includes (toLowerCase fileName) "streaming_history" = false ->
    includes (toLowerCase fileName) "listenbrainz" = false ->
    includes (toLowerCase fileName) "lastfm" = false ->
    includes (toLowerCase fileName) "last.fm" = false ->
    exists message, UniversalParser.detectDataFormat (VObj fs) fileName = Throw message.
Proof.
  intros fs fileName Hla Hts Hd H1 H2 H3 H4 H5.
  unfold UniversalParser.detectDataFormat.
  cbn [truthy negb]. unfold and_then, or_else. cbn [get bind].
  repeat (rewrite ?Hla, ?Hts, ?Hd, ?H1, ?H2, ?H3, ?H4, ?H5; cbn [truthy bind orb]).
  eexists. reflexivity.
Qed.

(** C5 (diverging case): on the ListenBrainz API envelope
    [{payload: {count: 1, listens: [...]}}] uploaded as [export.json],
    [detectDataFormat] of [universalParser.js] throws its "Unknown data
    format" error, while the detector of [parseImportedData] returns the
    ListenBrainz format for the same input. *)
Theorem envelope_unknown_to_universal_parser :
  UniversalParser.detectDataFormat Sample.envelope "export.json"
    = Throw "Unknown data format. Please upload ListenBrainz or Spotify extended streaming history JSON files."
  /\ ImportParser.detectDataFormat Sample.envelope "export.json"
     = Ret ImportParser.ListenBrainz.
Proof. split; reflexivity. Qed.

End DetectorFacts.

(** ** Batch validation *)

Module ValidatorFacts.

Import UniversalParser.

Lemma validate_batch :
  forall (data : value) (items timestamps : list value),
    get data "listens" = Ret (VArr items) ->
    items <> [] ->
    mapM (fun l => get l "listened_at") items = Ret timestamps ->
    validateUniversalData data = Ret (validateTimestamps timestamps).
Proof.
  intros data items timestamps Hl Hne Hts.
  assert (Ht : truthy data = true).
  { destruct data; cbn in Hl |- *; try reflexivity; try discriminate;
      destruct (String.eqb _ _); discriminate. }
  unfold validateUniversalData. rewrite Ht. cbn [negb].
  rewrite Hl. cbn [bind truthy negb get String.eqb Ascii.eqb Bool.eqb].
  destruct items as [|i items']; [contradiction|].
  cbn [List.length Z.of_nat]. rewrite Hts. reflexivity.
Qed.

Lemma mapM_length {A B} (f : A -> outcome B) (l : list A) (r : list B) :
  mapM f l = Ret r -> List.length r = List.length l.
Proof.
  revert r. induction l as [|x l IH]; intros r Hm; cbn in Hm.
  - injection Hm as <-. reflexivity.
  - destruct (f x); [|discriminate]. cbn in Hm.
    destruct (mapM f l); [|discriminate]. cbn in Hm.
    injection Hm as <-. cbn. f_equal. apply IH. reflexivity.
Qed.

(** The percentage test in integers. *)
Lemma below_90_percent (valid total : nat) :
  (0 < total)%nat ->
  Qltb (percentage valid total) 90 = (10 * Z.of_nat valid <? 9 * Z.of_nat total).
Proof.
  intros Hpos. unfold Qltb, percentage.
  destruct (Z.of_nat total) as [|p|p] eqn:Et; try lia.
  unfold Qle_bool, Qdiv, Qmult, Qinv, inject_Z. cbn [Qnum Qden].
  rewrite !Pos.mul_1_l, !Pos.mul_1_r, !Z.mul_1_r.
  destruct (Z.leb_spec (90 * Z.pos p) (Z.of_nat valid * 100));
    destruct (Z.ltb_spec (10 * Z.of_nat valid) (9 * Z.pos p)); cbn; lia.
Qed.

(** The span test in integers. *)
Lemma span_below_threshold (earliest latest : Z) :
  Qltb (yearSpan earliest latest) (8 # 100) = (latest - earliest <? MIN_SPAN_SECONDS).
Proof.
  unfold Qltb, yearSpan, SECONDS_PER_YEAR, MIN_SPAN_SECONDS.
  unfold Qle_bool, Qdiv, Qmult, Qinv, inject_Z. cbn [Qnum Qden].
  rewrite !Pos.mul_1_l, !Z.mul_1_r.
  destruct (Z.leb_spec (8 * 31557600) ((latest - earliest) * 100));
    destruct (Z.ltb_spec (latest - earliest) 2524608); cbn; lia.
Qed.

(** The plausibility check fails exactly when fewer than 90% of the
    timestamps are numbers strictly between the two bounds. *)
Lemma plausibility_check :
  forall timestamps : list value,
    timestamps <> [] ->
    let valid := List.length (List.filter plausible timestamps) in
    let total := List.length timestamps in
    (10 * Z.of_nat valid < 9 * Z.of_nat total ->
     validateTimestamps timestamps
     = TooManyInvalid valid total (find_value offending timestamps)
         (typeof (hd VUndefined timestamps)) (hd VUndefined timestamps))
    /\ (9 * Z.of_nat total <= 10 * Z.of_nat valid ->
        forall v t s d f, validateTimestamps timestamps <> TooManyInvalid v t s d f).
Proof.
  intros timestamps Hne valid total.
  assert (Hpos : (0 < total)%nat).
  { subst total. destruct timestamps; [contradiction | cbn; lia]. }
  unfold validateTimestamps. fold valid. fold total.
  rewrite (below_90_percent valid total Hpos).
  split; intros Hc.
  - apply Z.ltb_lt in Hc. rewrite Hc. reflexivity.
  - apply Z.ltb_ge in Hc. rewrite Hc. intros v t s d f.
    repeat match goal with
           | |- context [match ?x with _ => _ end] => destruct x
           end; discriminate.
Qed.

(** C2 (diverging case): a batch of ten listens, eight of them strictly
    inside the window and two with [listened_at] exactly 946684800, has
    all ten timestamps in the closed interval [946684800, 2147483647],
    yet [validateUniversalData] counts only eight as valid (80%), fails
    with the too-many-invalid-timestamps error, and finds no offending
    sample to report ([undefined]). *)
Theorem lower_bound_timestamps_rejected :
  Forall (fun ts => MIN_TIMESTAMP <= ts <= MAX_TIMESTAMP) Sample.boundary_timestamps
  /\ validateUniversalData Sample.boundary_batch
     = Ret (TooManyInvalid 8 10 VUndefined "number" (VNum 946684800)).
Proof.
  split.
  - unfold Sample.boundary_timestamps, MIN_TIMESTAMP, MAX_TIMESTAMP.
    repeat constructor; lia.
  - vm_compute. reflexivity.
Qed.

Lemma numbers_of_plausible (l : list value) :
  List.length (numbers (List.filter plausible l)) = List.length (List.filter plausible l).
Proof.
  induction l as [|v l IH]; [reflexivity|].
  cbn [List.filter]. destruct (plausible v) eqn:Ep; [|exact IH].
  destruct v; try discriminate. cbn. f_equal. exact IH.
Qed.

Lemma min_of_nonempty (l : list Z) : l <> [] -> exists z, min_of l = Some z.
Proof. destruct l; [contradiction | eexists; reflexivity]. Qed.

Lemma max_of_nonempty (l : list Z) : l <> [] -> exists z, max_of l = Some z.
Proof. destruct l; [contradiction | eexists; reflexivity]. Qed.

Lemma fold_min_In (l : list Z) (a : Z) : In (fold_left Z.min l a) (a :: l).
Proof.
  revert a. induction l as [|x l IH]; intros a; cbn [fold_left]; [left; reflexivity|].
  destruct (IH (Z.min a x)) as [E | Hin]; [|right; right; exact Hin].
  rewrite <- E. destruct (Z.min_spec a x) as [[_ ->] | [_ ->]]; cbn; auto.
Qed.

Lemma fold_max_In (l : list Z) (a : Z) : In (fold_left Z.max l a) (a :: l).
Proof.
  revert a. induction l as [|x l IH]; intros a; cbn [fold_left]; [left; reflexivity|].
  destruct (IH (Z.max a x)) as [E | Hin]; [|right; right; exact Hin].
  rewrite <- E. destruct (Z.max_spec a x) as [[_ ->] | [_ ->]]; cbn; auto.
Qed.

Lemma fold_min_start (l : list Z) (a : Z) : fold_left Z.min l a <= a.
Proof.
  revert a. induction l as [|y l IH]; intros a; cbn [fold_left]; [lia|].
  specialize (IH (Z.min a y)). lia.
Qed.

Lemma fold_max_start (l : list Z) (a : Z) : a <= fold_left Z.max l a.
Proof.
  revert a. induction l as [|y l IH]; intros a; cbn [fold_left]; [lia|].
  specialize (IH (Z.max a y)). lia.
Qed.

Lemma fold_min_lower (l : list Z) (a x : Z) :
  In x (a :: l) -> fold_left Z.min l a <= x.
Proof.
  revert a. induction l as [|y l IH]; intros a; cbn [fold_left].
  - intros [<- | []]. lia.
  - pose proof (fold_min_start l (Z.min a y)).
    intros [<- | [<- | Hin]]; [lia | lia |].
    apply IH. right. exact Hin.
Qed.

Lemma fold_max_upper (l : list Z) (a x : Z) :
  In x (a :: l) -> x <= fold_left Z.max l a.
Proof.
  revert a. induction l as [|y l IH]; intros a; cbn [fold_left].
  - intros [<- | []]. lia.
  - pose proof (fold_max_start l (Z.max a y)).
    intros [<- | [<- | Hin]]; [lia | lia |].
    apply IH. right. exact Hin.
Qed.

(** [Math.min] of a list is one of its elements and the least of them;
    likewise [Math.max]. *)
Lemma min_of_In (l : list Z) (m : Z) : min_of l = Some m -> In m l.
Proof.
  destruct l as [|a l]; [discriminate|]. cbn. intros E. injection E as <-.
  apply fold_min_In.
Qed.

Lemma max_of_In (l : list Z) (m : Z) : max_of l = Some m -> In m l.
Proof.
  destruct l as [|a l]; [discriminate|]. cbn. intros E. injection E as <-.
  apply fold_max_In.
Qed.

Lemma min_of_least (l : list Z) (m x : Z) : min_of l = Some m -> In x l -> m <= x.
Proof.
  destruct l as [|a l]; [discriminate|]. cbn [min_of]. intros E. injection E as <-.
  apply fold_min_lower.
Qed.

Lemma max_of_greatest (l : list Z) (m x : Z) : max_of l = Some m -> In x l -> x <= m.
Proof.
  destruct l as [|a l]; [discriminate|]. cbn [max_of]. intros E. injection E as <-.
  apply fold_max_upper.
Qed.

Lemma numbers_In (l : list value) (z : Z) : In z (numbers l) <-> In (VNum z) l.
Proof.
  unfold numbers. rewrite in_flat_map. split.
  - intros [v [Hv Hz]]. destruct v; cbn in Hz; try contradiction.
    destruct Hz as [<- | []]. exact Hv.
  - intros Hv. exists (VNum z). split; [exact Hv | left; reflexivity].
Qed.

(** The timestamps the span is taken over: the numbers strictly between
    the two bounds. *)
Lemma plausible_number (l : list value) (z : Z) :
  In (VNum z) (List.filter plausible l)
  <-> In (VNum z) l /\ MIN_TIMESTAMP < z < MAX_TIMESTAMP.
Proof.
  rewrite filter_In. cbn [plausible]. rewrite andb_true_iff, !Z.ltb_lt. tauto.
Qed.

(** C3 (diverging case): a batch of eleven listens, ten of them an hour
    apart on one day and one with [listened_at] exactly 946684800, has all
    its timestamps in the closed interval [946684800, 2147483647], passes
    the plausibility check with ten plausible timestamps out of eleven,
    and spans 662806800 seconds, more than twenty years; yet
    [validateUniversalData] fails it with the span error, because it takes
    minimum and maximum over the timestamps strictly inside the bounds.
    In general, for a non-empty batch that passes the plausibility check
    and is short enough to spread into [Math.min] and [Math.max], the
    result is the span failure exactly when the greatest minus the least
    of the timestamps strictly inside the bounds is below 2524608 seconds
    (0.08 years, about 29.22 days) and a success otherwise; between them a
    span of exactly 29 days fails and a span of 31 days passes. *)
Theorem minimum_span_check :
  (Forall (fun ts => MIN_TIMESTAMP <= ts <= MAX_TIMESTAMP) Sample.edge_timestamps
   /\ min_of Sample.edge_timestamps = Some 946684800
   /\ max_of Sample.edge_timestamps = Some 1609491600
   /\ MIN_SPAN_SECONDS <= 1609491600 - 946684800
   /\ List.length
        (List.filter plausible (List.map VNum Sample.edge_timestamps)) = 10%nat
   /\ Qltb (percentage 10 11) 90 = false
   /\ validateUniversalData Sample.edge_batch
      = Ret (SpanTooShort (Some 1609459200) (Some 1609491600)))
  /\ (forall (H : Host) (data : value) (items timestamps : list value),
        get data "listens" = Ret (VArr items) ->
        items <> [] ->
        mapM (fun l => get l "listened_at") items = Ret timestamps ->
        Qltb (percentage (List.length (List.filter plausible timestamps))
                (List.length timestamps)) 90 = false ->
        Z.of_nat (List.length (List.filter plausible timestamps)) <= max_arguments ->
        exists earliest latest : Z,
          (In (VNum earliest) timestamps /\ MIN_TIMESTAMP < earliest < MAX_TIMESTAMP)
          /\ (In (VNum latest) timestamps /\ MIN_TIMESTAMP < latest < MAX_TIMESTAMP)
          /\ (forall z : Z,
                In (VNum z) timestamps ->
                MIN_TIMESTAMP < z < MAX_TIMESTAMP ->
                earliest <= z <= latest)
          /\ validateUniversalData data
             = Ret (if latest - earliest <? MIN_SPAN_SECONDS
                    then SpanTooShort (Some earliest) (Some latest)
                    else IsValid earliest latest (List.length timestamps)
                           (List.length (List.filter plausible timestamps)))
          /\ (latest - earliest = 29 * 86400 ->
              validateUniversalData data
              = Ret (SpanTooShort (Some earliest) (Some latest)))
          /\ (latest - earliest = 31 * 86400 ->
              validateUniversalData data
              = Ret (IsValid earliest latest (List.length timestamps)
                       (List.length (List.filter plausible timestamps))))).
Proof.
  split.
  { split; [unfold Sample.edge_timestamps, MIN_TIMESTAMP, MAX_TIMESTAMP;
            repeat constructor; lia|].
    split; [reflexivity|]. split; [reflexivity|].
    split; [unfold MIN_SPAN_SECONDS; lia|].
    split; [reflexivity|]. split; [reflexivity|].
    vm_compute. reflexivity. }
  intros H data items timestamps Hl Hne Hts Hpass _.
  assert (Hlen : List.length timestamps = List.length items)
    by (eapply mapM_length; eassumption).
  assert (Hpos : (0 < List.length timestamps)%nat).
  { rewrite Hlen. destruct items; [contradiction | cbn; lia]. }
  rewrite (below_90_percent _ _ Hpos) in Hpass. apply Z.ltb_ge in Hpass.
  assert (Hvalid : numbers (List.filter plausible timestamps) <> []).
  { intros Hnil. apply (f_equal (@List.length Z)) in Hnil.
    rewrite numbers_of_plausible in Hnil. cbn in Hnil. lia. }
  destruct (min_of_nonempty _ Hvalid) as [earliest He].
  destruct (max_of_nonempty _ Hvalid) as [latest Hm].
  exists earliest, latest.
  assert (Hres : validateUniversalData data
                 = Ret (if latest - earliest <? MIN_SPAN_SECONDS
                        then SpanTooShort (Some earliest) (Some latest)
                        else IsValid earliest latest (List.length timestamps)
                               (List.length (List.filter plausible timestamps)))).
  { rewrite (validate_batch data items timestamps Hl Hne Hts).
    unfold validateTimestamps.
    rewrite (below_90_percent _ _ Hpos).
    apply Z.ltb_ge in Hpass. rewrite Hpass, He, Hm.
    rewrite span_below_threshold. reflexivity. }
  split; [apply plausible_number, numbers_In, min_of_In; exact He|].
  split; [apply plausible_number, numbers_In, max_of_In; exact Hm|].
  split.
  { intros z Hin Hz.
    assert (Hzin : In z (numbers (List.filter plausible timestamps)))
      by (apply numbers_In, plausible_number; split; assumption).
    split; [eapply min_of_least | eapply max_of_greatest]; eassumption. }
  split; [exact Hres|].
  split; intros Hspan; rewrite Hres, Hspan; reflexivity.
Qed.

Lemma minimum_span_check_witness :
  exists earliest latest : Z,
    (In (VNum earliest)
        [VNum 1609459200; VNum 1610000000; VNum (1609459200 + 31 * 86400)]
     /\ MIN_TIMESTAMP < earliest < MAX_TIMESTAMP)
    /\ (In (VNum latest)
           [VNum 1609459200; VNum 1610000000; VNum (1609459200 + 31 * 86400)]
        /\ MIN_TIMESTAMP < latest < MAX_TIMESTAMP)
    /\ (forall z : Z,
          In (VNum z) [VNum 1609459200; VNum 1610000000; VNum (1609459200 + 31 * 86400)] ->
          MIN_TIMESTAMP < z < MAX_TIMESTAMP ->
          earliest <= z <= latest)
    /\ validateUniversalData Sample.month_batch
       = Ret (if latest - earliest <? MIN_SPAN_SECONDS
              then SpanTooShort (Some earliest) (Some latest)
              else IsValid earliest latest 3 3)
    /\ (latest - earliest = 29 * 86400 ->
        validateUniversalData Sample.month_batch
        = Ret (SpanTooShort (Some earliest) (Some latest)))
    /\ (latest - earliest = 31 * 86400 ->
        validateUniversalData Sample.month_batch = Ret (IsValid earliest latest 3 3)).
Proof.
  destruct minimum_span_check as [_ Hgeneral].
  apply (Hgeneral Sample.host Sample.month_batch
           [Sample.canonical 1609459200; Sample.canonical 1610000000;
            Sample.canonical (1609459200 + 31 * 86400)]
           [VNum 1609459200; VNum 1610000000; VNum (1609459200 + 31 * 86400)]).
  - reflexivity.
  - discriminate.
  - reflexivity.
  - reflexivity.
  - vm_compute. discriminate.
Defined.

(** The two scenarios, evaluated. *)
Example span_of_31_days_passes :
  validateUniversalData Sample.month_batch = Ret (IsValid 1609459200 1612137600 3 3).
Proof. vm_compute. reflexivity. Qed.

Example span_of_29_days_fails :
  validateUniversalData Sample.short_batch
  = Ret (SpanTooShort (Some 1609459200) (Some 1611964800)).
Proof. vm_compute. reflexivity. Qed.

End ValidatorFacts.

(** ** The Spotify filter *)

Module SpotifyFacts.

Import UniversalParser.

Lemma get_field (v : value) (k : string) :
  nullish v = false -> get v k = Ret (field v k).
Proof. unfold field. destruct v; cbn; intros Hn; try discriminate; reflexivity. Qed.

Lemma get_nullish (v : value) (k : string) :
  nullish v = true -> get v k = Throw TypeError.
Proof. destruct v; cbn; intros Hn; try discriminate; reflexivity. Qed.


Lemma Forall2_strengthen {A B} (P R : A -> B -> Prop) (Q : A -> Prop)
      (l : list A) (l' : list B) :
  Forall2 P l l' -> Forall Q l ->
  (forall x y, P x y -> Q x -> R x y) ->
  Forall2 R l l'.
Proof.
  intros HP HQ Himp. induction HP as [|x y l l' Hxy _ IH]; [constructor|].
  inversion HQ; subst. constructor; auto.
Qed.

Section WithHost.
Context {H : Host}.




Lemma mapiM_Forall2 {A B} (f : A -> nat -> outcome B) (P : A -> B -> Prop) :
  (forall x i y, f x i = Ret y -> P x y) ->
  forall l i out, mapiM f i l = Ret out -> Forall2 P l out.
Proof.
  intros Hf. induction l as [|x l IH]; intros i out Hm; cbn in Hm.
  - injection Hm as <-. constructor.
  - destruct (f x i) as [y|] eqn:Ey; [|discriminate]. cbn in Hm.
    destruct (mapiM f (S i) l) as [ys|] eqn:Em; [|discriminate]. cbn in Hm.
    injection Hm as <-. constructor; eauto.
Qed.









End WithHost.



(** The sample export: two of four records are kept, the one played
    exactly 30000 ms among them, and the record without a track name is
    named after its track identifier. *)
Example spotify_export_parsed :
  exists r,
    @parseSpotifyFormat Sample.host Sample.spotify_export = Ret r
    /\ success r = true /\ count r = 2%nat /\ filtered r = Some 2%nat
    /\ List.map (fun l => field l "msPlayed") (listens r) = [VNum 30000; VNum 45000]
    /\ List.map (fun l => field l "trackName") (listens r) = [VStr "Song"; VStr "ghi"]
    /\ List.map (fun l => field l "listened_at") (listens r)
       = [VNum 1714847569; VNum 1714847569].
Proof. eexists. split; [vm_compute; reflexivity|]. repeat split. Qed.

(** The Spotify parser behind [parseImportedData] applies the same
    threshold: every listen it returns carries its record's [ms_played],
    which is at least 30000. *)
Lemma import_spotify_threshold :
  forall (H : Host) (data : value) (out : ImportParser.parsed),
    ImportParser.parseSpotifyFormat data = Ret out ->
    exists items,
      data = VArr items
      /\ Forall2 (fun item listen =>
                    field (field (field listen "track_metadata") "additional_info")
                      "ms_played" = field item "ms_played"
                    /\ ge_num (field item "ms_played") 30000 = true)
                 (List.filter ImportParser.accepted items) (ImportParser.listens out).
Proof.
  intros H data out Hp. unfold ImportParser.parseSpotifyFormat in Hp.
  destruct data as [| | | | | |items|]; try discriminate.
  exists items. split; [reflexivity|].
  destruct items as [|i0 items0]; [discriminate|].
  set (items := i0 :: items0) in *.
  destruct (filterM ImportParser.spotify_keep items) as [kept|] eqn:Ef;
    cbn [bind] in Hp; [|discriminate].
  destruct (mapiM ImportParser.spotify_listen 0 kept) as [converted|] eqn:Em;
    cbn [bind] in Hp; [|discriminate].
  injection Hp as <-. cbn [ImportParser.listens].
  assert (Hkeep : forall item,
             ImportParser.spotify_keep item
             = if nullish item then Throw TypeError
               else Ret (ImportParser.accepted item)).
  { intros item. destruct (nullish item) eqn:Hn.
    - unfold ImportParser.spotify_keep, and_then.
      rewrite (get_nullish _ _ Hn). reflexivity.
    - unfold ImportParser.spotify_keep, and_then, ImportParser.accepted.
      rewrite !(get_field _ _ Hn).
      destruct (truthy (field item "ts")) eqn:E1;
        destruct (truthy (field item "master_metadata_track_name")) eqn:E2;
        destruct (truthy (field item "master_metadata_album_artist_name")) eqn:E3;
        repeat (cbn [bind andb truthy]; rewrite ?E1, ?E2, ?E3);
        reflexivity. }
  assert (Hkept : kept = List.filter ImportParser.accepted items).
  { clear Em. clearbody items. revert kept Ef.
    induction items as [|x items IH]; intros kept Ef; cbn in Ef.
    - injection Ef as <-. reflexivity.
    - rewrite Hkeep in Ef. destruct (nullish x); [discriminate|]. cbn in Ef.
      destruct (filterM ImportParser.spotify_keep items) as [ys|]; [|discriminate].
      cbn in Ef. injection Ef as <-. rewrite (IH ys eq_refl).
      cbn. destruct (ImportParser.accepted x); reflexivity. }
  subst kept.
  assert (Hacc : Forall (fun item => ImportParser.accepted item = true)
                   (List.filter ImportParser.accepted items)).
  { apply Forall_forall. intros x Hx. apply filter_In in Hx. tauto. }
  apply (mapiM_Forall2 ImportParser.spotify_listen
           (fun item listen =>
              field (field (field listen "track_metadata") "additional_info")
                "ms_played" = field item "ms_played")) in Em.
  - eapply Forall2_strengthen; [exact Em | exact Hacc |].
    intros item listen Hm Ha. split; [exact Hm|].
    unfold ImportParser.accepted in Ha. apply andb_prop in Ha as [_ Hge].
    unfold js_or in Hge.
    destruct (truthy (field item "ms_played")); [exact Hge | discriminate].
  - intros item index listen Hs. unfold ImportParser.spotify_listen in Hs.
    destruct (nullish item) eqn:Hn.
    + rewrite (get_nullish _ "ts" Hn) in Hs. discriminate.
    + rewrite !(get_field _ _ Hn) in Hs. cbn [bind] in Hs.
      destruct (_ && _) in Hs; cbn [bind] in Hs; [discriminate|].
      injection Hs as <-. reflexivity.
Qed.

End SpotifyFacts.

(** ** Timestamp conversion *)

Module TimestampFacts.

Import ImportParser.

(** C6 (counterexample): on the sample host, the epoch-milliseconds input
    3000000000000 is converted to 3000000000 and the ISO string
    "1999-12-31T23:59:59Z" to 946684799; neither result lies in the
    canonical range [946684800, 2147483647], and neither is replaced by
    the fallback. *)
Lemma conversion_leaves_canonical_range :
  @convertSpotifyTimestamp Sample.host (VNum 3000000000000) = 3000000000
  /\ ~ (UniversalParser.MIN_TIMESTAMP <= 3000000000 <= UniversalParser.MAX_TIMESTAMP)
  /\ @convertSpotifyTimestamp Sample.host (VStr "1999-12-31T23:59:59Z") = 946684799
  /\ ~ (UniversalParser.MIN_TIMESTAMP <= 946684799 <= UniversalParser.MAX_TIMESTAMP)
  /\ @now_seconds Sample.host = 1714847569.
Proof.
  unfold UniversalParser.MIN_TIMESTAMP, UniversalParser.MAX_TIMESTAMP.
  repeat split; try reflexivity; lia.
Qed.

(** C6 (amended): [convertSpotifyTimestamp] is a total function, so it
    never throws.  It returns the fallback [Math.floor(Date.now() / 1000)]
    for a string that does not parse as a date, for a value that is
    neither a string nor a number, for NaN and for a number outside the
    three numeric windows.  An epoch-seconds number (strictly between 1e9
    and 2e9) is returned unchanged and lies in the canonical range.  A
    parsed date string, an epoch-milliseconds number (above 1e12) and a
    spreadsheet serial date (strictly between 40000 and 60000) are
    converted to seconds without any range check. *)
Theorem timestamp_normalization :
  forall (H : Host) (v : value),
    (forall s, v = VStr s -> date_parse s = None ->
               convertSpotifyTimestamp v = now_seconds)
    /\ (forall s ms, v = VStr s -> date_parse s = Some ms ->
                     convertSpotifyTimestamp v = ms / 1000)
    /\ (is_number v = false -> (forall s, v <> VStr s) ->
        convertSpotifyTimestamp v = now_seconds)
    /\ (v = VNaN -> convertSpotifyTimestamp v = now_seconds)
    /\ (forall t, v = VNum t -> 1000000000000 < t ->
                  convertSpotifyTimestamp v = t / 1000
                  /\ 1000000000 <= convertSpotifyTimestamp v)
    /\ (forall t, v = VNum t -> 1000000000 < t < 2000000000 ->
                  convertSpotifyTimestamp v = t
                  /\ UniversalParser.MIN_TIMESTAMP <= convertSpotifyTimestamp v
                     <= UniversalParser.MAX_TIMESTAMP)
    /\ (forall t, v = VNum t -> 40000 < t < 60000 ->
                  convertSpotifyTimestamp v
                  = (local_1900_ms + (t - 2) * 24 * 60 * 60 * 1000) / 1000)
    /\ (forall t, v = VNum t ->
                  t <= 40000 \/ 60000 <= t <= 1000000000
                  \/ 2000000000 <= t <= 1000000000000 ->
                  convertSpotifyTimestamp v = now_seconds).
Proof.
  intros H v. repeat split.
  - intros s -> Hp. cbn. rewrite Hp. reflexivity.
  - intros s ms -> Hp. cbn. rewrite Hp. reflexivity.
  - intros Hn Hs. destruct v; cbn in *; try reflexivity; try discriminate.
    exfalso. eapply Hs. reflexivity.
  - intros ->. reflexivity.
  - subst v. cbn.
    replace (1000000000000 <? t) with true by (symmetry; apply Z.ltb_lt; lia).
    reflexivity.
  - subst v. cbn.
    replace (1000000000000 <? t) with true by (symmetry; apply Z.ltb_lt; lia).
    apply Z.div_le_lower_bound; lia.
  - subst v. cbn.
    replace (1000000000000 <? t) with false by (symmetry; apply Z.ltb_ge; lia).
    replace (1000000000 <? t) with true by (symmetry; apply Z.ltb_lt; lia).
    replace (t <? 2000000000) with true by (symmetry; apply Z.ltb_lt; lia).
    reflexivity.
  - subst v. cbn.
    replace (1000000000000 <? t) with false by (symmetry; apply Z.ltb_ge; lia).
    replace (1000000000 <? t) with true by (symmetry; apply Z.ltb_lt; lia).
    replace (t <? 2000000000) with true by (symmetry; apply Z.ltb_lt; lia).
    cbn. unfold UniversalParser.MIN_TIMESTAMP. lia.
  - subst v. cbn.
    replace (1000000000000 <? t) with false by (symmetry; apply Z.ltb_ge; lia).
    replace (1000000000 <? t) with true by (symmetry; apply Z.ltb_lt; lia).
    replace (t <? 2000000000) with true by (symmetry; apply Z.ltb_lt; lia).
    cbn. unfold UniversalParser.MAX_TIMESTAMP. lia.
  - intros t -> Ht. cbn.
    replace (1000000000000 <? t) with false by (symmetry; apply Z.ltb_ge; lia).
    replace (1000000000 <? t) with false by (symmetry; apply Z.ltb_ge; lia).
    replace (40000 <? t) with true by (symmetry; apply Z.ltb_lt; lia).
    replace (t <? 60000) with true by (symmetry; apply Z.ltb_lt; lia).
    replace (60 <? t) with true by (symmetry; apply Z.ltb_lt; lia).
    reflexivity.
  - intros t -> Ht. cbn.
    destruct Ht as [Ht | [Ht | Ht]].
    + replace (1000000000000 <? t) with false by (symmetry; apply Z.ltb_ge; lia).
      replace (1000000000 <? t) with false by (symmetry; apply Z.ltb_ge; lia).
      replace (40000 <? t) with false by (symmetry; apply Z.ltb_ge; lia).
      reflexivity.
    + replace (1000000000000 <? t) with false by (symmetry; apply Z.ltb_ge; lia).
      replace (1000000000 <? t) with false by (symmetry; apply Z.ltb_ge; lia).
      replace (t <? 60000) with false by (symmetry; apply Z.ltb_ge; lia).
      rewrite andb_false_r. reflexivity.
    + replace (1000000000000 <? t) with false by (symmetry; apply Z.ltb_ge; lia).
      replace (t <? 2000000000) with false by (symmetry; apply Z.ltb_ge; lia).
      replace (t <? 60000) with false by (symmetry; apply Z.ltb_ge; lia).
      rewrite !andb_false_r. reflexivity.
Qed.

End TimestampFacts.

(** ** Validation of a computed fingerprint *)

Module FingerprintValidationFacts.

Import ListeningStats.

Section WithHost.
Context {H : Host}.

(** [Number(x) || 50] is always a non-zero number. *)
Lemma number_or_50_nonzero (x : value) :
  exists z, number_or_50 x = VNum z /\ z <> 0.
Proof.
  unfold number_or_50, js_or.
  destruct (to_number x) as [z|]; cbn.
  - destruct (z =? 0) eqn:E; cbn.
    + exists 50. split; [reflexivity | lia].
    + exists z. split; [reflexivity | apply Z.eqb_neq; exact E].
  - exists 50. split; [reflexivity | lia].
Qed.

Lemma number_or_50_zero : number_or_50 (VNum 0) = VNum 50.
Proof. reflexivity. Qed.

(** On an object the validation never answers [null]: it returns the
    five coerced axes. *)
Lemma validate_object (fs : list (string * value)) :
  validateFingerprintData (VObj fs)
  = VObj (List.map (fun axis => (axis, number_or_50 (lookup axis fs))) axes).
Proof.
  unfold validateFingerprintData. cbn [truthy typeof negb orb String.eqb].
  change (String.eqb "object" "object") with true. cbn [negb orb].
  unfold axes. cbn [List.map get_opt get snd existsb].
  destruct (number_or_50_nonzero (lookup "consistency" fs)) as [z1 [-> _]].
  destruct (number_or_50_nonzero (lookup "discovery" fs)) as [z2 [-> _]].
  destruct (number_or_50_nonzero (lookup "variety" fs)) as [z3 [-> _]].
  destruct (number_or_50_nonzero (lookup "replayRate" fs)) as [z4 [-> _]].
  destruct (number_or_50_nonzero (lookup "exploration" fs)) as [z5 [-> _]].
  reflexivity.
Qed.

End WithHost.

(** C10: when an axis of a fingerprint object holds the number 0,
    [validateFingerprintData] returns an object in which that axis
    is 50; and no axis of a validated fingerprint is ever 0. *)
Theorem zero_score_becomes_50 :
  forall (H : Host) (fs : list (string * value)) (axis : string),
    In axis axes ->
    lookup axis fs = VNum 0 ->
    exists validated,
      validateFingerprintData (VObj fs) = VObj validated
      /\ lookup axis validated = VNum 50
      /\ (forall a, In a axes -> lookup a validated <> VNum 0).
Proof.
  intros H fs axis Hin Hzero.
  eexists. split; [apply validate_object|]. split.
  - unfold axes in *. cbn [List.map].
    repeat (destruct Hin as [<- | Hin];
            [cbn; rewrite Hzero; apply number_or_50_zero|]).
    destruct Hin.
  - intros a Ha. unfold axes in *. cbn [List.map].
    repeat (destruct Ha as [<- | Ha];
            [cbn; match goal with
                  | |- number_or_50 ?x <> _ =>
                      destruct (number_or_50_nonzero x) as [z [-> Hz]]
                  end; intros E; injection E; exact Hz|]).
    destruct Ha.
Qed.

Lemma zero_score_becomes_50_witness :
  exists validated,
    @validateFingerprintData Sample.host (VObj Sample.flat_fingerprint) = VObj validated
    /\ lookup "discovery" validated = VNum 50
    /\ (forall a, In a axes -> lookup a validated <> VNum 0).
Proof.
  apply (zero_score_becomes_50 Sample.host Sample.flat_fingerprint "discovery").
  - right. left. reflexivity.
  - reflexivity.
Defined.

End FingerprintValidationFacts.

(** ** The scroll-back loop *)

Module PaginationFacts.

Import ListenBrainzApi.

Section WithServer.
Context {H : Host}.
Variable request : nat -> string -> outcome value.
Variable aborted : nat -> bool.
Variable username : string.
Variable maxListens : option nat.

Local Abbreviation fetch := (fetchUserListens request username).
Local Abbreviation step := (step request aborted username maxListens).
Local Abbreviation run := (run request aborted username maxListens).

(** A failed fetch carries no listens. *)
Lemma failed_fetch_is_empty (call count : nat) (maxTs : value) :
  success (fetch call count maxTs) = false -> listens (fetch call count maxTs) = [].
Proof.
  unfold fetchUserListens.
  match goal with |- context [match ?c with _ => _ end] => destruct c as [r|m] eqn:E end.
  - intros Hs. exfalso. revert E Hs.
    destruct (request call _) as [resp|]; cbn [bind]; [|discriminate].
    destruct (get resp "payload") as [payload|]; cbn [bind]; [|discriminate].
    destruct (truthy payload); cbn [negb]; [|discriminate].
    destruct (get payload "listens") as [ls|]; cbn [bind]; [|discriminate].
    destruct (truthy ls); cbn [negb]; [|discriminate].
    destruct ls; try discriminate.
    destruct (get payload "count"); cbn [bind]; [|discriminate].
    intros E. injection E as <-. cbn. discriminate.
  - reflexivity.
Qed.

(** The four ways one iteration can go. *)
Lemma step_cases (s : state) :
  let r := fetch (batchCount s) batchSize (maxTs s) in
  let oldest := get_opt (last (listens r) VUndefined) "listened_at" in
  let all := allListens s ++ listens r in
  step s =
    if aborted (batchCount s) then Abort
    else if negb (success r) then Return r
    else if (match listens r with [] => false | _ => true end)
            && truthy oldest
            && negb (List.length (listens r) <? batchSize)%nat
            && negb (cap_reached maxListens (List.length all))
         then Continue {| allListens := all; maxTs := minus_one oldest;
                          batchCount := S (batchCount s) |}
         else Return {| success := true; listens := all;
                        count := Z.of_nat (List.length all); error := None |}.
Proof.
  cbv zeta. unfold ListenBrainzApi.step.
  destruct (aborted (batchCount s)); [reflexivity|].
  destruct (success (fetch (batchCount s) batchSize (maxTs s))); cbn [negb]; [|reflexivity].
  destruct (listens (fetch (batchCount s) batchSize (maxTs s))) as [|x l] eqn:El.
  - rewrite app_nil_r. cbn [andb].
    destruct (cap_reached maxListens (List.length (allListens s))); reflexivity.
  - set (pg := x :: l) in *.
    destruct (truthy (get_opt (last pg VUndefined) "listened_at"));
      destruct (List.length pg <? batchSize)%nat;
      destruct (cap_reached maxListens (List.length (allListens s ++ pg)));
      reflexivity.
Qed.

(** Once some request is answered with fewer listens than asked for (or
    fails), the loop has returned by then. *)
Lemma run_returns (k : nat) :
  forall s : state,
    (forall cursor,
        let r := fetch (batchCount s + k) batchSize cursor in
        success r = true -> (List.length (listens r) < batchSize)%nat) ->
    exists out, run (S k) s = Some out.
Proof.
  induction k as [|k IH]; intros s Hshort.
  - cbn [ListenBrainzApi.run]. rewrite step_cases. cbv zeta.
    destruct (aborted (batchCount s)); [eexists; reflexivity|].
    destruct (success (fetch (batchCount s) batchSize (maxTs s))) eqn:Es;
      cbn [negb]; [|eexists; reflexivity].
    specialize (Hshort (maxTs s)). cbv zeta in Hshort.
    rewrite Nat.add_0_r in Hshort. specialize (Hshort Es).
    apply Nat.ltb_lt in Hshort. rewrite Hshort. cbn [negb].
    rewrite !andb_false_r. cbn [andb]. eexists. reflexivity.
  - change (run (S (S k)) s) with
      (match step s with
       | Continue s' => run (S k) s'
       | Return r => Some (Ret r)
       | Abort => Some (Throw "AbortError")
       end).
    destruct (step s) as [s'| |] eqn:Est; try (eexists; reflexivity).
    apply IH. intros cursor.
    assert (Hb : batchCount s' = S (batchCount s)).
    { rewrite step_cases in Est. cbv zeta in Est.
      destruct (aborted _); [discriminate|].
      destruct (negb _); [discriminate|].
      destruct (_ && _ && _ && _); [|discriminate].
      injection Est as <-. reflexivity. }
    rewrite Hb. replace (S (batchCount s) + k)%nat with (batchCount s + S k)%nat by lia.
    apply Hshort.
Qed.

End WithServer.

(** C7 (counterexample): a first page of exactly 1000 listens whose last
    listen has no [listened_at] ends the loop although the page is neither
    empty nor shorter than the page size and no record cap is set; and a
    request that fails ends the loop with the failed result. *)
Lemma loop_ends_on_full_page :
  (exists r,
      @step Sample.host Sample.untimed_server Sample.never_aborted "user" None initial
      = Return r
      /\ success r = true
      /\ List.length (listens r) = batchSize)
  /\ @step Sample.host Sample.failing_server Sample.never_aborted "user" None initial
     = Return {| success := false; listens := []; count := 0;
                 error := Some "Failed to fetch" |}.
Proof.
  split.
  - eexists. split; [vm_compute; reflexivity|]. split; vm_compute; reflexivity.
  - vm_compute. reflexivity.
Qed.

(** C7 (amended): in one iteration of the scroll-back loop, an aborted
    signal raises the abort error and a failed page is returned as the
    result.  After a successful page the loop goes on exactly when the
    page is not empty, holds at least the requested number of listens,
    its last listen has a usable [listened_at] and the record cap is not
    reached; it then requests the next page with the cursor set to that
    last timestamp minus one.  In every other case it returns all listens
    fetched so far. *)
Theorem scrollback_step :
  forall (H : Host) (request : nat -> string -> outcome value)
         (aborted : nat -> bool) (username : string) (maxListens : option nat)
         (s : state),
    let r := fetchUserListens request username (batchCount s) batchSize (maxTs s) in
    let oldest := get_opt (last (listens r) VUndefined) "listened_at" in
    let all := allListens s ++ listens r in
    let stop := Return {| success := true; listens := all;
                          count := Z.of_nat (List.length all); error := None |} in
    (aborted (batchCount s) = true ->
     step request aborted username maxListens s = Abort)
    /\ (aborted (batchCount s) = false -> success r = false ->
        step request aborted username maxListens s = Return r)
    /\ (aborted (batchCount s) = false -> success r = true ->
        (listens r = []
         \/ (List.length (listens r) < batchSize)%nat
         \/ truthy oldest = false
         \/ cap_reached maxListens (List.length all) = true) ->
        step request aborted username maxListens s = stop)
    /\ (aborted (batchCount s) = false -> success r = true ->
        listens r <> [] ->
        (batchSize <= List.length (listens r))%nat ->
        truthy oldest = true ->
        cap_reached maxListens (List.length all) = false ->
        step request aborted username maxListens s
        = Continue {| allListens := all; maxTs := minus_one oldest;
                      batchCount := S (batchCount s) |}
        /\ forall t, oldest = VNum t -> minus_one oldest = VNum (t - 1)).
Proof.
  intros H request aborted username maxListens s r oldest all stop.
  pose proof (step_cases request aborted username maxListens s) as Hstep.
  cbv zeta in Hstep. fold r in Hstep. fold oldest in Hstep. fold all in Hstep.
  repeat split.
  - intros Ha. rewrite Hstep, Ha. reflexivity.
  - intros Ha Hs. rewrite Hstep, Ha, Hs. reflexivity.
  - intros Ha Hs Hstop. rewrite Hstep, Ha, Hs. cbn [negb].
    destruct Hstop as [He | [Hl | [Ht | Hc]]].
    + rewrite He. reflexivity.
    + apply Nat.ltb_lt in Hl. rewrite Hl. cbn [negb].
      rewrite !andb_false_r. reflexivity.
    + rewrite Ht. rewrite !andb_false_r. reflexivity.
    + rewrite Hc. cbn [negb]. rewrite !andb_false_r. reflexivity.
  - rewrite Hstep.
    match goal with Ha : aborted _ = false |- _ => rewrite Ha end.
    match goal with Hs : success r = true |- _ => rewrite Hs end.
    match goal with Ht : truthy oldest = true |- _ => rewrite Ht end.
    match goal with Hc : cap_reached _ _ = false |- _ => rewrite Hc end.
    match goal with Hl : (batchSize <= _)%nat |- _ =>
      apply Nat.ltb_ge in Hl; rewrite Hl end.
    destruct (listens r); [contradiction | reflexivity].
  - intros t Ht. rewrite Ht. reflexivity.
Qed.

(** The sample server: two requests, the second with the cursor one below
    the oldest timestamp of the first page, and 1400 listens in all. *)
Example scrollback_of_sample_server :
  List.map maxTs
    (@trace Sample.host Sample.server Sample.never_aborted "user" None 5 initial)
  = [VNull; VNum 1700002000]
  /\ exists r,
       @fetchAllUserListens Sample.host Sample.server Sample.never_aborted "user" None 5
       = Some (Ret r)
       /\ success r = true /\ count r = 1400.
Proof.
  split; [vm_compute; reflexivity|].
  eexists. split; [vm_compute; reflexivity|]. split; reflexivity.
Qed.

End PaginationFacts.

(** ** The multi-file import *)

Module DataParserFacts.

Import DataParser.

Section WithCollaborators.
Context {H : Host} {C : Collaborators}.


















End WithCollaborators.



(** The date range can fail a run that every earlier stage let pass: on
    a broken entry of the merged corpus, and on a merged corpus longer
    than the engine can spread. *)
Example date_range_fails_the_run :
  @parseFiles Sample.host Sample.corrupt_store [Sample.good_file] Auto
  = RunFailed (Exception TypeError)
  /\ @parseFiles Sample.narrow_host Sample.full_store [Sample.good_file] Auto
     = RunFailed (Exception "RangeError")
  /\ exists s,
       @parseFiles Sample.host Sample.full_store [Sample.good_file] Auto = RunOk s
       /\ run_count s = 3%nat.
Proof.
  split; [vm_compute; reflexivity|]. split; [vm_compute; reflexivity|].
  eexists. split; [vm_compute; reflexivity | reflexivity].
Qed.

(** A run over a broken file and a good file succeeds with the good
    file's two listens. *)
Example broken_file_is_skipped :
  exists s,
    @parseFiles Sample.host Sample.collaborators
      [Sample.broken_file; Sample.good_file] Auto = RunOk s
    /\ run_count s = 2%nat
    /\ dateRange s = (Some 1609459200000, Some 1612137600000).
Proof. eexists. split; [vm_compute; reflexivity|]. split; reflexivity. Qed.

End DataParserFacts.

(** ** The genre counter *)

Module GenreCountFacts.

Import ListeningStats Derived.

Lemma count_genre_well_counted (g : string) (counts : list (string * counter)) :
  well_counted counts -> well_counted (count_genre g counts).
Proof.
  unfold well_counted. induction 1 as [|[k c] counts Hk Hrest IH].
  - cbn [count_genre]. destruct (String.eqb g "__proto__"); [constructor|].
    destruct (inherited_method g) eqn:Eg; (constructor; [|constructor]);
      cbn [fst snd]; [exact Eg | split; [exact Eg | lia]].
  - cbn [count_genre]. destruct (String.eqb g k).
    + constructor; [|assumption]. cbn [fst snd] in *.
      destruct c as [n|]; [|exact Hk]. destruct Hk as [Hm Hn]. split; [exact Hm | lia].
    + constructor; assumption.
Qed.

Lemma genre_loop_well_counted (listens : list Listen) (counts : list (string * counter)) :
  well_counted counts ->
  well_counted
    (fold_left count_listen_genre listens counts).
Proof.
  revert counts. induction listens as [|l listens IH]; intros counts Hk; [exact Hk|].
  cbn [fold_left]. apply IH. unfold count_listen_genre.
  destruct (String.eqb (genre_of l) "Unknown");
    [exact Hk | apply count_genre_well_counted; exact Hk].
Qed.

Lemma genreCounts_well_counted (listens : list Listen) :
  well_counted (genreCounts listens).
Proof. apply genre_loop_well_counted. constructor. Qed.

(** One more listen leaves every count a number exactly when its genre
    is not the name of an inherited method. *)
Lemma all_counted_step (g : string) (counts : list (string * counter)) :
  well_counted counts ->
  all_counted (count_genre g counts)
  = all_counted counts && negb (inherited_method g).
Proof.
  unfold well_counted. induction 1 as [|[k c] counts Hk _ IH].
  - cbn [count_genre all_counted forallb andb].
    destruct (String.eqb g "__proto__") eqn:Ep.
    + apply String.eqb_eq in Ep. subst g. reflexivity.
    + destruct (inherited_method g); reflexivity.
  - cbn [count_genre]. destruct (String.eqb g k) eqn:Egk.
    + apply String.eqb_eq in Egk. subst k. cbn [fst snd] in Hk.
      unfold all_counted. cbn [forallb snd].
      destruct c as [n|].
      * destruct Hk as [-> _]. cbn [negb]. rewrite andb_true_r. reflexivity.
      * reflexivity.
    + unfold all_counted in *. cbn [forallb snd]. rewrite IH.
      rewrite andb_assoc. reflexivity.
Qed.

Lemma all_counted_loop (listens : list Listen) (counts : list (string * counter)) :
  well_counted counts ->
  all_counted
    (fold_left count_listen_genre listens counts)
  = all_counted counts
    && forallb (fun l => negb (inherited_method (genre_of l))) listens.
Proof.
  revert counts. induction listens as [|l listens IH]; intros counts Hk.
  - cbn. rewrite andb_true_r. reflexivity.
  - cbn [fold_left forallb]. unfold count_listen_genre at 2.
    destruct (String.eqb (genre_of l) "Unknown") eqn:Eu.
    + apply String.eqb_eq in Eu. rewrite Eu. rewrite IH by exact Hk. reflexivity.
    + rewrite IH by (apply count_genre_well_counted; exact Hk).
      rewrite all_counted_step by exact Hk. rewrite andb_assoc. reflexivity.
Qed.

Lemma plain_genres_forallb (listens : list Listen) :
  plain_genres listens
  <-> forallb (fun l => negb (inherited_method (genre_of l))) listens = true.
Proof.
  unfold plain_genres. rewrite forallb_forall, Forall_forall.
  split; intros Hall l Hin; specialize (Hall l Hin);
    destruct (inherited_method (genre_of l)); cbn in *; congruence.
Qed.

(** Every count is a number exactly on a corpus of plain genres. *)
Lemma all_counted_plain (listens : list Listen) :
  all_counted (genreCounts listens) = true <-> plain_genres listens.
Proof.
  unfold genreCounts. rewrite all_counted_loop by constructor.
  cbn [all_counted forallb andb]. symmetry. apply plain_genres_forallb.
Qed.

(** Variety is NaN on an empty corpus and where a count is a text, and
    a number everywhere else. *)
Lemma variety_is_number (listens : list Listen) :
  listens <> [] -> plain_genres listens ->
  exists z, calculateVariety listens = VNum z.
Proof.
  intros Hne Hplain. apply all_counted_plain in Hplain.
  unfold calculateVariety. destruct listens as [|l listens]; [contradiction|].
  revert Hplain. destruct (genreCounts (l :: listens)) as [|entry counts]; intros Hplain.
  - cbn [List.length]. eexists. reflexivity.
  - rewrite Hplain. eexists. reflexivity.
Qed.

Lemma variety_is_nan (listens : list Listen) :
  ~ plain_genres listens -> calculateVariety listens = VNaN.
Proof.
  intros Hodd. rewrite <- all_counted_plain in Hodd.
  unfold calculateVariety.
  revert Hodd. destruct (genreCounts listens) as [|entry counts]; intros Hodd.
  - destruct Hodd. reflexivity.
  - destruct (all_counted (entry :: counts)); [destruct Hodd; reflexivity|].
    reflexivity.
Qed.

(** The numbers among the counts add up to no more than the listens
    counted. *)
Lemma counted_cons (entry : string * counter) (counts : list (string * counter)) :
  counted (entry :: counts)
  = match snd entry with Count n => [n] | Text => [] end ++ counted counts.
Proof. reflexivity. Qed.

Lemma counted_step (g : string) (counts : list (string * counter)) :
  (list_sum (counted (count_genre g counts)) <= S (list_sum (counted counts)))%nat.
Proof.
  induction counts as [|[k c] counts IH].
  - cbn [count_genre]. destruct (String.eqb g "__proto__");
      [|destruct (inherited_method g)];
      unfold counted; cbn [flat_map snd app list_sum fold_right]; lia.
  - cbn [count_genre]. destruct (String.eqb g k).
    + rewrite !counted_cons, !list_sum_app. cbn [snd].
      destruct c; cbn [list_sum fold_right]; lia.
    + rewrite !counted_cons, !list_sum_app. cbn [snd].
      destruct c; cbn [list_sum fold_right]; lia.
Qed.

Lemma counted_loop (listens : list Listen) (counts : list (string * counter)) :
  (list_sum
     (counted
        (fold_left count_listen_genre listens counts))
   <= list_sum (counted counts) + List.length listens)%nat.
Proof.
  revert counts. induction listens as [|l listens IH]; intros counts.
  - cbn [fold_left List.length]. lia.
  - cbn [fold_left List.length]. unfold count_listen_genre at 2.
    destruct (String.eqb (genre_of l) "Unknown").
    + specialize (IH counts). lia.
    + specialize (IH (count_genre (genre_of l) counts)).
      pose proof (counted_step (genre_of l) counts). lia.
Qed.

Lemma list_sum_bounds (l : list nat) (c : nat) : In c l -> (c <= list_sum l)%nat.
Proof.
  induction l as [|x l IH]; [contradiction|].
  change (list_sum (x :: l)) with (x + list_sum l)%nat.
  intros [->|Hin]; [lia | specialize (IH Hin); lia].
Qed.

Lemma counted_positive (counts : list (string * counter)) :
  well_counted counts -> Forall (fun c => (1 <= c)%nat) (counted counts).
Proof.
  unfold well_counted, counted. induction 1 as [|[k c] counts Hk _ IH]; cbn.
  - constructor.
  - destruct c as [n|]; cbn; [constructor; [apply Hk | exact IH] | exact IH].
Qed.

(** Each numeric count lies between one and the number of listens. *)
Lemma genre_counts_bounded (listens : list Listen) :
  Forall (fun c => (1 <= c <= List.length listens)%nat) (counted (genreCounts listens)).
Proof.
  pose proof (counted_positive _ (genreCounts_well_counted listens)) as Hpos.
  pose proof (counted_loop listens []) as Hsum. cbn in Hsum.
  fold (genreCounts listens) in Hsum.
  rewrite Forall_forall in *. intros c Hin. split; [apply Hpos; exact Hin|].
  pose proof (list_sum_bounds _ _ Hin). lia.
Qed.

End GenreCountFacts.

(** ** The five scores *)

Module ScoreFacts.

Import ListeningStats Derived.











Lemma other_scores_are_numbers (listens : list Listen) :
  listens <> [] ->
  (exists z, calculateDiscovery listens = VNum z)
  /\ (exists z, calculateReplayRate listens = VNum z)
  /\ (exists z, calculateExploration listens = VNum z).
Proof.
  intros Hne. destruct listens as [|l listens]; [contradiction|].
  repeat split.
  - unfold calculateDiscovery. cbn [List.length]. eexists. reflexivity.
  - unfold calculateReplayRate.
    destruct (List.length (trackCounts (l :: listens))); eexists; reflexivity.
  - unfold calculateExploration.
    destruct (switches (sorted_by_time (l :: listens))) as [sw [|n]];
      eexists; reflexivity.
Qed.






(** On two listens filed under the genre ['constructor'] the count is a
    text and Variety is NaN; the validation that follows the computation
    turns it into 50. *)
Example variety_of_inherited_genre :
  genreCounts Sample.inherited_genre = [("constructor", Text)]
  /\ calculateVariety Sample.inherited_genre = VNaN.
Proof. split; reflexivity. Qed.

(** Called on an empty list, Discovery and Variety divide zero by zero;
    the neutral fingerprint of an empty corpus comes from the guard of
    [calculateListeningFingerprint] alone. *)
Remark discovery_and_variety_of_nothing :
  calculateDiscovery [] = VNaN /\ calculateVariety [] = VNaN.
Proof. split; reflexivity. Qed.

End ScoreFacts.

(** ** Variety and genre entropy *)

Module VarietyFacts.

Import ListeningStats Derived.

Local Open Scope R_scope.

Lemma ln2_pos : 0 < ln 2.
Proof. rewrite <- ln_1. apply ln_increasing; lra. Qed.

Lemma log2_1 : log2 1 = 0.
Proof. unfold log2. rewrite ln_1. field. pose proof ln2_pos. lra. Qed.

Lemma log2_pow2 (k : nat) : log2 (2 ^ k) = INR k.
Proof. unfold log2. rewrite ln_pow by lra. field. pose proof ln2_pos. lra. Qed.

Lemma log2_inv (x : R) : 0 < x -> log2 (/ x) = - log2 x.
Proof.
  intros Hx. unfold log2. rewrite ln_Rinv by exact Hx.
  field. pose proof ln2_pos. lra.
Qed.

Lemma log2_pos (x : R) : 1 < x -> 0 < log2 x.
Proof.
  intros Hx. unfold log2. apply Rdiv_lt_0_compat; [|apply ln2_pos].
  rewrite <- ln_1. apply ln_increasing; lra.
Qed.

Lemma round_R_integer (z : Z) : round_R (IZR z) = z.
Proof. unfold round_R. apply Zfloor_eq. lra. Qed.

Lemma round_R_le (x y : R) : x <= y -> (round_R x <= round_R y)%Z.
Proof. intros Hxy. unfold round_R. apply Zfloor_le. lra. Qed.

Lemma round_R_shift (x : R) (z : Z) : round_R (x + IZR z) = (round_R x + z)%Z.
Proof.
  unfold round_R. rewrite <- Zfloor_addz. f_equal. lra.
Qed.

Lemma round_R_bounds (x : R) (lo hi : Z) :
  IZR lo <= x <= IZR hi -> (lo <= round_R x <= hi)%Z.
Proof.
  intros [Hlo Hhi]. split.
  - rewrite <- (round_R_integer lo). apply round_R_le. exact Hlo.
  - rewrite <- (round_R_integer hi). apply round_R_le. exact Hhi.
Qed.

Lemma weightedScore_split (listens : list Listen) :
  weightedScore listens = normalizedEntropy listens * 40 + diversityTerms listens.
Proof. unfold weightedScore, diversityTerms. lra. Qed.

Lemma ratio_nonneg (a b : nat) : (0 < b)%nat -> 0 <= INR a / INR b * 100.
Proof.
  intros Hb. apply Rmult_le_pos; [|lra].
  apply Rmult_le_pos; [apply pos_INR|].
  left. apply Rinv_0_lt_compat. apply lt_0_INR. exact Hb.
Qed.

Lemma diversityTerms_bounds (listens : list Listen) :
  listens <> [] -> 0 <= diversityTerms listens <= 60.
Proof.
  intros Hne.
  assert (Hlen : (0 < List.length listens)%nat)
    by (destruct listens; [contradiction | cbn; lia]).
  pose proof (ratio_nonneg (uniqueArtists listens) _ Hlen) as Ha.
  pose proof (ratio_nonneg (uniqueTracks listens) _ Hlen) as Ht.
  unfold diversityTerms, artistDiversity, trackDiversity.
  set (a := INR (uniqueArtists listens) / INR (List.length listens) * 100) in *.
  set (t := INR (uniqueTracks listens) / INR (List.length listens) * 100) in *.
  pose proof (Rmin_r (a * 5) 100). pose proof (Rmin_r (t * 3) 100).
  assert (0 <= Rmin (a * 5) 100) by (apply Rmin_glb; lra).
  assert (0 <= Rmin (t * 3) 100) by (apply Rmin_glb; lra).
  lra.
Qed.

Lemma diversityTerms_same (A B : list Listen) :
  List.length A = List.length B ->
  uniqueArtists A = uniqueArtists B ->
  uniqueTracks A = uniqueTracks B ->
  diversityTerms A = diversityTerms B.
Proof.
  intros Hl Ha Ht. unfold diversityTerms, artistDiversity, trackDiversity.
  rewrite Hl, Ha, Ht. reflexivity.
Qed.

Lemma variety_weighted (listens : list Listen) :
  genreCounts listens <> [] ->
  all_counted (genreCounts listens) = true ->
  calculateVariety listens
  = VNum (Z.min (Z.max (round_R (weightedScore listens)) 0) 100).
Proof.
  intros Hg Hall. unfold calculateVariety. revert Hg Hall.
  destruct (genreCounts listens); [contradiction|].
  intros _ ->. reflexivity.
Qed.

(** The numeric counts and the test for a text depend on the values the
    object holds, not on its keys. *)
Lemma counted_values (counts : list (string * counter)) :
  counted counts
  = flat_map (fun c => match c with Count n => [n] | Text => [] end)
             (List.map snd counts).
Proof.
  unfold counted. induction counts as [|entry counts IH]; [reflexivity|].
  cbn [flat_map List.map]. rewrite IH. reflexivity.
Qed.

Lemma all_counted_values (counts : list (string * counter)) :
  all_counted counts
  = forallb (fun c => match c with Count _ => true | Text => false end)
            (List.map snd counts).
Proof.
  unfold all_counted. induction counts as [|entry counts IH]; [reflexivity|].
  cbn [forallb List.map]. rewrite IH. reflexivity.
Qed.

Lemma log2_nonpos (x : R) : 0 < x <= 1 -> log2 x <= 0.
Proof.
  intros [Hpos Hle]. unfold log2.
  assert (ln x <= 0).
  { destruct Hle as [Hlt| ->]; [|rewrite ln_1; lra].
    rewrite <- ln_1. left. apply ln_increasing; lra. }
  pose proof ln2_pos.
  apply Rmult_le_reg_r with (ln 2); [lra|].
  unfold Rdiv. rewrite Rmult_assoc, Rinv_l by lra. lra.
Qed.

(** Each step of the entropy loop adds a non-negative term. *)
Lemma entropy_loop_grows (counts : list nat) (totalListens : nat) (e : R) :
  Forall (fun c => (1 <= c <= totalListens)%nat) counts ->
  e <= fold_left (fun e c => let p := INR c / INR totalListens in e - p * log2 p)
                 counts e.
Proof.
  intros Hall. revert e. induction Hall as [|c counts [Hc Hn] _ IH]; intros e.
  - cbn. lra.
  - cbn [fold_left]. eapply Rle_trans; [|apply IH].
    assert (Hcp : 0 < INR c) by (apply lt_0_INR; lia).
    assert (Hnp : 0 < INR totalListens) by (apply lt_0_INR; lia).
    assert (Hcn : INR c <= INR totalListens) by (apply le_INR; exact Hn).
    assert (Hp : 0 < INR c / INR totalListens <= 1).
    { split; [apply Rdiv_lt_0_compat; assumption|].
      apply Rmult_le_reg_r with (INR totalListens); [exact Hnp|].
      unfold Rdiv. rewrite Rmult_assoc, Rinv_l by lra. lra. }
    pose proof (log2_nonpos _ Hp) as Hlog.
    cbv zeta.
    assert (INR c / INR totalListens * log2 (INR c / INR totalListens) <= 0).
    { rewrite <- (Rmult_0_r (INR c / INR totalListens)).
      apply Rmult_le_compat_l; [lra | exact Hlog]. }
    lra.
Qed.

Lemma maxEntropy_pos (uniqueGenres : nat) : 0 < maxEntropy uniqueGenres.
Proof.
  unfold maxEntropy. destruct (1 <? uniqueGenres)%nat eqn:E; [|lra].
  apply Nat.ltb_lt in E. apply log2_pos.
  apply (lt_INR 1 uniqueGenres) in E. exact E.
Qed.

(** The normalized entropy is never negative. *)
Lemma normalized_nonneg (listens : list Listen) : 0 <= normalizedEntropy listens.
Proof.
  unfold normalizedEntropy, entropy.
  pose proof (entropy_loop_grows _ _ 0 (GenreCountFacts.genre_counts_bounded listens)).
  pose proof (maxEntropy_pos (List.length (genreCounts listens))) as Hm.
  apply Rmult_le_pos; [assumption|]. left. apply Rinv_0_lt_compat. exact Hm.
Qed.

Lemma genres_nonempty (listens : list Listen) :
  genreCounts listens <> [] -> listens <> [].
Proof. intros Hg ->. apply Hg. reflexivity. Qed.

(** Entropy of a single bucket holding every listen, and of five equal
    buckets. *)
Lemma entropy_single (n : nat) : (0 < n)%nat -> entropy [n] n = 0.
Proof.
  intros Hn. unfold entropy. cbn [fold_left].
  assert (0 < INR n) by (apply lt_0_INR; exact Hn).
  replace (INR n / INR n) with 1 by (field; lra).
  rewrite log2_1. lra.
Qed.

Lemma entropy_five (k : nat) :
  (0 < k)%nat -> entropy [k; k; k; k; k] (5 * k) = log2 5.
Proof.
  intros Hk. unfold entropy. cbn [fold_left].
  assert (0 < INR k) by (apply lt_0_INR; exact Hk).
  rewrite mult_INR. change (INR 5) with (1 + 1 + 1 + 1 + 1).
  replace (INR k / ((1 + 1 + 1 + 1 + 1) * INR k)) with (/ 5) by (field; lra).
  rewrite log2_inv by lra. lra.
Qed.


Lemma normalized_single (listens : list Listen) :
  listens <> [] ->
  List.map snd (genreCounts listens) = [Count (List.length listens)] ->
  normalizedEntropy listens = 0.
Proof.
  intros Hne Hg. unfold normalizedEntropy.
  rewrite counted_values, Hg. rewrite <- (length_map snd), Hg.
  cbn [flat_map app].
  rewrite entropy_single by (destruct listens; [contradiction | cbn; lia]).
  cbn [List.length Nat.ltb Nat.leb maxEntropy]. lra.
Qed.

Lemma normalized_five (listens : list Listen) (k : nat) :
  (0 < k)%nat ->
  List.length listens = (5 * k)%nat ->
  List.map snd (genreCounts listens) = [Count k; Count k; Count k; Count k; Count k] ->
  normalizedEntropy listens = 1.
Proof.
  intros Hk Hl Hg. unfold normalizedEntropy.
  rewrite counted_values, Hg. rewrite <- (length_map snd), Hg, Hl.
  cbn [flat_map app].
  rewrite entropy_five by exact Hk.
  cbn [List.length]. unfold maxEntropy.
  change (1 <? 5)%nat with true. cbv iota.
  change (INR 5) with (1 + 1 + 1 + 1 + 1).
  replace (1 + 1 + 1 + 1 + 1) with 5 by lra.
  pose proof (log2_pos 5 ltac:(lra)). field. lra.
Qed.

Lemma counts_nonempty (listens : list Listen) (c : counter) (cs : list counter) :
  List.map snd (genreCounts listens) = c :: cs -> genreCounts listens <> [].
Proof. intros Hm Hnil. rewrite Hnil in Hm. discriminate. Qed.

(** In exact arithmetic, between corpora of the same size with the same
    numbers of distinct artists and tracks and numeric genre counts, the
    score follows the normalized entropy. *)
Remark variety_follows_normalized_entropy (A B : list Listen) :
  List.length A = List.length B ->
  uniqueArtists A = uniqueArtists B ->
  uniqueTracks A = uniqueTracks B ->
  genreCounts A <> [] -> all_counted (genreCounts A) = true ->
  genreCounts B <> [] -> all_counted (genreCounts B) = true ->
  normalizedEntropy A <= normalizedEntropy B ->
  exists a b : Z,
    calculateVariety A = VNum a /\ calculateVariety B = VNum b /\ (a <= b)%Z.
Proof.
  intros Hl Ha Ht HgA HcA HgB HcB Hle.
  rewrite (variety_weighted A HgA HcA), (variety_weighted B HgB HcB).
  do 2 eexists. split; [reflexivity|]. split; [reflexivity|].
  assert (Hr : (round_R (weightedScore A) <= round_R (weightedScore B))%Z).
  { apply round_R_le. rewrite !weightedScore_split.
    rewrite (diversityTerms_same A B Hl Ha Ht). lra. }
  lia.
Qed.

(** C9 (amended): at constant corpus size and identical numbers of
    distinct artists and tracks, a corpus whose listens all fall under one
    genre never scores higher on Variety than a corpus with one or more
    resolved genres, and scores strictly lower than a corpus whose listens
    are spread evenly over five genres, provided no genre is the name of a
    method every object inherits (['constructor'], ['toString'], ...; the
    score is then NaN).  Beyond that the score does not follow genre
    diversity: the entropy of the genre counts is divided by log2 of the
    number of genres. *)
Theorem single_genre_never_scores_higher :
  (forall A B : list Listen,
      List.length A = List.length B ->
      uniqueArtists A = uniqueArtists B ->
      uniqueTracks A = uniqueTracks B ->
      List.map snd (genreCounts A) = [Count (List.length A)] ->
      genreCounts B <> [] ->
      plain_genres B ->
      exists a b : Z,
        calculateVariety A = VNum a /\ calculateVariety B = VNum b /\ (a <= b)%Z)
  /\ (forall (A B : list Listen) (k : nat),
        (0 < k)%nat ->
        List.length A = (5 * k)%nat ->
        List.length B = (5 * k)%nat ->
        uniqueArtists A = uniqueArtists B ->
        uniqueTracks A = uniqueTracks B ->
        List.map snd (genreCounts A) = [Count (List.length A)] ->
        List.map snd (genreCounts B) = [Count k; Count k; Count k; Count k; Count k] ->
        exists a b : Z,
          calculateVariety A = VNum a /\ calculateVariety B = VNum b /\ (a < b)%Z).
Proof.
  split.
  - intros A B Hl Ha Ht HgA HgB Hplain.
    assert (HneA : A <> []).
    { intros ->. cbn in HgA. discriminate. }
    assert (HcA : all_counted (genreCounts A) = true)
      by (rewrite all_counted_values, HgA; reflexivity).
    apply GenreCountFacts.all_counted_plain in Hplain.
    rewrite (variety_weighted A (counts_nonempty _ _ _ HgA) HcA).
    rewrite (variety_weighted B HgB Hplain).
    do 2 eexists. split; [reflexivity|]. split; [reflexivity|].
    assert (Hr : (round_R (weightedScore A) <= round_R (weightedScore B))%Z).
    { apply round_R_le. rewrite !weightedScore_split.
      rewrite (diversityTerms_same A B Hl Ha Ht).
      rewrite (normalized_single A HneA HgA).
      pose proof (normalized_nonneg B). lra. }
    lia.
  - intros A B k Hk HlA HlB Ha Ht HgA HgB.
    assert (HneA : A <> []) by (intros ->; cbn in HlA; lia).
    assert (HneB : B <> []) by (intros ->; cbn in HlB; lia).
    assert (HcA : all_counted (genreCounts A) = true)
      by (rewrite all_counted_values, HgA; reflexivity).
    assert (HcB : all_counted (genreCounts B) = true)
      by (rewrite all_counted_values, HgB; reflexivity).
    rewrite (variety_weighted A (counts_nonempty _ _ _ HgA) HcA).
    rewrite (variety_weighted B (counts_nonempty _ _ _ HgB) HcB).
    do 2 eexists. split; [reflexivity|]. split; [reflexivity|].
    rewrite !weightedScore_split.
    rewrite (normalized_single A HneA HgA).
    rewrite (normalized_five B k Hk HlB HgB).
    rewrite <- (diversityTerms_same A B (eq_trans HlA (eq_sym HlB)) Ha Ht).
    pose proof (diversityTerms_bounds A HneA) as Hb.
    replace (0 * 40 + diversityTerms A) with (diversityTerms A) by lra.
    replace (1 * 40 + diversityTerms A) with (diversityTerms A + IZR 40) by lra.
    rewrite round_R_shift.
    pose proof (round_R_bounds (diversityTerms A) 0 60 Hb).
    lia.
Qed.


Lemma entropy_two_genres : entropy [4; 4]%nat 8 = 1.
Proof.
  unfold entropy. cbn [fold_left].
  replace (INR 4 / INR 8) with (/ 2 ^ 1) by (simpl; field).
  rewrite log2_inv by lra. rewrite log2_pow2. simpl. field.
Qed.

Lemma entropy_four_genres : entropy [4; 2; 1; 1]%nat 8 = 7 / 4.
Proof.
  unfold entropy. cbn [fold_left].
  replace (INR 4 / INR 8) with (/ 2 ^ 1) by (simpl; field).
  replace (INR 2 / INR 8) with (/ 2 ^ 2) by (simpl; field).
  replace (INR 1 / INR 8) with (/ 2 ^ 3) by (simpl; field).
  rewrite !log2_inv by (apply pow_lt; lra). rewrite !log2_pow2. simpl. field.
Qed.

Lemma full_diversity (listens : list Listen) :
  listens <> [] ->
  uniqueArtists listens = List.length listens ->
  uniqueTracks listens = List.length listens ->
  diversityTerms listens = 60.
Proof.
  intros Hne Ha Ht. unfold diversityTerms, artistDiversity, trackDiversity.
  rewrite Ha, Ht.
  assert (0 < INR (List.length listens))
    by (apply lt_0_INR; destruct listens; [contradiction | cbn; lia]).
  replace (INR (List.length listens) / INR (List.length listens) * 100) with 100
    by (field; lra).
  rewrite !Rmin_right by lra. lra.
Qed.

(** C9 (counterexample): two corpora of eight listens with the same
    artists and tracks.  The second is the first with two of its four jazz
    listens relabelled pop and folk: it has more distinct genres (four
    against two) and a higher Shannon entropy of the genre distribution
    (7/4 against 1), yet its Variety score is 95 against 100. *)
Lemma variety_drops_with_more_genres :
  List.length Sample.two_genres = List.length Sample.four_genres
  /\ List.map artistName Sample.two_genres = List.map artistName Sample.four_genres
  /\ List.map trackName Sample.two_genres = List.map trackName Sample.four_genres
  /\ genreCounts Sample.two_genres = [("rock", Count 4); ("jazz", Count 4)]
  /\ genreCounts Sample.four_genres
     = [("rock", Count 4); ("jazz", Count 2); ("pop", Count 1); ("folk", Count 1)]
  /\ entropy [4; 4]%nat 8 < entropy [4; 2; 1; 1]%nat 8
  /\ calculateVariety Sample.two_genres = VNum 100
  /\ calculateVariety Sample.four_genres = VNum 95.
Proof.
  assert (G2 : genreCounts Sample.two_genres = [("rock", Count 4); ("jazz", Count 4)])
    by (vm_compute; reflexivity).
  assert (G4 : genreCounts Sample.four_genres
               = [("rock", Count 4); ("jazz", Count 2); ("pop", Count 1);
                  ("folk", Count 1)])
    by (vm_compute; reflexivity).
  assert (D2 : diversityTerms Sample.two_genres = 60)
    by (apply full_diversity; [discriminate | vm_compute; reflexivity ..]).
  assert (D4 : diversityTerms Sample.four_genres = 60)
    by (apply full_diversity; [discriminate | vm_compute; reflexivity ..]).
  repeat split; try reflexivity; try assumption.
  - rewrite entropy_two_genres, entropy_four_genres. lra.
  - rewrite variety_weighted by (rewrite G2; first [discriminate | reflexivity]).
    rewrite weightedScore_split, D2. unfold normalizedEntropy. rewrite G2.
    change (List.length Sample.two_genres) with 8%nat.
    unfold counted. cbn [flat_map app snd List.length]. rewrite entropy_two_genres.
    unfold maxEntropy. change (1 <? 2)%nat with true. cbv iota.
    replace (INR 2) with (2 ^ 1) by (simpl; lra). rewrite log2_pow2.
    replace (1 / INR 1 * 40 + 60) with (IZR 100) by (simpl; field).
    rewrite round_R_integer. reflexivity.
  - rewrite variety_weighted by (rewrite G4; first [discriminate | reflexivity]).
    rewrite weightedScore_split, D4. unfold normalizedEntropy. rewrite G4.
    change (List.length Sample.four_genres) with 8%nat.
    unfold counted. cbn [flat_map app snd List.length]. rewrite entropy_four_genres.
    unfold maxEntropy. change (1 <? 4)%nat with true. cbv iota.
    replace (INR 4) with (2 ^ 2) by (simpl; lra). rewrite log2_pow2.
    replace (7 / 4 / INR 2 * 40 + 60) with (IZR 95) by (simpl; field).
    rewrite round_R_integer. reflexivity.
Qed.

(** Five listens of one genre against the same five listens spread over
    five genres. *)
Lemma single_genre_scores_below_five_genres :
  exists a b : Z,
    calculateVariety Sample.one_genre = VNum a
    /\ calculateVariety Sample.five_genres = VNum b /\ (a < b)%Z.
Proof.
  destruct single_genre_never_scores_higher as [_ Hfive].
  apply (Hfive Sample.one_genre Sample.five_genres 1%nat).
  - lia.
  - reflexivity.
  - reflexivity.
  - vm_compute. reflexivity.
  - vm_compute. reflexivity.
  - vm_compute. reflexivity.
  - vm_compute. reflexivity.
Defined.

End VarietyFacts.

(** ** The sort of the import hook *)

Module SortFacts.
Import Derived.

Section Generic.
Context {A : Type}.
Variable cmp : A -> A -> Z.

Lemma insert_by_permutation (x : A) (l : list A) :
  Permutation (insert_by cmp x l) (x :: l).
Proof.
  induction l as [|y l IH]; cbn; [reflexivity|].
  destruct (cmp x y <=? 0); [reflexivity|].
  rewrite IH. apply perm_swap.
Qed.

Lemma sort_by_permutation (l : list A) : Permutation (sort_by cmp l) l.
Proof.
  unfold sort_by. induction l as [|x l IH]; cbn; [reflexivity|].
  rewrite insert_by_permutation. constructor. exact IH.
Qed.

Variable key : A -> Z.
Local Abbreviation keyed := (keyed cmp key).

Lemma keyed_cons (x : A) (l : list A) : keyed (x :: l) -> keyed l.
Proof. intros Hk a b Ha Hb. apply Hk; right; assumption. Qed.

Lemma insert_by_sorted (x : A) (l : list A) :
  keyed (x :: l) ->
  StronglySorted (fun a b => key a <= key b) l ->
  StronglySorted (fun a b => key a <= key b) (insert_by cmp x l).
Proof.
  intros Hk Hs. induction Hs as [|y l Hs IH Hy]; cbn.
  - constructor; constructor.
  - assert (Hxy : cmp x y = key x - key y) by (apply Hk; cbn; auto).
    destruct (cmp x y <=? 0) eqn:E.
    + apply Z.leb_le in E. constructor.
      * constructor; assumption.
      * constructor; [lia|]. rewrite Forall_forall in *. intros b Hb.
        specialize (Hy b Hb). lia.
    + apply Z.leb_gt in E. constructor.
      * apply IH. intros a b Ha Hb. apply Hk; cbn in *; tauto.
      * rewrite Forall_forall in *. intros b Hb.
        apply (Permutation_in _ (insert_by_permutation x l)) in Hb.
        destruct Hb as [<- | Hb]; [lia | apply Hy; exact Hb].
Qed.

Lemma sort_by_sorted (l : list A) :
  keyed l -> StronglySorted (fun a b => key a <= key b) (sort_by cmp l).
Proof.
  unfold sort_by. induction l as [|x l IH]; intros Hk; cbn; [constructor|].
  apply insert_by_sorted.
  - intros a b Ha Hb. apply Hk.
    + destruct Ha as [<- | Ha]; [left; reflexivity|].
      right. apply (Permutation_in _ (sort_by_permutation l)). exact Ha.
    + destruct Hb as [<- | Hb]; [left; reflexivity|].
      right. apply (Permutation_in _ (sort_by_permutation l)). exact Hb.
  - apply IH. eapply keyed_cons. exact Hk.
Qed.

Lemma insert_by_stable (k : Z) (x : A) (l : list A) :
  keyed (x :: l) ->
  List.filter (fun a => key a =? k) (insert_by cmp x l)
  = List.filter (fun a => key a =? k) (x :: l).
Proof.
  intros Hk. induction l as [|y l IH]; [reflexivity|]. cbn [insert_by].
  assert (Hxy : cmp x y = key x - key y) by (apply Hk; cbn; auto).
  destruct (cmp x y <=? 0) eqn:E; [reflexivity|].
  apply Z.leb_gt in E.
  cbn [List.filter]. rewrite IH by (intros a b Ha Hb; apply Hk; cbn in *; tauto).
  cbn [List.filter].
  destruct (key x =? k) eqn:Ex; [|reflexivity].
  apply Z.eqb_eq in Ex.
  replace (key y =? k) with false by (symmetry; apply Z.eqb_neq; lia).
  reflexivity.
Qed.

Lemma sort_by_stable (k : Z) (l : list A) :
  keyed l ->
  List.filter (fun a => key a =? k) (sort_by cmp l)
  = List.filter (fun a => key a =? k) l.
Proof.
  unfold sort_by. induction l as [|x l IH]; intros Hk; [reflexivity|].
  cbn [fold_right]. rewrite insert_by_stable.
  - cbn [List.filter]. rewrite (IH (keyed_cons _ _ Hk)). reflexivity.
  - intros a b Ha Hb. apply Hk.
    + destruct Ha as [<- | Ha]; [left; reflexivity|].
      right. apply (Permutation_in _ (sort_by_permutation l)). exact Ha.
    + destruct Hb as [<- | Hb]; [left; reflexivity|].
      right. apply (Permutation_in _ (sort_by_permutation l)). exact Hb.
Qed.

End Generic.

Lemma mapM_Forall2 {A B} (f : A -> outcome B) (l : list A) (r : list B) :
  mapM f l = Ret r -> Forall2 (fun x y => f x = Ret y) l r.
Proof.
  revert r. induction l as [|x l IH]; intros r Hm; cbn in Hm.
  - injection Hm as <-. constructor.
  - destruct (f x) eqn:Ex; [|discriminate]. cbn in Hm.
    destruct (mapM f l); [|discriminate]. cbn in Hm.
    injection Hm as <-. constructor; [exact Ex | apply IH; reflexivity].
Qed.


Lemma combine_snd {A B} (l : list A) (r : list B) :
  Forall2 (fun _ _ => True) l r -> List.map snd (List.combine r l) = l.
Proof.
  induction 1 as [|x y l r _ _ IH]; [reflexivity|]. cbn. rewrite IH. reflexivity.
Qed.

Lemma Forall2_combine {A B} (P : A -> B -> Prop) (l : list A) (r : list B) :
  Forall2 P l r -> Forall (fun p => P (snd p) (fst p)) (List.combine r l).
Proof.
  induction 1 as [|x y l r Hxy _ IH]; cbn; constructor; assumption.
Qed.

Lemma StronglySorted_map {A B} (f : A -> B) (R : B -> B -> Prop) (l : list A) :
  StronglySorted (fun a b => R (f a) (f b)) l -> StronglySorted R (List.map f l).
Proof.
  induction 1 as [|x l _ IH Hx]; cbn; constructor; [exact IH|].
  rewrite Forall_forall in *. intros b Hb. apply in_map_iff in Hb as [a [<- Ha]].
  apply Hx. exact Ha.
Qed.

Lemma StronglySorted_weaken {A} (R S : A -> A -> Prop) (l : list A) :
  (forall a b, In a l -> In b l -> R a b -> S a b) ->
  StronglySorted R l -> StronglySorted S l.
Proof.
  intros Himp Hs. induction Hs as [|x l _ IH Hx]; constructor.
  - apply IH. intros a b Ha Hb. apply Himp; right; assumption.
  - rewrite Forall_forall in *. intros b Hb.
    apply Himp; [left; reflexivity | right; exact Hb | apply Hx; exact Hb].
Qed.

Lemma filter_map_snd {A B} (p : B -> bool) (l : list (A * B)) :
  List.filter p (List.map snd l)
  = List.map snd (List.filter (fun q => p (snd q)) l).
Proof.
  induction l as [|q l IH]; [reflexivity|]. cbn.
  destruct (p (snd q)); cbn; rewrite IH; reflexivity.
Qed.

Lemma filter_ext_in' {A} (p q : A -> bool) (l : list A) :
  (forall a, In a l -> p a = q a) -> List.filter p l = List.filter q l.
Proof.
  induction l as [|x l IH]; intros He; [reflexivity|]. cbn.
  rewrite (He x (or_introl eq_refl)), IH; [reflexivity|].
  intros a Ha. apply He. right. exact Ha.
Qed.

Lemma Forall2_length_eq {A B} (P : A -> B -> Prop) (l : list A) (r : list B) :
  Forall2 P l r -> Forall2 (fun _ _ => True) l r.
Proof. induction 1; constructor; auto. Qed.

Section WithHost.
Context {H : Host}.


(** The decorated list the sort runs on. *)
Lemma sort_listens_long (a b : value) (l out : list value) :
  DataParser.sort_listens (a :: b :: l) = Ret out ->
  exists keys,
    Forall2 (fun x k => DataParser.time_key x = Ret k) (a :: b :: l) keys
    /\ out = List.map snd
               (sort_by (fun p q => compare_keys (fst p) (fst q))
                  (List.combine keys (a :: b :: l))).
Proof.
  unfold DataParser.sort_listens.
  destruct (mapM DataParser.time_key (a :: b :: l)) as [keys|] eqn:Ek; [|discriminate].
  cbn [bind]. intros Ho. injection Ho as <-.
  exists keys. split; [apply mapM_Forall2; exact Ek | reflexivity].
Qed.

Lemma decorated_keyed (l : list value) (keys : list (option Z)) :
  Forall2 (fun x k => DataParser.time_key x = Ret k) l keys ->
  Forall has_time l ->
  Forall (fun p => pair_key p = sort_key (snd p) /\ exists z, fst p = Some z)
         (List.combine keys l).
Proof.
  induction 1 as [|x k l keys Hx _ IH]; intros Ht; cbn; constructor.
  - apply Forall_inv in Ht. destruct Ht as [z Hz].
    unfold pair_key, sort_key. cbn. rewrite Hz in Hx. injection Hx as <-.
    rewrite Hz. split; [reflexivity | exists z; reflexivity].
  - apply IH. eapply Forall_inv_tail. exact Ht.
Qed.

Lemma decorated_compare (l : list (option Z * value)) :
  Forall (fun p => pair_key p = sort_key (snd p) /\ exists z, fst p = Some z) l ->
  keyed (fun p q => compare_keys (fst p) (fst q)) pair_key l.
Proof.
  intros Hl p q Hp Hq. rewrite Forall_forall in Hl.
  destruct (Hl p Hp) as [_ [x Hx]], (Hl q Hq) as [_ [y Hy]].
  unfold pair_key. rewrite Hx, Hy. reflexivity.
Qed.

End WithHost.

(** X1: when the sort of the import hook returns, its result is a
    rearrangement of the listens: none is dropped, none is duplicated. *)
Theorem sort_listens_permutation :
  forall (H : Host) (l out : list value),
    DataParser.sort_listens l = Ret out -> Permutation out l.
Proof.
  intros H l out Hs. destruct l as [|a [|b l]];
    try (cbn in Hs; injection Hs as <-; reflexivity).
  apply sort_listens_long in Hs as [keys [Hk ->]].
  rewrite <- (combine_snd (a :: b :: l) keys) at 2
    by (apply Forall2_length_eq in Hk; exact Hk).
  apply Permutation_map. apply sort_by_permutation.
Qed.

Lemma sort_listens_permutation_witness :
  Permutation Sample.sorted_listens Sample.unsorted_listens.
Proof.
  apply (sort_listens_permutation Sample.host Sample.unsorted_listens).
  reflexivity.
Defined.

(** X2: when every listen has a numeric time key, the sorted list is in
    ascending order of that key, and the sort is stable: the listens
    with one and the same key keep the order in which the files
    delivered them. *)
Theorem sort_listens_ordered_and_stable :
  forall (H : Host) (l out : list value),
    DataParser.sort_listens l = Ret out ->
    Forall has_time l ->
    StronglySorted (fun a b => sort_key a <= sort_key b) out
    /\ forall k, List.filter (fun a => sort_key a =? k) out
                 = List.filter (fun a => sort_key a =? k) l.
Proof.
  intros H l out Hs Ht. destruct l as [|a [|b l]];
    try (cbn in Hs; injection Hs as <-; split; [repeat constructor | reflexivity]).
  apply sort_listens_long in Hs as [keys [Hk ->]].
  pose proof (decorated_keyed _ _ Hk Ht) as Hd.
  split.
  - apply StronglySorted_map.
    eapply StronglySorted_weaken;
      [|apply (sort_by_sorted _ pair_key), decorated_compare; exact Hd].
    intros p q Hp Hq Hpq. cbn beta in Hpq. rewrite Forall_forall in Hd.
    apply (Permutation_in _ (sort_by_permutation _ _)) in Hp, Hq.
    destruct (Hd p Hp) as [<- _], (Hd q Hq) as [<- _]. exact Hpq.
  - intros k.
    rewrite <- (combine_snd (a :: b :: l) keys) at 2
      by (apply Forall2_length_eq in Hk; exact Hk).
    rewrite !filter_map_snd. f_equal.
    rewrite (filter_ext_in' (fun q => sort_key (snd q) =? k) (fun q => pair_key q =? k)
               (sort_by _ _)).
    + rewrite (filter_ext_in' (fun q => sort_key (snd q) =? k) (fun q => pair_key q =? k)
                 (List.combine _ _)).
      * apply sort_by_stable, decorated_compare. exact Hd.
      * intros p Hp. rewrite Forall_forall in Hd. destruct (Hd p Hp) as [-> _].
        reflexivity.
    + intros p Hp. apply (Permutation_in _ (sort_by_permutation _ _)) in Hp.
      rewrite Forall_forall in Hd. destruct (Hd p Hp) as [-> _]. reflexivity.
Qed.

Lemma sort_listens_ordered_and_stable_witness :
  StronglySorted (fun a b => @sort_key Sample.host a <= @sort_key Sample.host b)
    Sample.sorted_listens
  /\ forall k, List.filter (fun a => @sort_key Sample.host a =? k) Sample.sorted_listens
               = List.filter (fun a => @sort_key Sample.host a =? k)
                   Sample.unsorted_listens.
Proof.
  apply (sort_listens_ordered_and_stable Sample.host Sample.unsorted_listens).
  - reflexivity.
  - repeat constructor; eexists; reflexivity.
Defined.



End SortFacts.

(** ** The range of the scores *)

Module RangeFacts.
Import ListeningStats Derived.

Lemma round_Q_range (q : Q) : (0 <= q)%Q -> (q <= 100)%Q -> 0 <= round_Q q <= 100.
Proof.
  intros Hlo Hhi. unfold round_Q. split.
  - change 0 with (Qfloor 0). apply Qfloor_resp_le.
    apply Qle_trans with q; [exact Hlo|].
    rewrite <- (Qplus_0_r q) at 1. apply Qplus_le_r. discriminate.
  - change 100 with (Qfloor (100 + (1 # 2))). apply Qfloor_resp_le.
    apply Qplus_le_l. exact Hhi.
Qed.

Lemma round_Q_nonneg (q : Q) : (0 <= q)%Q -> 0 <= round_Q q.
Proof.
  intros Hlo. unfold round_Q. change 0 with (Qfloor 0). apply Qfloor_resp_le.
  apply Qle_trans with q; [exact Hlo|].
  rewrite <- (Qplus_0_r q) at 1. apply Qplus_le_r. discriminate.
Qed.

Lemma ratio_Q_nonneg (a b : nat) : (0 <= ratio a b)%Q.
Proof.
  unfold ratio, Qdiv. apply Qmult_le_0_compat.
  - change 0%Q with (inject_Z 0). rewrite <- Zle_Qle. lia.
  - apply Qinv_le_0_compat. change 0%Q with (inject_Z 0). rewrite <- Zle_Qle. lia.
Qed.

Lemma capped_range (q : Q) : (0 <= q)%Q -> 0 <= round_Q (Qmin q 100) <= 100.
Proof.
  intros Hq. apply round_Q_range.
  - apply Q.min_glb; [exact Hq | discriminate].
  - apply Q.le_min_r.
Qed.

Lemma scaled_nonneg (q k : Q) : (0 <= q)%Q -> (0 <= k)%Q -> (0 <= q * k)%Q.
Proof. apply Qmult_le_0_compat. Qed.

Lemma discovery_range (listens : list Listen) (z : Z) :
  calculateDiscovery listens = VNum z -> 0 <= z <= 100.
Proof.
  unfold calculateDiscovery. destruct (List.length listens); [discriminate|].
  intros Hz. injection Hz as <-. apply capped_range.
  apply scaled_nonneg; [|discriminate].
  apply scaled_nonneg; [apply ratio_Q_nonneg | discriminate].
Qed.

Lemma replay_range (listens : list Listen) (z : Z) :
  calculateReplayRate listens = VNum z -> 0 <= z <= 100.
Proof.
  unfold calculateReplayRate. destruct (List.length (trackCounts listens)).
  - intros Hz. injection Hz as <-. lia.
  - intros Hz. injection Hz as <-. apply capped_range.
    apply scaled_nonneg; [apply ratio_Q_nonneg | discriminate].
Qed.

Lemma exploration_range (listens : list Listen) (z : Z) :
  calculateExploration listens = VNum z -> 0 <= z <= 100.
Proof.
  unfold calculateExploration.
  destruct (switches (sorted_by_time listens)) as [sw [|n]].
  - intros Hz. injection Hz as <-. lia.
  - intros Hz. injection Hz as <-. apply capped_range.
    apply scaled_nonneg; [|discriminate].
    apply scaled_nonneg; [apply ratio_Q_nonneg | discriminate].
Qed.

Lemma variety_range (listens : list Listen) (z : Z) :
  calculateVariety listens = VNum z -> 0 <= z <= 100.
Proof.
  unfold calculateVariety. destruct (genreCounts listens) as [|entry counts].
  - destruct (List.length listens); [discriminate|].
    intros Hz. injection Hz as <-.
    assert (0 <= round_Q ((ratio (uniqueArtists listens) (S n) * 100 * 5
                           + ratio (uniqueTracks listens) (S n) * 100 * 3) / 2)).
    { apply round_Q_nonneg. unfold Qdiv. apply scaled_nonneg; [|discriminate].
      rewrite <- (Qplus_0_r 0). apply Qplus_le_compat;
        (apply scaled_nonneg; [|discriminate]);
        (apply scaled_nonneg; [apply ratio_Q_nonneg | discriminate]). }
    lia.
  - destruct (all_counted (entry :: counts)); [|discriminate].
    intros Hz. injection Hz as <-. lia.
Qed.

Lemma consistency_range (listens : list Listen) (z : Z) :
  calculateConsistency listens = Ret (VNum z) -> 0 <= z <= 100.
Proof.
  unfold calculateConsistency.
  destruct (listensByDay listens []) as [byDay|]; [|discriminate]. cbn [bind].
  destruct (min_of (truthy_times listens)) as [earliest|];
    [|intros Hz; injection Hz as <-; lia].
  destruct (max_of (truthy_times listens)) as [latest|];
    [|intros Hz; injection Hz as <-; lia].
  intros Hz. injection Hz as <-.
  assert (0 <= round_Q (inject_Z (Z.of_nat (List.length byDay))
                        / inject_Z (totalDays earliest latest) * 100)).
  { apply round_Q_nonneg. apply scaled_nonneg; [|discriminate].
    unfold Qdiv. apply Qmult_le_0_compat.
    - change 0%Q with (inject_Z 0). rewrite <- Zle_Qle. lia.
    - apply Qinv_le_0_compat. change 0%Q with (inject_Z 0). rewrite <- Zle_Qle.
      unfold totalDays. lia. }
  lia.
Qed.

Lemma plain_genres_decided (listens : list Listen) :
  plain_genres listens \/ ~ plain_genres listens.
Proof.
  destruct (all_counted (genreCounts listens)) eqn:E.
  - left. apply GenreCountFacts.all_counted_plain. exact E.
  - right. rewrite <- GenreCountFacts.all_counted_plain. congruence.
Qed.

(** A computed fingerprint holds four numbers between 0 and 100, and
    under [variety] a fifth, or NaN on a corpus with the name of an
    inherited method among its genres. *)
Lemma fingerprint_shape (l : list Listen) (fp : value) :
  l <> [] ->
  calculateListeningFingerprint (Some l) = Ret fp ->
  exists (c d r e : Z) (v : value),
    fp = fingerprint (VNum c) (VNum d) v (VNum r) (VNum e)
    /\ 0 <= c <= 100 /\ 0 <= d <= 100 /\ 0 <= r <= 100 /\ 0 <= e <= 100
    /\ ((plain_genres l /\ exists z, v = VNum z /\ 0 <= z <= 100)
        \/ (~ plain_genres l /\ v = VNaN)).
Proof.
  intros Hne Hfp. unfold calculateListeningFingerprint in Hfp.
  destruct l as [|x l]; [contradiction|]. set (ls := x :: l) in *.
  destruct (calculateConsistency ls) as [c|] eqn:Hc; [|discriminate].
  cbn [bind] in Hfp. injection Hfp as <-.
  destruct (ScoreFacts.other_scores_are_numbers ls Hne)
    as [[d Hd] [[r Hr] [e He]]].
  assert (Hcn : exists z, c = VNum z).
  { revert Hc. unfold calculateConsistency.
    destruct (listensByDay ls []); [|discriminate]. cbn [bind].
    destruct (min_of _); [destruct (max_of (truthy_times ls))|];
      intros Hc; injection Hc as <-; eexists; reflexivity. }
  destruct Hcn as [cz ->].
  exists cz, d, r, e, (calculateVariety ls). rewrite Hd, Hr, He.
  split; [reflexivity|].
  split; [eapply consistency_range; exact Hc|].
  split; [eapply discovery_range; exact Hd|].
  split; [eapply replay_range; exact Hr|].
  split; [eapply exploration_range; exact He|].
  destruct (plain_genres_decided ls) as [Hplain | Hodd].
  - left. split; [exact Hplain|].
    destruct (GenreCountFacts.variety_is_number ls Hne Hplain) as [z Hz].
    exists z. split; [exact Hz | eapply variety_range; exact Hz].
  - right. split; [exact Hodd | apply GenreCountFacts.variety_is_nan; exact Hodd].
Qed.

(** X4: every axis of a fingerprint that [calculateListeningFingerprint]
    returns is a number between 0 and 100, with one exception: on a
    corpus in which some listen's genre is the name of a method every
    object inherits, the variety axis is NaN. *)
Theorem fingerprint_in_range :
  forall (listens : option (list Listen)) (fp : value) (axis : string),
    calculateListeningFingerprint listens = Ret fp ->
    In axis axes ->
    ((exists z, field fp axis = VNum z /\ 0 <= z <= 100)
     \/ (axis = "variety" /\ field fp axis = VNaN
         /\ exists l, listens = Some l /\ ~ plain_genres l))
    /\ (forall l, listens = Some l -> ~ plain_genres l -> field fp "variety" = VNaN).
Proof.
  intros listens fp axis Hfp Hin.
  assert (Hneutral : forall a, In a axes -> exists z, field neutral a = VNum z /\ 0 <= z <= 100).
  { intros a Ha. unfold axes in Ha.
    repeat (destruct Ha as [<- | Ha]; [exists 50; split; [reflexivity | lia]|]).
    destruct Ha. }
  destruct listens as [[|l listens]|].
  - cbn in Hfp. injection Hfp as <-. split; [left; apply Hneutral; exact Hin|].
    intros l Hl Hodd. injection Hl as <-. destruct Hodd. constructor.
  - apply fingerprint_shape in Hfp; [|discriminate].
    destruct Hfp as [c [d [r [e [v [-> [Hc [Hd [Hr [He Hv]]]]]]]]]].
    split.
    + unfold axes in Hin.
      destruct Hin as [<- | [<- | [<- | [<- | [<- | []]]]]];
        try (left; cbn; eexists; split; [reflexivity | assumption]).
      destruct Hv as [[_ [z [-> Hz]]] | [Hodd ->]].
      * left. exists z. split; [reflexivity | exact Hz].
      * right. split; [reflexivity|]. split; [reflexivity|].
        eexists. split; [reflexivity | exact Hodd].
    + intros l' Hl Hodd. injection Hl as <-.
      destruct Hv as [[Hplain _] | [_ ->]]; [contradiction | reflexivity].
  - cbn in Hfp. injection Hfp as <-. split; [left; apply Hneutral; exact Hin|].
    intros l Hl. discriminate.
Qed.

Lemma fingerprint_in_range_witness :
  ((exists z, field Sample.untagged_fingerprint "replayRate" = VNum z /\ 0 <= z <= 100)
   \/ ("replayRate" = "variety" /\ field Sample.untagged_fingerprint "replayRate" = VNaN
       /\ exists l, Some Sample.untagged_listens = Some l /\ ~ plain_genres l))
  /\ (forall l, Some Sample.untagged_listens = Some l -> ~ plain_genres l ->
               field Sample.untagged_fingerprint "variety" = VNaN).
Proof.
  apply (fingerprint_in_range (Some Sample.untagged_listens)).
  - vm_compute. reflexivity.
  - right. right. right. left. reflexivity.
Defined.

End RangeFacts.

(** ** Discovery *)

Module DiscoveryFacts.
Import ListeningStats Derived.

Lemma nodup_length_perm (l l' : list string) :
  (forall x, In x l <-> In x l') ->
  List.length (nodup string_dec l) = List.length (nodup string_dec l').
Proof.
  intros Hin. apply Permutation_length. apply NoDup_Permutation.
  - apply NoDup_nodup.
  - apply NoDup_nodup.
  - intros x. rewrite !nodup_In. apply Hin.
Qed.

Lemma distinct_cons_new (a : string) (l : list string) :
  distinct (a :: l)
  = S (distinct (List.filter (fun x => negb (String.eqb a x)) l)).
Proof.
  unfold distinct.
  change (S (List.length (nodup string_dec (List.filter (fun x => negb (String.eqb a x)) l))))
    with (List.length (a :: nodup string_dec (List.filter (fun x => negb (String.eqb a x)) l))).
  apply Permutation_length. apply NoDup_Permutation.
  - apply NoDup_nodup.
  - constructor; [|apply NoDup_nodup].
    rewrite nodup_In, filter_In. intros [_ Hx].
    rewrite String.eqb_refl in Hx. discriminate.
  - intros x. rewrite nodup_In. cbn [In]. rewrite nodup_In, filter_In.
    destruct (String.eqb a x) eqn:E.
    + apply String.eqb_eq in E. subst. cbn. intuition discriminate.
    + apply String.eqb_neq in E. cbn. intuition congruence.
Qed.

Lemma existsb_seen (a : string) (seen : list string) :
  existsb (String.eqb a) seen = true <-> In a seen.
Proof.
  rewrite existsb_exists. split.
  - intros [x [Hx E]]. apply String.eqb_eq in E. subst. exact Hx.
  - intros Ha. exists a. split; [exact Ha | apply String.eqb_refl].
Qed.

Lemma filter_filter {A} (p q : A -> bool) (l : list A) :
  List.filter p (List.filter q l) = List.filter (fun x => q x && p x) l.
Proof.
  induction l as [|x l IH]; [reflexivity|]. cbn.
  destruct (q x); cbn; [destruct (p x)|]; rewrite ?IH; reflexivity.
Qed.

(** The loop counts the distinct truthy artist names it has not seen. *)
Lemma newArtists_distinct (sorted : list Listen) (seen : list string) :
  newArtists sorted seen
  = distinct (List.filter (fun a => negb (existsb (String.eqb a) seen))
                (artist_names sorted)).
Proof.
  revert seen. induction sorted as [|l sorted IH]; intros seen; [reflexivity|].
  cbn [newArtists]. unfold artist_names. cbn [flat_map].
  fold (artist_names sorted).
  destruct (artistName l) as [artist|]; cbn [truthy_str interpolate app];
    [|apply IH].
  destruct (is_empty artist) eqn:Ee; cbn [negb andb app]; [apply IH|].
  cbn [List.filter].
  destruct (existsb (String.eqb artist) seen) eqn:Es; cbn [negb]; [apply IH|].
  rewrite distinct_cons_new, IH, filter_filter. f_equal. f_equal.
  apply filter_ext. intros x. cbn [existsb].
  rewrite negb_orb, andb_comm. f_equal. f_equal. apply String.eqb_sym.
Qed.

Lemma artist_names_permutation (l l' : list Listen) :
  Permutation l l' -> Permutation (artist_names l) (artist_names l').
Proof. apply Permutation_flat_map. Qed.

Lemma distinct_permutation (l l' : list string) :
  Permutation l l' -> distinct l = distinct l'.
Proof.
  intros Hp. apply nodup_length_perm. intros x.
  split; apply Permutation_in; [exact Hp | symmetry; exact Hp].
Qed.

(** In whatever order the loop walks the listens, it finds as many
    first-time artists as there are unique artists. *)
Lemma newArtists_in_any_order (listens sorted : list Listen) :
  Permutation sorted listens ->
  newArtists sorted [] = uniqueArtists listens.
Proof.
  intros Hperm. rewrite newArtists_distinct. cbn [existsb negb].
  assert (Hall : forall l : list string, List.filter (fun _ => true) l = l).
  { induction l as [|x l IH]; [reflexivity|]. cbn. rewrite IH. reflexivity. }
  rewrite Hall. unfold uniqueArtists. fold (artist_names listens).
  apply distinct_permutation, artist_names_permutation. exact Hperm.
Qed.

Lemma newArtists_unique (listens : list Listen) :
  newArtists (sorted_by_time listens) [] = uniqueArtists listens.
Proof. apply newArtists_in_any_order, SortFacts.sort_by_permutation. Qed.

(** X5: the number of first-time artists the discovery loop finds is
    the number of unique artists the variety score counts, in whatever
    order the sort hands the listens to the loop: the chronological order
    has no influence on the count the score is computed from. *)
Theorem discovery_counts_distinct_artists :
  forall listens sorted : list Listen,
    Permutation sorted listens ->
    newArtists sorted [] = uniqueArtists listens.
Proof. exact newArtists_in_any_order. Qed.

Lemma discovery_counts_distinct_artists_witness :
  newArtists (List.rev Sample.untagged_listens) [] = uniqueArtists Sample.untagged_listens.
Proof.
  apply (discovery_counts_distinct_artists Sample.untagged_listens
           (List.rev Sample.untagged_listens)).
  symmetry. apply Permutation_rev.
Defined.

Lemma uniqueArtists_permutation (l l' : list Listen) :
  Permutation l l' -> uniqueArtists l = uniqueArtists l'.
Proof.
  intros Hp. unfold uniqueArtists. fold (artist_names l) (artist_names l').
  apply distinct_permutation, artist_names_permutation, Hp.
Qed.

(** Reordering the listens does not change the discovery score. *)
Remark discovery_order_independent :
  forall l l' : list Listen,
    Permutation l l' -> calculateDiscovery l = calculateDiscovery l'.
Proof.
  intros l l' Hp. unfold calculateDiscovery. rewrite !newArtists_unique.
  rewrite (uniqueArtists_permutation _ _ Hp), (Permutation_length Hp). reflexivity.
Qed.

Lemma round_Q_100 : round_Q 100 = 100.
Proof. reflexivity. Qed.

(** X6: discovery saturates: as soon as there is one distinct artist
    for every ten listens, the score is 100. *)
Theorem discovery_saturates :
  forall listens : list Listen,
    listens <> [] ->
    (List.length listens <= 10 * uniqueArtists listens)%nat ->
    calculateDiscovery listens = VNum 100.
Proof.
  intros listens Hne Hle. unfold calculateDiscovery. rewrite newArtists_unique.
  destruct listens as [|l listens]; [contradiction|].
  set (n := List.length (l :: listens)) in *.
  assert (Hn : (0 < n)%nat) by (unfold n; cbn; lia).
  change (match n with O => VNaN | S _ => VNum (round_Q (Qmin (ratio (uniqueArtists (l :: listens)) n * 100 * 10) 100)) end = VNum 100).
  destruct n as [|n']; [lia|].
  f_equal.
  assert (Hq : (100 <= ratio (uniqueArtists (l :: listens)) (S n') * 100 * 10)%Q).
  { unfold ratio. set (u := uniqueArtists (l :: listens)) in *.
    unfold Qle, Qdiv, Qmult, Qinv, inject_Z. cbn [Qnum Qden].
    destruct (Z.of_nat (S n')) eqn:En; try lia. cbn [Qnum Qden]. nia. }
  unfold round_Q. rewrite (Q.min_r _ _ Hq). reflexivity.
Qed.

Lemma discovery_saturates_witness :
  calculateDiscovery Sample.two_genres = VNum 100.
Proof.
  apply (discovery_saturates Sample.two_genres).
  - discriminate.
  - vm_compute. lia.
Defined.

End DiscoveryFacts.

(** ** Replay rate *)

Module ReplayFacts.
Import ListeningStats Derived.

Lemma trackCounts_tally (listens : list Listen) :
  trackCounts listens = tally (track_keys listens) [].
Proof.
  unfold trackCounts, tally, track_keys. generalize (@nil (string * nat)).
  induction listens as [|l listens IH]; intros acc; [reflexivity|].
  cbn [fold_left List.map List.filter].
  destruct (String.eqb (track_key l) "-"); cbn [negb fold_left]; apply IH.
Qed.

Lemma bump_fst (k : string) (counts : list (string * nat)) :
  forall x, In x (List.map fst (bump String.eqb k counts))
            <-> x = k \/ In x (List.map fst counts).
Proof.
  induction counts as [|[k' n] counts IH]; intros x; cbn.
  - intuition congruence.
  - destruct (String.eqb k k') eqn:E; cbn.
    + apply String.eqb_eq in E. subst. intuition congruence.
    + rewrite IH. intuition congruence.
Qed.

Lemma bump_NoDup (k : string) (counts : list (string * nat)) :
  NoDup (List.map fst counts) -> NoDup (List.map fst (bump String.eqb k counts)).
Proof.
  induction counts as [|[k' n] counts IH]; intros Hn; cbn.
  - repeat constructor. intros [].
  - destruct (String.eqb k k') eqn:E; cbn; [exact Hn|].
    apply String.eqb_neq in E. cbn in Hn. inversion Hn as [|? ? Hk' Hn']; subst.
    constructor; [|apply IH; exact Hn'].
    rewrite bump_fst. intros [-> | Hin]; [congruence | contradiction].
Qed.

Lemma bump_count (k x : string) (counts : list (string * nat)) :
  count_for x (bump String.eqb k counts)
  = (count_for x counts + if String.eqb k x then 1 else 0)%nat.
Proof.
  unfold count_for. induction counts as [|[k' n] counts IH]; cbn.
  - rewrite (String.eqb_sym x k). destruct (String.eqb k x); reflexivity.
  - destruct (String.eqb k k') eqn:E; cbn.
    + apply String.eqb_eq in E. subst k'. rewrite (String.eqb_sym x k).
      destruct (String.eqb k x); cbn; lia.
    + destruct (String.eqb x k') eqn:E'; cbn; [|exact IH].
      apply String.eqb_eq in E'. subst k'. rewrite E. lia.
Qed.

Lemma tally_fst (keys : list string) (counts : list (string * nat)) :
  forall x, In x (List.map fst (tally keys counts))
            <-> In x keys \/ In x (List.map fst counts).
Proof.
  unfold tally. revert counts.
  induction keys as [|k keys IH]; intros counts x; cbn [fold_left In].
  - tauto.
  - rewrite IH, bump_fst. intuition congruence.
Qed.

Lemma tally_NoDup (keys : list string) (counts : list (string * nat)) :
  NoDup (List.map fst counts) -> NoDup (List.map fst (tally keys counts)).
Proof.
  unfold tally. revert counts.
  induction keys as [|k keys IH]; intros counts Hn; cbn [fold_left]; [exact Hn|].
  apply IH, bump_NoDup, Hn.
Qed.

Lemma tally_count (keys : list string) (counts : list (string * nat)) (x : string) :
  count_for x (tally keys counts)
  = (count_for x counts + count_occ string_dec keys x)%nat.
Proof.
  unfold tally. revert counts.
  induction keys as [|k keys IH]; intros counts; cbn [fold_left count_occ]; [lia|].
  rewrite IH, bump_count. destruct (string_dec k x) as [->|Hne].
  - rewrite String.eqb_refl. lia.
  - apply String.eqb_neq in Hne. rewrite Hne. lia.
Qed.

Lemma count_for_entry (counts : list (string * nat)) (p : string * nat) :
  NoDup (List.map fst counts) -> In p counts -> count_for (fst p) counts = snd p.
Proof.
  unfold count_for. induction counts as [|q counts IH]; intros Hn Hp; [destruct Hp|].
  cbn in Hn. inversion Hn as [|? ? Hq Hn']; subst. cbn [List.find].
  destruct Hp as [-> | Hp].
  - rewrite String.eqb_refl. reflexivity.
  - destruct (String.eqb (fst p) (fst q)) eqn:E; [|apply IH; assumption].
    apply String.eqb_eq in E. exfalso. apply Hq. rewrite <- E.
    apply in_map. exact Hp.
Qed.

Lemma NoDup_map_filter {A B} (f : A -> B) (p : A -> bool) (l : list A) :
  NoDup (List.map f l) -> NoDup (List.map f (List.filter p l)).
Proof.
  induction l as [|x l IH]; intros Hn; [constructor|]. cbn in *.
  inversion Hn as [|? ? Hx Hn']; subst.
  destruct (p x); cbn; [constructor|]; try (apply IH; exact Hn').
  intros Hin. apply Hx. apply in_map_iff in Hin as [y [Ey Hy]].
  apply filter_In in Hy as [Hy _]. rewrite <- Ey. apply in_map. exact Hy.
Qed.

(** The two numbers the replay rate is computed from. *)
Lemma replay_numbers (listens : list Listen) :
  List.length (trackCounts listens) = distinct (track_keys listens)
  /\ List.length (List.filter (fun c => (1 <? snd c)%nat) (trackCounts listens))
     = List.length (repeated (track_keys listens)).
Proof.
  rewrite trackCounts_tally. set (keys := track_keys listens).
  assert (Hn : NoDup (List.map fst (tally keys []))) by (apply tally_NoDup; constructor).
  assert (Hc : forall p, In p (tally keys []) ->
                 snd p = count_occ string_dec keys (fst p)).
  { intros p Hp. rewrite <- (count_for_entry _ _ Hn Hp), tally_count. reflexivity. }
  split.
  - rewrite <- (length_map fst). unfold distinct.
    apply Permutation_length, NoDup_Permutation;
      [exact Hn | apply NoDup_nodup |].
    intros x. rewrite tally_fst, nodup_In. cbn. tauto.
  - rewrite <- (length_map fst). unfold repeated.
    apply Permutation_length, NoDup_Permutation.
    + apply NoDup_map_filter. exact Hn.
    + apply NoDup_filter, NoDup_nodup.
    + intros x. rewrite filter_In, nodup_In, in_map_iff. split.
      * intros [p [<- Hp]]. apply filter_In in Hp as [Hp H1].
        rewrite (Hc p Hp) in H1. split; [|exact H1].
        apply (in_map fst) in Hp. apply tally_fst in Hp. cbn in Hp. tauto.
      * intros [Hx H1].
        assert (Hin : In x (List.map fst (tally keys []))) by (apply tally_fst; tauto).
        apply in_map_iff in Hin as [p [<- Hp]]. exists p. split; [reflexivity|].
        apply filter_In. split; [exact Hp|]. rewrite (Hc p Hp). exact H1.
Qed.

Lemma repeated_permutation (k k' : list string) :
  Permutation k k' -> List.length (repeated k) = List.length (repeated k').
Proof.
  intros Hp. apply Permutation_length, NoDup_Permutation.
  - apply NoDup_filter, NoDup_nodup.
  - apply NoDup_filter, NoDup_nodup.
  - intros x. unfold repeated.
    rewrite (Permutation_count_occ string_dec k k') in Hp.
    rewrite !filter_In, !nodup_In, !(count_occ_In string_dec), (Hp x). reflexivity.
Qed.

Lemma track_keys_permutation (l l' : list Listen) :
  Permutation l l' -> Permutation (track_keys l) (track_keys l').
Proof.
  intros Hp. unfold track_keys.
  induction Hp as [|x l l' _ IH|x y l|l l' l'' _ IH1 _ IH2]; cbn.
  - reflexivity.
  - destruct (negb (String.eqb (track_key x) "-")); [constructor|]; exact IH.
  - destruct (negb (String.eqb (track_key y) "-")),
             (negb (String.eqb (track_key x) "-")); try reflexivity.
    apply perm_swap.
  - etransitivity; eassumption.
Qed.

(** The replay rate, in terms of the track keys alone. *)
Lemma replay_rate_formula (listens : list Listen) :
  calculateReplayRate listens
  = match distinct (track_keys listens) with
    | O => VNum 50
    | S _ => VNum (round_Q (Qmin (ratio (List.length (repeated (track_keys listens)))
                                        (distinct (track_keys listens)) * 100) 100))
    end.
Proof.
  unfold calculateReplayRate. destruct (replay_numbers listens) as [-> ->]. reflexivity.
Qed.

(** X7: the number of tracks the replay rate divides by, the keys of
    its counting object, is the number of unique tracks the variety
    score counts with a [Set]. *)
Theorem replay_and_variety_count_the_same_tracks :
  forall listens : list Listen,
    List.length (trackCounts listens) = uniqueTracks listens.
Proof. intros listens. apply replay_numbers. Qed.

(** X8: reordering the listens does not change the replay rate,
    although it changes the order of the keys in the counting object. *)
Theorem replay_rate_order_independent :
  forall l l' : list Listen,
    Permutation l l' -> calculateReplayRate l = calculateReplayRate l'.
Proof.
  intros l l' Hp. rewrite !replay_rate_formula.
  pose proof (track_keys_permutation _ _ Hp) as Hk.
  rewrite (DiscoveryFacts.distinct_permutation _ _ Hk), (repeated_permutation _ _ Hk).
  reflexivity.
Qed.

Lemma distinct_pos (keys : list string) : keys <> [] -> (0 < distinct keys)%nat.
Proof.
  destruct keys as [|k keys]; [contradiction|]. intros _.
  rewrite DiscoveryFacts.distinct_cons_new. lia.
Qed.

Lemma ratio_none (n : nat) : (ratio 0 (S n) * 100 == 0)%Q.
Proof.
  unfold ratio, Qdiv. cbn [Z.of_nat inject_Z].
  change (0 # 1) with 0%Q. rewrite !Qmult_0_l. reflexivity.
Qed.

Lemma ratio_same (n : nat) : (ratio (S n) (S n) * 100 == 100)%Q.
Proof.
  unfold ratio. field. intros E.
  apply (Qeq_bool_neq (inject_Z (Z.of_nat (S n))) 0); [|exact E].
  unfold Qeq_bool, inject_Z. cbn [Qnum Qden].
  apply Z.eqb_neq. lia.
Qed.

Lemma without_repeats (keys : list string) : NoDup keys -> repeated keys = [].
Proof.
  intros Hnd. unfold repeated.
  rewrite (filter_ext_in _ (fun _ => false)); [apply filter_false|].
  intros x _. apply Nat.ltb_ge.
  rewrite (NoDup_count_occ string_dec) in Hnd. apply Hnd.
Qed.

Lemma all_repeated (keys : list string) :
  (forall k, In k keys -> (2 <= count_occ string_dec keys k)%nat) ->
  repeated keys = nodup string_dec keys.
Proof.
  intros Hall. unfold repeated. apply forallb_filter_id.
  apply forallb_forall. intros x Hx. apply nodup_In in Hx.
  apply Nat.ltb_lt. specialize (Hall x Hx). lia.
Qed.

(** X9: the two ends of the replay rate.  When no track is played twice
    the rate is 0; when every track is played at least twice it is
    100. *)
Theorem replay_rate_extremes :
  forall listens : list Listen,
    track_keys listens <> [] ->
    (NoDup (track_keys listens) -> calculateReplayRate listens = VNum 0)
    /\ ((forall k, In k (track_keys listens) ->
                   (2 <= count_occ string_dec (track_keys listens) k)%nat) ->
        calculateReplayRate listens = VNum 100).
Proof.
  intros listens Hne. pose proof (distinct_pos _ Hne) as Hpos.
  rewrite replay_rate_formula. split.
  - intros Hnd. rewrite (without_repeats _ Hnd).
    destruct (distinct (track_keys listens)) as [|n]; [lia|].
    f_equal. unfold round_Q. cbn [List.length]. rewrite ratio_none. reflexivity.
  - intros Hall. rewrite (all_repeated _ Hall).
    fold (distinct (track_keys listens)).
    destruct (distinct (track_keys listens)) as [|n]; [lia|].
    f_equal. unfold round_Q. rewrite ratio_same. reflexivity.
Qed.

Lemma replay_rate_extremes_witness :
  calculateReplayRate Sample.two_genres = VNum 0
  /\ calculateReplayRate Sample.one_genre = VNum 100.
Proof.
  split.
  - apply (replay_rate_extremes Sample.two_genres); [discriminate|].
    vm_compute. repeat (constructor; [cbn; intuition discriminate|]). constructor.
  - apply (replay_rate_extremes Sample.one_genre); [discriminate|].
    intros k Hk. vm_compute in Hk.
    repeat (destruct Hk as [<- | Hk]; [vm_compute; lia|]). destruct Hk.
Defined.

Lemma replay_rate_order_independent_witness :
  calculateReplayRate
    [Sample.listen 1609459200 "A1" "T1" "rock"; Sample.listen 1609459201 "A2" "T2" "jazz"]
  = calculateReplayRate
      [Sample.listen 1609459201 "A2" "T2" "jazz"; Sample.listen 1609459200 "A1" "T1" "rock"].
Proof.
  apply replay_rate_order_independent. apply perm_swap.
Defined.

End ReplayFacts.

(** ** Exploration *)

Module ExplorationFacts.
Import ListeningStats Derived.

Lemma switches_one_genre (g : string) (l : list Listen) :
  String.eqb g "Unknown" = false ->
  Forall (fun x => genre_of x = g) l ->
  switches l = (0%nat, Nat.pred (List.length l)).
Proof.
  intros Hg. induction 1 as [|x l Hx Hl IH]; [reflexivity|].
  destruct l as [|y l]; [reflexivity|].
  change (switches (x :: y :: l))
    with (let '(genreSwitches, validComparisons) := switches (y :: l) in
          if negb (String.eqb (genre_of x) "Unknown")
             && negb (String.eqb (genre_of y) "Unknown")
          then ((if String.eqb (genre_of x) (genre_of y)
                 then genreSwitches else S genreSwitches),
                S validComparisons)
          else (genreSwitches, validComparisons)).
  rewrite IH, Hx, (Forall_inv Hl), Hg, String.eqb_refl. reflexivity.
Qed.

(** X10: a corpus of at least two listens that all have one and the same
    known genre has an exploration score of 0. *)
Theorem exploration_of_one_genre :
  forall (listens : list Listen) (g : string),
    (2 <= List.length listens)%nat ->
    g <> "Unknown" ->
    Forall (fun l => genre_of l = g) listens ->
    calculateExploration listens = VNum 0.
Proof.
  intros listens g Hlen Hg Hall. unfold calculateExploration.
  pose proof (SortFacts.sort_by_permutation
                (fun a b => compare_keys (time_of a) (time_of b)) listens) as Hp.
  fold (sorted_by_time listens) in Hp.
  assert (Hsorted : Forall (fun l => genre_of l = g) (sorted_by_time listens)).
  { rewrite Forall_forall in *. intros x Hx. apply Hall.
    eapply Permutation_in; [exact Hp | exact Hx]. }
  apply String.eqb_neq in Hg.
  rewrite (switches_one_genre g _ Hg Hsorted), (Permutation_length Hp).
  destruct (List.length listens) as [|[|n]]; try lia. cbn [Nat.pred].
  f_equal. unfold round_Q.
  assert (Hz : (ratio 0 (S n) * 100 * 2 == 0)%Q).
  { unfold ratio, Qdiv. cbn [Z.of_nat inject_Z].
    change (0 # 1) with 0%Q. rewrite !Qmult_0_l. reflexivity. }
  rewrite Hz. reflexivity.
Qed.

Lemma exploration_of_one_genre_witness :
  calculateExploration Sample.one_genre = VNum 0.
Proof.
  apply (exploration_of_one_genre Sample.one_genre "rock").
  - cbn. lia.
  - discriminate.
  - repeat constructor.
Defined.

End ExplorationFacts.

(** ** The validated fingerprint *)

Module RadarFacts.
Import ListeningStats Derived.

Section WithHost.
Context {H : Host}.

Lemma number_or_50_number (z : Z) :
  number_or_50 (VNum z) = VNum (if z =? 0 then 50 else z).
Proof. unfold number_or_50, js_or. cbn. destruct (z =? 0); reflexivity. Qed.

Lemma validate_array (l : list value) :
  validateFingerprintData (VArr l) = neutral.
Proof. reflexivity. Qed.

Lemma validate_cases (fp : value) :
  validateFingerprintData fp
  = match fp with
    | VObj fs => VObj (List.map (fun axis => (axis, number_or_50 (lookup axis fs))) axes)
    | VArr _ => neutral
    | _ => VNull
    end.
Proof.
  destruct fp as [| |b|z| |s|l|fs]; try reflexivity.
  - unfold validateFingerprintData. cbn. destruct b; reflexivity.
  - unfold validateFingerprintData. cbn. destruct (z =? 0); reflexivity.
  - unfold validateFingerprintData. cbn. destruct (is_empty s); reflexivity.
  - apply FingerprintValidationFacts.validate_object.
Qed.

End WithHost.

(** X11: [validateFingerprintData] answers [null] only for an argument that
    is falsy or not an object: the check for invalid values after the
    coercion can never fire. *)
Theorem validation_rejects_only_non_objects :
  forall (H : Host) (fp : value),
    validateFingerprintData fp = VNull
    <-> (truthy fp = false \/ typeof fp <> "object").
Proof.
  intros H fp. rewrite validate_cases.
  destruct fp; cbn; split; intros Hx;
    try reflexivity; try discriminate;
    try (right; discriminate); try (left; reflexivity);
    destruct Hx as [Hx | Hx]; try discriminate; exfalso; apply Hx; reflexivity.
Qed.

(** X12: validating a validated fingerprint changes nothing. *)
Theorem validation_is_idempotent :
  forall (H : Host) (fp : value),
    validateFingerprintData (validateFingerprintData fp) = validateFingerprintData fp.
Proof.
  intros H fp. rewrite (validate_cases fp).
  destruct fp as [| |b|z| |s|l|fields]; try reflexivity.
  rewrite FingerprintValidationFacts.validate_object. f_equal.
  unfold axes. cbn [List.map lookup String.eqb Ascii.eqb Bool.eqb].
  repeat match goal with
         | |- context [number_or_50 (lookup ?a fields)] =>
             let z := fresh "z" in
             let Ez := fresh "Ez" in
             let Hz := fresh "Hz" in
             destruct (FingerprintValidationFacts.number_or_50_nonzero (lookup a fields))
               as [z [Ez Hz]];
             rewrite Ez; apply Z.eqb_neq in Hz
         end.
  rewrite !number_or_50_number.
  repeat match goal with Hz : (_ =? 0) = false |- _ => rewrite Hz; clear Hz end.
  reflexivity.
Qed.

Lemma number_or_50_nan (H : Host) : number_or_50 VNaN = VNum 50.
Proof. reflexivity. Qed.

(** X13: what the radar draws.  A computed fingerprint always passes the
    validation, and every validated axis is a number between 1 and 100,
    equal to the computed score unless that score is 0 or, for Variety
    on a corpus with the name of an inherited method among its genres,
    NaN; both are drawn as 50. *)
Theorem radar_scores_in_range :
  forall (H : Host) (listens : list Listen) (fp : value),
    listens <> [] ->
    calculateListeningFingerprint (Some listens) = Ret fp ->
    exists validated,
      validateFingerprintData fp = VObj validated
      /\ forall axis, In axis axes ->
           exists z, lookup axis validated = VNum z
                     /\ 1 <= z <= 100
                     /\ (field fp axis = VNum z
                         \/ (field fp axis = VNum 0 /\ z = 50)
                         \/ (axis = "variety" /\ ~ plain_genres listens
                             /\ field fp axis = VNaN /\ z = 50)).
Proof.
  intros H listens fp Hne Hfp.
  apply RangeFacts.fingerprint_shape in Hfp; [|exact Hne].
  destruct Hfp as [c [d [r [e [v [-> [Hc [Hd [Hr [He Hv]]]]]]]]]].
  eexists. split; [apply FingerprintValidationFacts.validate_object|].
  intros axis Hin. unfold axes in *.
  cbn [List.map lookup String.eqb Ascii.eqb Bool.eqb].
  assert (Hnum : forall z, 0 <= z <= 100 ->
            exists z', number_or_50 (VNum z) = VNum z' /\ 1 <= z' <= 100
                       /\ (VNum z = VNum z' \/ (VNum z = VNum 0 /\ z' = 50))).
  { intros z Hz. rewrite number_or_50_number.
    destruct (Z.eqb_spec z 0) as [-> | Hnz].
    - exists 50. split; [reflexivity|]. split; [lia|]. right. split; reflexivity.
    - exists z. split; [reflexivity|]. split; [lia|]. left. reflexivity. }
  destruct Hin as [<- | [<- | [<- | [<- | [<- | []]]]]];
    cbn [lookup String.eqb Ascii.eqb Bool.eqb field get fingerprint].
  - destruct (Hnum c Hc) as [z' [E [Hz' Hrel]]]. exists z'.
    split; [exact E|]. split; [exact Hz'|]. destruct Hrel; [left | right; left]; assumption.
  - destruct (Hnum d Hd) as [z' [E [Hz' Hrel]]]. exists z'.
    split; [exact E|]. split; [exact Hz'|]. destruct Hrel; [left | right; left]; assumption.
  - destruct Hv as [[_ [z [-> Hz]]] | [Hodd ->]].
    + destruct (Hnum z Hz) as [z' [E [Hz' Hrel]]]. exists z'.
      split; [exact E|]. split; [exact Hz'|].
      destruct Hrel; [left | right; left]; assumption.
    + exists 50. split; [apply number_or_50_nan|]. split; [lia|].
      right; right. split; [reflexivity|]. split; [exact Hodd|]. split; reflexivity.
  - destruct (Hnum r Hr) as [z' [E [Hz' Hrel]]]. exists z'.
    split; [exact E|]. split; [exact Hz'|]. destruct Hrel; [left | right; left]; assumption.
  - destruct (Hnum e He) as [z' [E [Hz' Hrel]]]. exists z'.
    split; [exact E|]. split; [exact Hz'|]. destruct Hrel; [left | right; left]; assumption.
Qed.

Lemma radar_scores_in_range_witness :
  exists validated,
    @validateFingerprintData Sample.host Sample.untagged_fingerprint = VObj validated
    /\ forall axis, In axis axes ->
         exists z, lookup axis validated = VNum z
                   /\ 1 <= z <= 100
                   /\ (field Sample.untagged_fingerprint axis = VNum z
                       \/ (field Sample.untagged_fingerprint axis = VNum 0 /\ z = 50)
                       \/ (axis = "variety" /\ ~ plain_genres Sample.untagged_listens
                           /\ field Sample.untagged_fingerprint axis = VNaN /\ z = 50)).
Proof.
  apply (radar_scores_in_range Sample.host Sample.untagged_listens).
  - discriminate.
  - vm_compute. reflexivity.
Defined.

End RadarFacts.

(** ** Accepted batches *)

Module ValidBatchFacts.
Import UniversalParser.

(** What an accepted batch looks like to [validateTimestamps]. *)
Lemma valid_timestamps (timestamps : list value) (earliest latest : Z) (total valid : nat) :
  timestamps <> [] ->
  validateTimestamps timestamps = IsValid earliest latest total valid ->
  total = List.length timestamps
  /\ valid = List.length (List.filter plausible timestamps)
  /\ 9 * Z.of_nat total <= 10 * Z.of_nat valid
  /\ (In (VNum earliest) (List.filter plausible timestamps)
      /\ forall z, In (VNum z) (List.filter plausible timestamps) -> earliest <= z)
  /\ (In (VNum latest) (List.filter plausible timestamps)
      /\ forall z, In (VNum z) (List.filter plausible timestamps) -> z <= latest)
  /\ MIN_SPAN_SECONDS <= latest - earliest.
Proof.
  intros Hne. unfold validateTimestamps.
  assert (Hpos : (0 < List.length timestamps)%nat)
    by (destruct timestamps; [contradiction | cbn; lia]).
  rewrite (ValidatorFacts.below_90_percent _ _ Hpos).
  destruct (Z.ltb_spec (10 * Z.of_nat (List.length (List.filter plausible timestamps)))
              (9 * Z.of_nat (List.length timestamps))) as [Hlt | Hge]; [discriminate|].
  destruct (min_of _) as [lo|] eqn:Emin; [|discriminate].
  destruct (max_of _) as [hi|] eqn:Emax; [|discriminate].
  rewrite ValidatorFacts.span_below_threshold.
  destruct (Z.ltb_spec (hi - lo) MIN_SPAN_SECONDS) as [Hshort | Hlong]; [discriminate|].
  intros E. injection E as <- <- <- <-.
  repeat split; try assumption.
  - apply ValidatorFacts.numbers_In, ValidatorFacts.min_of_In, Emin.
  - intros z Hz. apply (ValidatorFacts.min_of_least _ _ _ Emin).
    apply ValidatorFacts.numbers_In. exact Hz.
  - apply ValidatorFacts.numbers_In, ValidatorFacts.max_of_In, Emax.
  - intros z Hz. apply (ValidatorFacts.max_of_greatest _ _ _ Emax).
    apply ValidatorFacts.numbers_In. exact Hz.
Qed.

(** How [validateUniversalData] reaches [validateTimestamps]. *)
Lemma validate_reaches_timestamps (data : value) (r : validation) :
  validateUniversalData data = Ret r ->
  r <> NoListens ->
  exists items timestamps,
    get data "listens" = Ret (VArr items)
    /\ items <> []
    /\ mapM (fun l => get l "listened_at") items = Ret timestamps
    /\ r = validateTimestamps timestamps.
Proof.
  unfold validateUniversalData. intros Hv Hr.
  destruct (truthy data); cbn [negb] in Hv; [|injection Hv as <-; contradiction].
  destruct (get data "listens") as [ls|] eqn:El; cbn [bind] in Hv; [|discriminate].
  destruct (truthy ls); cbn [negb] in Hv; [|injection Hv as <-; contradiction].
  destruct ls as [| | | | | |items|];
    try (cbn in Hv;
         repeat match type of Hv with
                | context [match ?x with _ => _ end] => destruct x
                end;
         try discriminate; injection Hv as <-; contradiction).
  destruct items as [|i items]; [cbn in Hv; injection Hv as <-; contradiction|].
  assert (Hlen : get (VArr (i :: items)) "length"
                 = Ret (VNum (Z.of_nat (List.length (i :: items))))) by reflexivity.
  rewrite Hlen in Hv. cbn [bind] in Hv.
  destruct (Z.of_nat (List.length (i :: items))) eqn:En; [cbn in En; lia| |];
    (destruct (mapM _ (i :: items)) as [timestamps|] eqn:Em; cbn [bind] in Hv;
     [|discriminate]; injection Hv as <-;
     exists (i :: items), timestamps; repeat split; [discriminate | exact Em]).
Qed.

(** The timestamps [validateUniversalData] reads are the [listened_at]
    fields of the listens. *)
Lemma timestamps_of_items (items timestamps : list value) :
  mapM (fun l => get l "listened_at") items = Ret timestamps ->
  timestamps = List.map (fun l => field l "listened_at") items.
Proof.
  revert timestamps. induction items as [|i items IH]; intros timestamps Hm.
  - injection Hm as <-. reflexivity.
  - cbn [mapM] in Hm. unfold field at 1. cbn [List.map].
    destruct (get i "listened_at") as [ts|]; [|discriminate]. cbn [bind] in Hm.
    destruct (mapM _ items) as [rest|]; [|discriminate]. cbn [bind] in Hm.
    injection Hm as <-. rewrite (IH rest eq_refl). reflexivity.
Qed.

Lemma filter_map_length {A B} (f : A -> B) (p : B -> bool) (l : list A) :
  List.length (List.filter p (List.map f l))
  = List.length (List.filter (fun x => p (f x)) l).
Proof.
  induction l as [|x l IH]; [reflexivity|]. cbn [List.map List.filter].
  destruct (p (f x)); cbn [List.length]; rewrite IH; reflexivity.
Qed.

(** X14: a batch that [validateUniversalData] accepts is an array of at least
    two listens; [validTimestamps] counts the listens whose [listened_at]
    is a number strictly between the two bounds, at least nine in ten of
    all; the reported range is made of the least and the greatest of
    these numbers, at least 2524608 seconds apart. *)
Theorem accepted_batch_invariants :
  forall (data : value) (earliest latest : Z) (total valid : nat),
    validateUniversalData data = Ret (IsValid earliest latest total valid) ->
    exists items,
      get data "listens" = Ret (VArr items)
      /\ total = List.length items
      /\ valid = List.length
                   (List.filter (fun l => plausible (field l "listened_at")) items)
      /\ (2 <= valid <= total)%nat
      /\ 9 * Z.of_nat total <= 10 * Z.of_nat valid
      /\ Exists (fun l => get l "listened_at" = Ret (VNum earliest)) items
      /\ Exists (fun l => get l "listened_at" = Ret (VNum latest)) items
      /\ (forall (l : value) (z : Z),
            In l items ->
            get l "listened_at" = Ret (VNum z) ->
            MIN_TIMESTAMP < z < MAX_TIMESTAMP ->
            earliest <= z <= latest)
      /\ MIN_TIMESTAMP < earliest
      /\ earliest + MIN_SPAN_SECONDS <= latest
      /\ latest < MAX_TIMESTAMP.
Proof.
  intros data earliest latest total valid Hv.
  apply validate_reaches_timestamps in Hv as [items [timestamps [Hl [Hne [Hm Hr]]]]];
    [|discriminate].
  assert (Hts : timestamps <> []).
  { intros ->. apply ValidatorFacts.mapM_length in Hm.
    destruct items; [contradiction | discriminate]. }
  symmetry in Hr.
  apply (valid_timestamps _ _ _ _ _ Hts) in Hr
    as [Htotal [Hvalid [Hpct [[Hlo Hlomin] [[Hhi Hhimax] Hspan]]]]].
  pose proof (ValidatorFacts.mapM_length _ _ _ Hm) as Hlen.
  pose proof (SortFacts.mapM_Forall2 _ _ _ Hm) as Hf2.
  pose proof (timestamps_of_items _ _ Hm) as Hmap.
  assert (Hfrom : forall z, In (VNum z) (List.filter plausible timestamps) ->
            Exists (fun l => get l "listened_at" = Ret (VNum z)) items
            /\ MIN_TIMESTAMP < z < MAX_TIMESTAMP).
  { intros z Hz. apply filter_In in Hz as [Hz Hp]. split.
    - clear - Hf2 Hz. induction Hf2 as [|x y l r Hxy _ IH]; [destruct Hz|].
      destruct Hz as [-> | Hz]; [left; exact Hxy | right; apply IH; exact Hz].
    - cbn in Hp. apply andb_prop in Hp as [H1 H2].
      apply Z.ltb_lt in H1, H2. lia. }
  destruct (Hfrom _ Hlo) as [Hlo' Hlor], (Hfrom _ Hhi) as [Hhi' Hhir].
  exists items.
  split; [exact Hl|]. split; [congruence|].
  split; [rewrite Hvalid, Hmap; apply filter_map_length|].
  split.
  { split.
    - (* two distinct valid timestamps *)
      assert (Hd : VNum earliest <> VNum latest).
      { intros E. injection E as E. unfold MIN_SPAN_SECONDS in Hspan. lia. }
      subst valid. clear - Hlo Hhi Hd.
      destruct (List.filter plausible timestamps) as [|a [|b l]]; cbn in *; try lia;
        try contradiction.
      destruct Hlo as [E1 | []], Hhi as [E2 | []]. congruence.
    - subst. apply filter_length_le. }
  split; [exact Hpct|]. split; [exact Hlo'|]. split; [exact Hhi'|].
  split.
  { intros l z Hin Hget Hz.
    assert (Hzin : In (VNum z) (List.filter plausible timestamps)).
    { apply ValidatorFacts.plausible_number. split; [|exact Hz].
      rewrite Hmap. apply in_map_iff. exists l. split; [|exact Hin].
      unfold field. rewrite Hget. reflexivity. }
    split; [apply Hlomin | apply Hhimax]; exact Hzin. }
  lia.
Qed.

Lemma accepted_batch_invariants_witness :
  exists items,
    get Sample.month_batch "listens" = Ret (VArr items)
    /\ 3%nat = List.length items
    /\ 3%nat = List.length
                 (List.filter (fun l => plausible (field l "listened_at")) items)
    /\ (2 <= 3 <= 3)%nat
    /\ 9 * Z.of_nat 3 <= 10 * Z.of_nat 3
    /\ Exists (fun l => get l "listened_at" = Ret (VNum 1609459200)) items
    /\ Exists (fun l => get l "listened_at" = Ret (VNum 1612137600)) items
    /\ (forall (l : value) (z : Z),
          In l items ->
          get l "listened_at" = Ret (VNum z) ->
          MIN_TIMESTAMP < z < MAX_TIMESTAMP ->
          1609459200 <= z <= 1612137600)
    /\ MIN_TIMESTAMP < 1609459200
    /\ 1609459200 + MIN_SPAN_SECONDS <= 1612137600
    /\ 1612137600 < MAX_TIMESTAMP.
Proof.
  apply (accepted_batch_invariants Sample.month_batch 1609459200 1612137600 3 3).
  reflexivity.
Defined.

End ValidBatchFacts.

(** ** The parsers *)

Module ParserFacts.
Import Derived.

Section WithHost.
Context {H : Host}.

(** The map callback of the ListenBrainz parser. *)
Lemma listenbrainz_record (listen : value) (index : nat) :
  (tm <- get listen "track_metadata" ;;
   let trackMetadata := js_or tm (VObj []) in
   la <- get listen "listened_at" ;;
   let listenedAt := js_or la (VNum (now_ms / 1000)) in
   track_name <- get trackMetadata "track_name" ;;
   artist_name <- get trackMetadata "artist_name" ;;
   release_name <- get trackMetadata "release_name" ;;
   recording_msid <- get listen "recording_msid" ;;
   additional_info <- get trackMetadata "additional_info" ;;
   Ret (VObj [
     ("id", VStr ("lb-" ++ string_of_Z (Z.of_nat index) ++ "-"
                  ++ to_string listenedAt)%string);
     ("listened_at", listenedAt);
     ("timestamp", UniversalParser.times_1000 listenedAt);
     ("trackName", VStr (sanitize (to_string (js_or track_name (VStr "Unknown Track")))));
     ("artistName", VStr (sanitize (to_string (js_or artist_name (VStr "Unknown Artist")))));
     ("albumName", VStr (sanitize (to_string (js_or release_name (VStr "Unknown Album")))));
     ("recordingMsid", js_or recording_msid VNull);
     ("additionalInfo", js_or additional_info (VObj []));
     ("source", VStr "listenbrainz")]))
  = if nullish listen then Throw TypeError
    else
      let listenedAt := js_or (field listen "listened_at") (VNum (now_ms / 1000)) in
      let trackMetadata := js_or (field listen "track_metadata") (VObj []) in
      Ret (VObj [
        ("id", VStr ("lb-" ++ string_of_Z (Z.of_nat index) ++ "-"
                     ++ to_string listenedAt)%string);
        ("listened_at", listenedAt);
        ("timestamp", UniversalParser.times_1000 listenedAt);
        ("trackName", VStr (sanitize (to_string (js_or (field trackMetadata "track_name") (VStr "Unknown Track")))));
        ("artistName", VStr (sanitize (to_string (js_or (field trackMetadata "artist_name") (VStr "Unknown Artist")))));
        ("albumName", VStr (sanitize (to_string (js_or (field trackMetadata "release_name") (VStr "Unknown Album")))));
        ("recordingMsid", js_or (field listen "recording_msid") VNull);
        ("additionalInfo", js_or (field trackMetadata "additional_info") (VObj []));
        ("source", VStr "listenbrainz")]).
Proof.
  destruct (nullish listen) eqn:Hn.
  - rewrite (SpotifyFacts.get_nullish _ _ Hn). reflexivity.
  - rewrite !(SpotifyFacts.get_field _ _ Hn). cbn [bind]. cbv zeta.
    assert (Hm : nullish (js_or (field listen "track_metadata") (VObj [])) = false).
    { unfold js_or. destruct (truthy (field listen "track_metadata")) eqn:Et;
        [|reflexivity].
      destruct (field listen "track_metadata"); try discriminate; reflexivity. }
    rewrite !(SpotifyFacts.get_field _ _ Hm). reflexivity.
Qed.

Lemma mapiM_throws {A B} (f : A -> nat -> outcome B) (p : A -> bool) (m : string) :
  (forall x i, p x = true -> f x i = Throw m) ->
  (forall x i, p x = false -> exists y, f x i = Ret y) ->
  forall l i, existsb p l = true -> mapiM f i l = Throw m.
Proof.
  intros Hbad Hgood. induction l as [|x l IH]; intros i Hex; [discriminate|].
  cbn in Hex |- *. destruct (p x) eqn:Ep.
  - rewrite (Hbad x i Ep). reflexivity.
  - destruct (Hgood x i Ep) as [y ->]. cbn. rewrite (IH (S i) Hex). reflexivity.
Qed.

Lemma never_throws_listenbrainz (data : value) :
  exists r, UniversalParser.parseListenBrainzFormat data = Ret r.
Proof.
  unfold UniversalParser.parseListenBrainzFormat.
  match goal with |- context [try_catch ?c _] => destruct c end;
    cbn; eexists; reflexivity.
Qed.

Lemma never_throws_spotify (data : value) :
  exists r, UniversalParser.parseSpotifyFormat data = Ret r.
Proof.
  unfold UniversalParser.parseSpotifyFormat.
  match goal with |- context [try_catch ?c _] => destruct c end;
    cbn; eexists; reflexivity.
Qed.

End WithHost.


(** X16: every listen the ListenBrainz parser returns carries its record's
    [listened_at] (the current time in seconds when the record has none),
    the same instant in milliseconds as [timestamp], and the source tag. *)
Theorem listenbrainz_parse_timestamps :
  forall (H : Host) (items : list value) (r : UniversalParser.parse_result),
    UniversalParser.parseListenBrainzFormat (VArr items) = Ret r ->
    UniversalParser.success r = true ->
    Forall2 (fun item listen =>
               field listen "listened_at"
               = js_or (field item "listened_at") (VNum (now_ms / 1000))
               /\ field listen "timestamp"
                  = UniversalParser.times_1000 (field listen "listened_at")
               /\ field listen "source" = VStr "listenbrainz")
            items (UniversalParser.listens r).
Proof.
  intros H items r Hp Hs. unfold UniversalParser.parseListenBrainzFormat in Hp.
  match type of Hp with context [mapiM ?f 0%nat items] =>
    destruct (mapiM f 0%nat items) as [out|m] eqn:Em end; cbn [bind try_catch] in Hp;
    injection Hp as <-; [|discriminate].
  cbn [UniversalParser.listens].
  eapply SpotifyFacts.mapiM_Forall2; [|exact Em].
  intros x i y Hy. cbv beta in Hy. rewrite listenbrainz_record in Hy.
  destruct (nullish x); [discriminate|]. cbv zeta in Hy. injection Hy as <-.
  repeat split.
Qed.

(** X17: [parseUniversalData] throws in three cases only: the text is not
    JSON, the format is not detected, or the format is Last.fm.  The
    message is the cause's message behind a fixed prefix.  In every other
    case a result object is returned, also when the parser failed. *)
Theorem universal_parse_throws_before_parsing :
  forall (H : Host) (fileContent fileName message : string),
    UniversalParser.parseUniversalData fileContent fileName = Throw message
    <-> (json_parse fileContent = None
         /\ message = (FAILED_TO_PARSE ++ syntax_error_message fileContent)%string)
        \/ (exists parsed,
               json_parse fileContent = Some parsed
               /\ ((exists cause,
                       UniversalParser.detectDataFormat parsed fileName = Throw cause
                       /\ message = (FAILED_TO_PARSE ++ cause)%string)
                   \/ (UniversalParser.detectDataFormat parsed fileName
                       = Ret UniversalParser.LastFm
                       /\ message = (FAILED_TO_PARSE
                                     ++ "Last.fm format support coming soon")%string))).
Proof.
  intros H fileContent fileName message.
  unfold UniversalParser.parseUniversalData, FAILED_TO_PARSE.
  destruct (json_parse fileContent) as [parsed|]; cbn [bind try_catch].
  - destruct (UniversalParser.detectDataFormat parsed fileName) as [[| |]|cause] eqn:Ed;
      cbn [bind try_catch].
    + destruct (never_throws_listenbrainz parsed) as [r ->]. cbn. split.
      * discriminate.
      * intros [[E _] | [p [E [[c [E' _]] | [E' _]]]]]; congruence.
    + destruct (never_throws_spotify parsed) as [r ->]. cbn. split.
      * discriminate.
      * intros [[E _] | [p [E [[c [E' _]] | [E' _]]]]]; congruence.
    + cbn. split.
      * intros E. injection E as <-. right. exists parsed. split; [reflexivity|].
        right. split; [exact Ed | reflexivity].
      * intros [[E _] | [p [E [[c [E' _]] | [_ ->]]]]]; try congruence.
    + split.
      * intros E. injection E as <-. right. exists parsed. split; [reflexivity|].
        left. exists cause. split; [exact Ed | reflexivity].
      * intros [[E _] | [p [E [[c [E' ->]] | [E' _]]]]]; try congruence.
  - split.
    + intros E. injection E as <-. left. split; reflexivity.
    + intros [[_ ->] | [p [E _]]]; [reflexivity | discriminate].
Qed.

(** X18: the ListenBrainz parser behind [parseImportedData] reads an API
    envelope as it reads the array of listens inside it. *)
Theorem import_envelope_reads_as_its_listens :
  forall (H : Host) (data payload : value) (items : list value),
    isArray data = false ->
    get data "payload" = Ret payload ->
    get_opt payload "listens" = VArr items ->
    ImportParser.parseListenBrainzFormat data
    = ImportParser.parseListenBrainzFormat (VArr items).
Proof.
  intros H data payload items Ha Hp Hl.
  unfold ImportParser.parseListenBrainzFormat.
  destruct data; try discriminate; rewrite Hp; cbn [bind]; rewrite Hl; reflexivity.
Qed.

(** A value without listens, an empty array or an envelope whose payload
    has none, is refused by that parser. *)
Remark import_listenbrainz_refuses_no_listens :
  forall (H : Host) (data payload : value),
    data = VArr []
    \/ (isArray data = false /\ get data "payload" = Ret payload
        /\ truthy (get_opt payload "listens") = false) ->
    ImportParser.parseListenBrainzFormat data
    = Throw "No listens found in ListenBrainz file".
Proof.
  intros H data payload [-> | [Ha [Hp Hl]]]; [reflexivity|].
  unfold ImportParser.parseListenBrainzFormat.
  destruct data; try discriminate; rewrite Hp; cbn [bind];
    unfold js_or; rewrite Hl; reflexivity.
Qed.

(** X19: an instant between 2001-09-09 and 2033-05-18 is converted to the same
    number of seconds whether it is given in seconds or in milliseconds. *)
Theorem seconds_and_milliseconds_agree :
  forall (H : Host) (s r : Z),
    1000000000 < s < 2000000000 ->
    0 <= r < 1000 ->
    ImportParser.convertSpotifyTimestamp (VNum (s * 1000 + r)) = s
    /\ ImportParser.convertSpotifyTimestamp (VNum s) = s.
Proof.
  intros H s r Hs Hr. unfold ImportParser.convertSpotifyTimestamp. split.
  - replace (1000000000000 <? s * 1000 + r) with true
      by (symmetry; apply Z.ltb_lt; lia).
    rewrite Z.div_add_l by lia. rewrite (Z.div_small r 1000) by lia. lia.
  - replace (1000000000000 <? s) with false by (symmetry; apply Z.ltb_ge; lia).
    replace (1000000000 <? s) with true by (symmetry; apply Z.ltb_lt; lia).
    replace (s <? 2000000000) with true by (symmetry; apply Z.ltb_lt; lia).
    reflexivity.
Qed.


Lemma listenbrainz_parse_timestamps_witness :
  Forall2 (fun item listen =>
             field listen "listened_at"
             = js_or (field item "listened_at") (VNum (@now_ms Sample.host / 1000))
             /\ field listen "timestamp"
                = @UniversalParser.times_1000 Sample.host (field listen "listened_at")
             /\ field listen "source" = VStr "listenbrainz")
          [Sample.lb_listen 1609459200]
          (UniversalParser.listens Sample.parsed_export).
Proof.
  apply (listenbrainz_parse_timestamps Sample.host [Sample.lb_listen 1609459200]
           Sample.parsed_export).
  - reflexivity.
  - reflexivity.
Defined.

Lemma import_envelope_reads_as_its_listens_witness :
  @ImportParser.parseListenBrainzFormat Sample.host Sample.envelope
  = @ImportParser.parseListenBrainzFormat Sample.host
      (VArr [Sample.lb_listen 1609459200]).
Proof.
  apply (import_envelope_reads_as_its_listens Sample.host Sample.envelope
           (VObj [("count", VNum 1); ("listens", VArr [Sample.lb_listen 1609459200])])).
  - reflexivity.
  - reflexivity.
  - reflexivity.
Defined.

Lemma seconds_and_milliseconds_agree_witness :
  @ImportParser.convertSpotifyTimestamp Sample.host (VNum (1714847569 * 1000 + 123))
  = 1714847569
  /\ @ImportParser.convertSpotifyTimestamp Sample.host (VNum 1714847569) = 1714847569.
Proof.
  apply (seconds_and_milliseconds_agree Sample.host 1714847569 123); lia.
Defined.

End ParserFacts.

(** ** The scroll-back as a whole *)

Module ScrollbackFacts.
Import ListenBrainzApi.

Section WithServer.
Context {H : Host}.
Variable request : nat -> string -> outcome value.
Variable aborted : nat -> bool.
Variable username : string.
Variable maxListens : option nat.

Local Abbreviation fetch := (fetchUserListens request username).
Local Abbreviation step := (step request aborted username maxListens).
Local Abbreviation run := (run request aborted username maxListens).

Lemma run_unfold (fuel : nat) (s : state) :
  run (S fuel) s
  = match step s with
    | Continue s' => run fuel s'
    | Return r => Some (Ret r)
    | Abort => Some (Throw "AbortError")
    end.
Proof. reflexivity. Qed.

(** More fuel does not change a result. *)
Lemma run_more_fuel (fuel extra : nat) (s : state) (out : outcome response) :
  run fuel s = Some out -> run (fuel + extra) s = Some out.
Proof.
  revert s. induction fuel as [|fuel IH]; intros s Hr; [discriminate|].
  rewrite Nat.add_succ_l, run_unfold. rewrite run_unfold in Hr.
  destruct (step s); [apply IH; exact Hr | exact Hr | exact Hr].
Qed.

(** What a step that goes on leaves behind. *)
Lemma step_continue (s s' : state) :
  step s = Continue s' ->
  exists page,
    allListens s' = allListens s ++ page
    /\ cap_reached maxListens (List.length (allListens s')) = false.
Proof.
  rewrite PaginationFacts.step_cases. cbv zeta.
  destruct (aborted _); [discriminate|].
  destruct (negb _); [discriminate|].
  destruct (_ && _ && _ && _) eqn:E; [|discriminate].
  intros E'. injection E' as <-. cbn [allListens].
  eexists. split; [reflexivity|].
  apply andb_prop in E as [_ E]. apply negb_true_iff in E. exact E.
Qed.

(** What a step that returns hands back. *)
Lemma step_return (s : state) (r : response) :
  step s = Return r ->
  (success r = true ->
   count r = Z.of_nat (List.length (listens r))
   /\ exists page, listens r = allListens s ++ page)
  /\ (success r = false -> listens r = []).
Proof.
  rewrite PaginationFacts.step_cases. cbv zeta.
  destruct (aborted _); [discriminate|].
  destruct (success (fetch (batchCount s) batchSize (maxTs s))) eqn:Es; cbn [negb].
  - destruct (_ && _ && _ && _); [discriminate|].
    intros E. injection E as <-. cbn. split; [|discriminate].
    intros _. split; [reflexivity | eexists; reflexivity].
  - intros E. injection E as <-. split; [rewrite Es; discriminate|].
    intros _. apply PaginationFacts.failed_fetch_is_empty. exact Es.
Qed.

Lemma run_result (fuel : nat) (s : state) (r : response) :
  run fuel s = Some (Ret r) ->
  (success r = true ->
   count r = Z.of_nat (List.length (listens r))
   /\ exists pages, listens r = allListens s ++ pages)
  /\ (success r = false -> listens r = []).
Proof.
  revert s. induction fuel as [|fuel IH]; intros s Hr; [discriminate|].
  rewrite run_unfold in Hr. destruct (step s) as [s'|r'|] eqn:Es.
  - destruct (step_continue _ _ Es) as [page [Hp _]].
    destruct (IH s' Hr) as [Hok Hfail]. split; [|exact Hfail].
    intros Hs. destruct (Hok Hs) as [Hc [pages Hl]]. split; [exact Hc|].
    exists (page ++ pages). rewrite Hl, Hp, app_assoc. reflexivity.
  - injection Hr as ->. apply step_return. exact Es.
  - discriminate.
Qed.

(** A successful return hands back what was collected before, followed
    by the page just fetched. *)
Lemma step_return_page (s : state) (r : response) :
  step s = Return r ->
  success r = true ->
  listens r = allListens s ++ listens (fetch (batchCount s) batchSize (maxTs s)).
Proof.
  rewrite PaginationFacts.step_cases. cbv zeta.
  destruct (aborted _); [discriminate|].
  destruct (success (fetch (batchCount s) batchSize (maxTs s))) eqn:Es; cbn [negb].
  - destruct (_ && _ && _ && _); [discriminate|].
    intros E _. injection E as <-. reflexivity.
  - intros E Hs. injection E as <-. congruence.
Qed.

Lemma run_cap (m : nat) (fuel : nat) (s : state) (r : response) :
  maxListens = Some m -> (0 < m)%nat ->
  (List.length (allListens s) < m)%nat ->
  run fuel s = Some (Ret r) ->
  success r = true ->
  exists last : state,
    In last (trace request aborted username maxListens fuel s)
    /\ (List.length (allListens last) < m)%nat
    /\ listens r
       = allListens last
         ++ listens (fetch (batchCount last) batchSize (maxTs last)).
Proof.
  intros Hm Hpos. revert s. induction fuel as [|fuel IH]; intros s Hlt Hr Hs;
    [discriminate|].
  rewrite run_unfold in Hr. cbn [trace]. destruct (step s) as [s'|r'|] eqn:Es.
  - destruct (step_continue _ _ Es) as [page [Hp Hc]].
    destruct (IH s') as [last [Hin Hlast]]; try assumption.
    + unfold cap_reached in Hc. rewrite Hm in Hc.
      destruct (Nat.eqb_spec m 0) as [->|_]; [lia|]. cbn [negb andb] in Hc.
      apply Nat.leb_gt in Hc. exact Hc.
    + exists last. split; [right; exact Hin | exact Hlast].
  - injection Hr as ->. exists s. split; [left; reflexivity|].
    split; [exact Hlt | apply step_return_page; assumption].
  - discriminate.
Qed.

End WithServer.

(** X21: the scroll-back returns.  Once the server answers some request with
    fewer listens than asked for, or with an error, the loop has ended by
    then, and its result is the same however many further iterations it
    is allowed. *)
Theorem scrollback_returns :
  forall (H : Host) (request : nat -> string -> outcome value)
         (aborted : nat -> bool) (username : string) (maxListens : option nat)
         (k : nat),
    (forall cursor,
        let r := fetchUserListens request username k batchSize cursor in
        success r = true -> (List.length (listens r) < batchSize)%nat) ->
    exists out,
      forall extra,
        fetchAllUserListens request aborted username maxListens (S k + extra)
        = Some out.
Proof.
  intros H request aborted username maxListens k Hshort.
  destruct (PaginationFacts.run_returns request aborted username maxListens k initial)
    as [out Hout].
  - exact Hshort.
  - exists out. intros extra. apply run_more_fuel. exact Hout.
Qed.

(** X22: what the scroll-back returns.  A success counts exactly the listens
    it carries; a failure carries none, so a failed page discards the
    listens of all pages fetched before it. *)
Theorem scrollback_result :
  forall (H : Host) (request : nat -> string -> outcome value)
         (aborted : nat -> bool) (username : string) (maxListens : option nat)
         (fuel : nat) (r : response),
    fetchAllUserListens request aborted username maxListens fuel = Some (Ret r) ->
    (success r = true -> count r = Z.of_nat (List.length (listens r)))
    /\ (success r = false -> listens r = []).
Proof.
  intros H request aborted username maxListens fuel r Hr.
  destruct (run_result request aborted username maxListens fuel initial r Hr)
    as [Hok Hfail].
  split; [|exact Hfail]. intros Hs. apply Hok. exact Hs.
Qed.

(** X23: the record cap is checked after a page has been appended.  A
    successful result under a cap is what the loop had collected before
    its last request, fewer listens than the cap, followed by the page of
    that request; so it exceeds the cap by less than one page, and holds
    fewer than the cap plus 1000 listens when the server returns no more
    than the 1000 it is asked for. *)
Theorem record_cap_is_exceeded_by_one_page_at_most :
  forall (H : Host) (request : nat -> string -> outcome value)
         (aborted : nat -> bool) (username : string) (m fuel : nat) (r : response),
    (0 < m)%nat ->
    fetchAllUserListens request aborted username (Some m) fuel = Some (Ret r) ->
    success r = true ->
    exists last : state,
      In last (trace request aborted username (Some m) fuel initial)
      /\ (List.length (allListens last) < m)%nat
      /\ listens r
         = allListens last
           ++ listens (fetchUserListens request username
                         (batchCount last) batchSize (maxTs last))
      /\ ((List.length
             (listens (fetchUserListens request username
                         (batchCount last) batchSize (maxTs last)))
           <= batchSize)%nat ->
          (List.length (listens r) < m + batchSize)%nat).
Proof.
  intros H request aborted username m fuel r Hpos Hr Hs.
  destruct (run_cap request aborted username (Some m) m fuel initial r)
    as [last [Hin [Hlt Hl]]]; try assumption; [reflexivity|].
  exists last. split; [exact Hin|]. split; [exact Hlt|]. split; [exact Hl|].
  intros Hpage. rewrite Hl, length_app. lia.
Qed.

Lemma scrollback_returns_witness :
  exists out,
    forall extra,
      @fetchAllUserListens Sample.host Sample.server Sample.never_aborted "user" None
        (2 + extra)
      = Some out.
Proof.
  apply (scrollback_returns Sample.host Sample.server Sample.never_aborted "user" None 1).
  intros cursor r _. vm_compute. lia.
Defined.

Lemma scrollback_result_witness :
  (success Sample.full_history = true ->
   count Sample.full_history = Z.of_nat (List.length (listens Sample.full_history)))
  /\ (success Sample.full_history = false -> listens Sample.full_history = []).
Proof.
  apply (scrollback_result Sample.host Sample.server Sample.never_aborted "user" None 5).
  vm_compute. reflexivity.
Defined.

Lemma record_cap_witness :
  exists last : state,
    In last (@trace Sample.host Sample.server Sample.never_aborted "user" (Some 500%nat)
               5 initial)
    /\ (List.length (allListens last) < 500)%nat
    /\ listens Sample.capped_history
       = allListens last
         ++ listens (@fetchUserListens Sample.host Sample.server "user"
                       (batchCount last) batchSize (maxTs last))
    /\ ((List.length
           (listens (@fetchUserListens Sample.host Sample.server "user"
                       (batchCount last) batchSize (maxTs last)))
         <= batchSize)%nat ->
        (List.length (listens Sample.capped_history) < 500 + batchSize)%nat).
Proof.
  apply (record_cap_is_exceeded_by_one_page_at_most
           Sample.host Sample.server Sample.never_aborted "user" 500 5).
  - lia.
  - vm_compute. reflexivity.
  - reflexivity.
Defined.

End ScrollbackFacts.

(** ** The listening clock *)

Module ClockFacts.
Import ListeningStats ListeningClock.

Lemma increment_length (h : nat) (counts : list nat) :
  List.length (increment h counts) = List.length counts.
Proof.
  revert h. induction counts as [|c counts IH]; intros [|h]; cbn; auto.
Qed.

Lemma increment_sum (h : nat) (counts : list nat) :
  (h < List.length counts)%nat ->
  list_sum (increment h counts) = S (list_sum counts).
Proof.
  revert h. induction counts as [|c counts IH]; intros [|h] Hh;
    cbn [increment List.length] in *; try lia.
  - reflexivity.
  - change (list_sum (c :: increment h counts))
      with (c + list_sum (increment h counts))%nat.
    change (list_sum (c :: counts)) with (c + list_sum counts)%nat.
    rewrite IH by lia. lia.
Qed.

Section WithClock.
Variable getHours : Z -> option nat.
Hypothesis getHours_range : forall ms h, getHours ms = Some h -> (h < 24)%nat.

Lemma count_listen_spec (counts : list nat) (listen : Listen) :
  List.length counts = 24%nat ->
  List.length (count_listen getHours counts listen) = 24%nat
  /\ list_sum (count_listen getHours counts listen)
     = (list_sum counts + if on_clock getHours listen then 1 else 0)%nat.
Proof.
  intros Hlen. unfold count_listen, on_clock.
  destruct (time_of listen) as [ts|]; [|split; [exact Hlen | lia]].
  destruct (ts =? 0); cbn [negb andb]; [split; [exact Hlen | lia]|].
  destruct (getHours (ts * 1000)) as [h|] eqn:Eh; [|split; [exact Hlen | lia]].
  split; [rewrite increment_length; exact Hlen|].
  rewrite increment_sum; [lia|]. rewrite Hlen. eapply getHours_range. exact Eh.
Qed.

Lemma fold_count_listen (listens : list Listen) (counts : list nat) :
  List.length counts = 24%nat ->
  List.length (fold_left (count_listen getHours) listens counts) = 24%nat
  /\ list_sum (fold_left (count_listen getHours) listens counts)
     = (list_sum counts + List.length (List.filter (on_clock getHours) listens))%nat.
Proof.
  revert counts. induction listens as [|l listens IH]; intros counts Hlen;
    cbn [fold_left List.filter]; [split; [exact Hlen | cbn; lia]|].
  destruct (count_listen_spec counts l Hlen) as [Hl Hs].
  destruct (IH _ Hl) as [Hl' Hs']. split; [exact Hl'|].
  rewrite Hs', Hs. destruct (on_clock getHours l); cbn [List.length]; lia.
Qed.

End WithClock.

(** X24: the clock keeps 24 counters, and every listen with a usable time is
    counted in exactly one of them: the counters add up to the number of
    such listens. *)
Theorem clock_counts_every_timed_listen :
  forall (getHours : Z -> option nat) (listens : list Listen),
    (forall ms h, getHours ms = Some h -> (h < 24)%nat) ->
    List.length (hourCounts getHours listens) = 24%nat
    /\ list_sum (hourCounts getHours listens)
       = List.length (List.filter (on_clock getHours) listens).
Proof.
  intros getHours listens Hrange. unfold hourCounts.
  destruct (fold_count_listen getHours Hrange listens (repeat 0%nat 24) eq_refl)
    as [Hl Hs].
  split; [exact Hl | exact Hs].
Qed.

Lemma bars_nth (counts : list nat) (i : nat) (b : bar) :
  In b (bars i counts) ->
  (i <= hour b)%nat /\ nth_error counts (hour b - i) = Some (count b).
Proof.
  revert i. induction counts as [|c counts IH]; intros i Hb; [destruct Hb|].
  cbn [bars] in Hb. destruct Hb as [<- | Hb].
  - cbn. rewrite Nat.sub_diag. split; [lia | reflexivity].
  - destruct (IH _ Hb) as [Hle Hn]. split; [lia|].
    replace (hour b - i)%nat with (S (hour b - S i)) by lia. exact Hn.
Qed.

(** The reduction keeps the first bar among those with the greatest
    count. *)
Lemma peak_fold (counts : list nat) (i : nat) (best : bar) (seen : list nat) :
  List.length seen = i ->
  (hour best < Nat.max i 1)%nat ->
  (forall h c, nth_error seen h = Some c -> (c <= count best)%nat) ->
  (forall h c, (h < hour best)%nat -> nth_error seen h = Some c -> (c < count best)%nat) ->
  (i = 0%nat \/ nth_error seen (hour best) = Some (count best)) ->
  (i = 0%nat -> exists rest, counts = count best :: rest /\ hour best = 0%nat) ->
  let peak := fold_left (fun max curr => if (count max <? count curr)%nat then curr else max)
                (bars i counts) best in
  nth_error (seen ++ counts) (hour peak) = Some (count peak)
  /\ (forall h c, nth_error (seen ++ counts) h = Some c -> (c <= count peak)%nat)
  /\ (forall h c, (h < hour peak)%nat -> nth_error (seen ++ counts) h = Some c ->
                  (c < count peak)%nat).
Proof.
  revert i best seen.
  induction counts as [|c counts IH]; intros i best seen Hlen Hhour Hmax Hfirst Hat H0;
    cbv zeta; cbn [bars fold_left].
  - rewrite app_nil_r. destruct Hat as [-> | Hat].
    + destruct (H0 eq_refl) as [rest [E _]]. discriminate.
    + repeat split; assumption.
  - replace (seen ++ c :: counts) with ((seen ++ [c]) ++ counts)
      by (rewrite <- app_assoc; reflexivity).
    assert (Hnth : forall h x, nth_error (seen ++ [c]) h = Some x ->
              ((h < i)%nat /\ nth_error seen h = Some x) \/ (h = i /\ x = c)).
    { intros h x Hx. destruct (Compare_dec.lt_dec h i) as [Hlt | Hge].
      - left. split; [exact Hlt|]. rewrite nth_error_app1 in Hx by lia. exact Hx.
      - right. rewrite nth_error_app2 in Hx by lia.
        destruct (h - List.length seen)%nat as [|k] eqn:Ek.
        + cbn in Hx. injection Hx as <-. split; [lia | reflexivity].
        + cbn in Hx. destruct k; discriminate. }
    change (count {| hour := i; count := c; label := label_of i |}) with c.
    destruct (Nat.ltb_spec (count best) c) as [Hlt | Hge].
    + apply (IH (S i) _ (seen ++ [c])); cbn [hour count].
      * rewrite length_app. cbn. lia.
      * lia.
      * intros h x Hx. destruct (Hnth h x Hx) as [[_ Hs] | [_ ->]]; [|lia].
        specialize (Hmax h x Hs). lia.
      * intros h x Hh Hx. destruct (Hnth h x Hx) as [[_ Hs] | [-> _]]; [|lia].
        specialize (Hmax h x Hs). lia.
      * right. rewrite nth_error_app2 by lia. rewrite Hlen, Nat.sub_diag. reflexivity.
      * intros E. discriminate.
    + apply (IH (S i) _ (seen ++ [c])).
      * rewrite length_app. cbn. lia.
      * lia.
      * intros h x Hx. destruct (Hnth h x Hx) as [[_ Hs] | [_ ->]]; [|lia].
        apply (Hmax h x Hs).
      * intros h x Hh Hx. destruct (Hnth h x Hx) as [[_ Hs] | [-> _]].
        -- apply (Hfirst h x Hh Hs).
        -- destruct Hat as [-> | Hat]; [lia|].
           assert (hour best < List.length seen)%nat
             by (apply nth_error_Some; rewrite Hat; discriminate).
           lia.
      * right. destruct Hat as [-> | Hat].
        -- destruct (H0 eq_refl) as [rest [E Eh]]. injection E as -> _.
           destruct seen; [|discriminate]. rewrite Eh. reflexivity.
        -- rewrite nth_error_app1; [exact Hat|].
           apply nth_error_Some. rewrite Hat. discriminate.
      * intros E. discriminate.
Qed.

(** X25: the peak hour is the first of the hours with the greatest count, and
    that count is [maxCount]. *)
Theorem peak_hour_is_first_maximum :
  forall (counts : list nat) (peak : bar),
    peakHour (bars 0 counts) = Some peak ->
    nth_error counts (hour peak) = Some (count peak)
    /\ maxCount counts = Some (count peak)
    /\ (forall h c, nth_error counts h = Some c -> (c <= count peak)%nat)
    /\ (forall h c, (h < hour peak)%nat -> nth_error counts h = Some c ->
                    (c < count peak)%nat).
Proof.
  intros counts peak Hp. destruct counts as [|c counts]; [discriminate|].
  set (first := {| hour := 0; count := c; label := label_of 0 |}).
  assert (Hpe : fold_left (fun max curr => if (count max <? count curr)%nat then curr else max)
                  (bars 0 (c :: counts)) first = peak).
  { unfold peakHour in Hp. cbn [bars] in Hp. injection Hp as <-. reflexivity. }
  pose proof (peak_fold (c :: counts) 0 first []) as Hfold.
  cbv zeta in Hfold. rewrite Hpe in Hfold. cbn [app] in Hfold.
  destruct Hfold as [Hat [Hmax Hfirst]]; cbn [hour count first].
  - reflexivity.
  - lia.
  - intros h x Hx. destruct h; discriminate.
  - intros h x Hh. lia.
  - left. reflexivity.
  - intros _. exists counts. split; reflexivity.
  - repeat split; try assumption.
    (* the maximum *)
    cbn [maxCount]. f_equal.
    assert (Hin : In (count peak) (c :: counts))
      by (eapply nth_error_In; exact Hat).
    assert (Hub : forall x, In x (c :: counts) -> (x <= count peak)%nat).
    { intros x Hx. apply In_nth_error in Hx as [h Hh]. eapply Hmax. exact Hh. }
    clear - Hin Hub.
    assert (Hgen : forall l a, (a <= count peak)%nat ->
              (forall x, In x l -> (x <= count peak)%nat) ->
              (In (count peak) l \/ a = count peak) ->
              fold_left Nat.max l a = count peak).
    { induction l as [|x l IH]; intros a Ha Hl Hor; cbn.
      - destruct Hor as [[] | ->]. reflexivity.
      - apply IH.
        + specialize (Hl x (or_introl eq_refl)). lia.
        + intros y Hy. apply Hl. right. exact Hy.
        + destruct Hor as [[-> | Hor] | ->]; [right; lia | left; exact Hor|].
          right. specialize (Hl x (or_introl eq_refl)). lia. }
    apply Hgen.
    + apply Hub. left. reflexivity.
    + intros x Hx. apply Hub. right. exact Hx.
    + destruct Hin as [-> | Hin]; [right; reflexivity | left; exact Hin].
Qed.

Lemma clock_counts_every_timed_listen_witness :
  List.length (hourCounts Sample.utc_hours Sample.two_genres) = 24%nat
  /\ list_sum (hourCounts Sample.utc_hours Sample.two_genres)
     = List.length (List.filter (on_clock Sample.utc_hours) Sample.two_genres).
Proof.
  apply (clock_counts_every_timed_listen Sample.utc_hours Sample.two_genres).
  intros ms h. unfold Sample.utc_hours.
  destruct (Z.abs ms <=? MAX_TIME_MS); [|discriminate].
  intros E. injection E as <-.
  pose proof (Z.mod_pos_bound (ms / 3600000) 24). lia.
Defined.

Lemma peak_hour_is_first_maximum_witness :
  nth_error [1; 3; 3; 0]%nat 1 = Some 3%nat
  /\ maxCount [1; 3; 3; 0]%nat = Some 3%nat
  /\ (forall h c, nth_error [1; 3; 3; 0]%nat h = Some c -> (c <= 3)%nat)
  /\ (forall h c, (h < 1)%nat -> nth_error [1; 3; 3; 0]%nat h = Some c -> (c < 3)%nat).
Proof.
  apply (peak_hour_is_first_maximum [1; 3; 3; 0]%nat
           {| hour := 1; count := 3; label := "01:00" |}).
  reflexivity.
Defined.

End ClockFacts.

(** ** The migration of legacy settings *)

Module MigrationFacts.
Import DataMigration Derived.

Lemma getItem_setItem (k k' v : string) (st : storage) :
  getItem k (setItem k' v st) = if String.eqb k k' then Some v else getItem k st.
Proof.
  induction st as [|[k0 v0] st IH]; cbn.
  - destruct (String.eqb k k'); reflexivity.
  - destruct (String.eqb k' k0) eqn:E0; cbn.
    + apply String.eqb_eq in E0. subst k0. destruct (String.eqb k k'); reflexivity.
    + rewrite IH. destruct (String.eqb k k0) eqn:E1; [|reflexivity].
      apply String.eqb_eq in E1. subst k0. rewrite String.eqb_sym, E0. reflexivity.
Qed.

Lemma getItem_removeItem (k k' : string) (st : storage) :
  getItem k (removeItem k' st) = if String.eqb k k' then None else getItem k st.
Proof.
  unfold removeItem. induction st as [|[k0 v0] st IH]; cbn.
  - destruct (String.eqb k k'); reflexivity.
  - destruct (String.eqb k' k0) eqn:E0; cbn.
    + apply String.eqb_eq in E0. subst k0. rewrite IH.
      destruct (String.eqb k k'); reflexivity.
    + rewrite IH. destruct (String.eqb k k0) eqn:E1; [|reflexivity].
      apply String.eqb_eq in E1. subst k0. rewrite String.eqb_sym, E0. reflexivity.
Qed.

Section WithFallback.
Variable replace_prefix : string -> string.

Local Abbreviation new_key := (new_key replace_prefix).
Local Abbreviation migrate_key := (migrate_key replace_prefix).
Local Abbreviation apart := (apart replace_prefix).

(** What one iteration does to the value of a key. *)
Lemma migrate_key_get (state : storage * bool) (o k : string) :
  new_key o <> o ->
  getItem k (fst (migrate_key state o))
  = if truthy_item (getItem o (fst state)) then
      if String.eqb k o then None
      else if String.eqb k (new_key o) && negb (truthy_item (getItem (new_key o) (fst state)))
           then getItem o (fst state)
           else getItem k (fst state)
    else getItem k (fst state).
Proof.
  intros Hne. unfold DataMigration.migrate_key.
  destruct (getItem o (fst state)) as [value|] eqn:Eo; cbn [truthy_item]; [|reflexivity].
  destruct (is_empty value); cbn [negb]; [reflexivity|]. cbv zeta.
  destruct (truthy_item (getItem (new_key o) (fst state))); cbn [negb fst];
    rewrite getItem_removeItem; destruct (String.eqb k o) eqn:Eko; try reflexivity.
  - rewrite andb_false_r. reflexivity.
  - rewrite getItem_setItem, andb_true_r. reflexivity.
Qed.

(** An iteration on a legacy key without a value changes nothing. *)
Lemma migrate_key_absent (state : storage * bool) (o : string) :
  truthy_item (getItem o (fst state)) = false -> migrate_key state o = state.
Proof.
  unfold DataMigration.migrate_key.
  destruct (getItem o (fst state)) as [value|]; cbn; [|reflexivity].
  destruct (is_empty value); [reflexivity | discriminate].
Qed.

Lemma migrate_key_flag (state : storage * bool) (o : string) :
  snd state = true -> snd (migrate_key state o) = true.
Proof.
  unfold DataMigration.migrate_key. intros Hs.
  destruct (getItem o (fst state)) as [value|]; [|exact Hs].
  destruct (is_empty value); [exact Hs|].
  destruct (truthy_item _); cbn; [exact Hs | reflexivity].
Qed.

Lemma fold_flag (ks : list string) (state : storage * bool) :
  snd state = true -> snd (fold_left migrate_key ks state) = true.
Proof.
  revert state. induction ks as [|o ks IH]; intros state Hs; [exact Hs|].
  cbn [fold_left]. apply IH, migrate_key_flag, Hs.
Qed.

(** A key that is no legacy key keeps its value when it has one or is no
    target. *)
Lemma fold_keeps (ks : list string) (state : storage * bool) (k : string) :
  apart ks ->
  ~ In k ks ->
  truthy_item (getItem k (fst state)) = true \/ ~ In k (List.map new_key ks) ->
  getItem k (fst (fold_left migrate_key ks state)) = getItem k (fst state).
Proof.
  revert state. induction ks as [|o ks IH]; intros state Hap Hk Hor; [reflexivity|].
  cbn [fold_left].
  assert (Hstep : getItem k (fst (migrate_key state o)) = getItem k (fst state)).
  { rewrite migrate_key_get by (apply Hap; left; reflexivity).
    destruct (truthy_item (getItem o (fst state))); [|reflexivity].
    destruct (String.eqb_spec k o) as [->|_]; [exfalso; apply Hk; left; reflexivity|].
    destruct (String.eqb_spec k (new_key o)) as [E|_]; [|reflexivity].
    destruct Hor as [Ht | Hn].
    - rewrite <- E, Ht. reflexivity.
    - exfalso. apply Hn. left. symmetry. exact E. }
  rewrite IH.
  - exact Hstep.
  - intros o' Ho'. apply Hap. right. exact Ho'.
  - intros Hin. apply Hk. right. exact Hin.
  - rewrite Hstep. destruct Hor as [Ht | Hn]; [left; exact Ht|].
    right. intros Hin. apply Hn. right. exact Hin.
Qed.

(** A key without a value that is no target stays without one. *)
Lemma fold_stays_absent (ks : list string) (state : storage * bool) (k : string) :
  apart ks ->
  ~ In k (List.map new_key ks) ->
  truthy_item (getItem k (fst state)) = false ->
  truthy_item (getItem k (fst (fold_left migrate_key ks state))) = false.
Proof.
  revert state. induction ks as [|o ks IH]; intros state Hap Hn Hf; [exact Hf|].
  cbn [fold_left]. apply IH.
  - intros o' Ho'. apply Hap. right. exact Ho'.
  - intros Hin. apply Hn. right. exact Hin.
  - rewrite migrate_key_get by (apply Hap; left; reflexivity).
    destruct (truthy_item (getItem o (fst state))); [|exact Hf].
    destruct (String.eqb k o); [reflexivity|].
    destruct (String.eqb_spec k (new_key o)) as [E|_]; [|exact Hf].
    exfalso. apply Hn. left. symmetry. exact E.
Qed.

Lemma fold_clears (ks : list string) (state : storage * bool) (o : string) :
  apart ks ->
  (forall o', In o' ks -> ~ In o' (List.map new_key ks)) ->
  In o ks ->
  truthy_item (getItem o (fst (fold_left migrate_key ks state))) = false.
Proof.
  revert state. induction ks as [|o1 ks IH]; intros state Hap Hdis Ho; [destruct Ho|].
  cbn [fold_left].
  assert (Hap' : apart ks) by (intros o' Ho'; apply Hap; right; exact Ho').
  destruct (in_dec string_dec o ks) as [Hin | Hnin].
  - apply IH; [exact Hap' | | exact Hin].
    intros o' Ho' Hm. apply (Hdis o'); [right; exact Ho' | right; exact Hm].
  - destruct Ho as [-> | Ho]; [|contradiction].
    apply fold_stays_absent; [exact Hap' | |].
    + intros Hm. apply (Hdis o); [left; reflexivity | right; exact Hm].
    + rewrite migrate_key_get by (apply Hap; left; reflexivity).
      destruct (truthy_item (getItem o (fst state))) eqn:Et; [|exact Et].
      rewrite String.eqb_refl. reflexivity.
Qed.

Lemma fold_nothing_to_do (ks : list string) (state : storage * bool) :
  (forall o, In o ks -> truthy_item (getItem o (fst state)) = false) ->
  fold_left migrate_key ks state = state.
Proof.
  induction ks as [|o ks IH]; intros Hall; [reflexivity|].
  cbn [fold_left]. rewrite migrate_key_absent by (apply Hall; left; reflexivity).
  apply IH. intros o' Ho'. apply Hall. right. exact Ho'.
Qed.

Lemma new_key_of_legacy (o : string) :
  In o oldLocalStorageKeys ->
  In (o, new_key o) newKeyMap.
Proof.
  unfold oldLocalStorageKeys, newKeyMap. intros Ho.
  repeat (destruct Ho as [<- | Ho]; [cbn; tauto|]). destruct Ho.
Qed.

Lemma legacy_apart : apart oldLocalStorageKeys.
Proof.
  intros o Ho. apply new_key_of_legacy in Ho. unfold newKeyMap in Ho.
  repeat (destruct Ho as [E | Ho];
          [injection E as <- E'; rewrite <- E'; discriminate|]).
  destruct Ho.
Qed.

Lemma legacy_targets : List.map new_key oldLocalStorageKeys = List.map snd newKeyMap.
Proof. reflexivity. Qed.

(** No legacy key is the target of another. *)
Lemma legacy_disjoint (o : string) :
  In o oldLocalStorageKeys -> ~ In o (List.map new_key oldLocalStorageKeys).
Proof.
  rewrite legacy_targets. unfold oldLocalStorageKeys. intros Ho.
  repeat (destruct Ho as [<- | Ho]; [cbn; intuition discriminate|]). destruct Ho.
Qed.

Lemma fold_ext (other : string -> string) (ks : list string) (state : storage * bool) :
  (forall o, In o ks -> new_key o = DataMigration.new_key other o) ->
  fold_left migrate_key ks state = fold_left (DataMigration.migrate_key other) ks state.
Proof.
  revert state. induction ks as [|o ks IH]; intros state Heq; [reflexivity|].
  cbn [fold_left]. rewrite IH by (intros o' Ho'; apply Heq; right; exact Ho').
  f_equal. unfold DataMigration.migrate_key.
  rewrite (Heq o (or_introl eq_refl)). reflexivity.
Qed.

End WithFallback.

(** X26: after the migration no legacy key holds a value. *)
Theorem migration_clears_legacy_keys :
  forall (replace_prefix : string -> string) (st : storage)
         (migrationPerformed : bool) (oldKey : string),
    In oldKey oldLocalStorageKeys ->
    truthy_item
      (getItem oldKey (fst (migrateLocalStorage replace_prefix st migrationPerformed)))
    = false.
Proof.
  intros replace_prefix st p o Ho. unfold migrateLocalStorage.
  apply fold_clears; [apply legacy_apart | apply legacy_disjoint | exact Ho].
Qed.

Lemma migration_clears_legacy_keys_witness :
  truthy_item
    (getItem "viz-theme"
       (fst (migrateLocalStorage (fun k => k) Sample.legacy_storage false)))
  = false.
Proof.
  apply (migration_clears_legacy_keys (fun k => k) Sample.legacy_storage false "viz-theme").
  cbn. tauto.
Defined.

(** X27: the migration never overwrites.  A key of the application that holds
    a value keeps it, and a key that is neither a legacy key nor a target
    of the migration is left as it is. *)
Theorem migration_overwrites_nothing :
  forall (replace_prefix : string -> string) (st : storage)
         (migrationPerformed : bool) (key : string),
    ~ In key oldLocalStorageKeys ->
    truthy_item (getItem key st) = true \/ ~ In key (List.map snd newKeyMap) ->
    getItem key (fst (migrateLocalStorage replace_prefix st migrationPerformed))
    = getItem key st.
Proof.
  intros replace_prefix st p k Hk Hor. unfold migrateLocalStorage.
  rewrite fold_keeps; [reflexivity | apply legacy_apart | exact Hk|].
  rewrite legacy_targets. exact Hor.
Qed.

Lemma migration_overwrites_nothing_witness :
  getItem "musicquest_theme"
    (fst (migrateLocalStorage (fun k => k) Sample.legacy_storage false))
  = getItem "musicquest_theme" Sample.legacy_storage.
Proof.
  apply (migration_overwrites_nothing (fun k => k) Sample.legacy_storage false
           "musicquest_theme").
  - cbn. intuition discriminate.
  - left. reflexivity.
Defined.

(** X28: running the migration a second time finds nothing to migrate
    and changes nothing. *)
Theorem migration_is_idempotent :
  forall (replace_prefix : string -> string) (st : storage) (migrationPerformed : bool),
    let migrated := fst (migrateLocalStorage replace_prefix st migrationPerformed) in
    migrateLocalStorage replace_prefix migrated false = (migrated, false).
Proof.
  intros replace_prefix st p migrated. unfold migrateLocalStorage at 1.
  apply fold_nothing_to_do. intros o Ho. cbn [fst].
  unfold migrated, migrateLocalStorage.
  apply fold_clears; [apply legacy_apart | apply legacy_disjoint | exact Ho].
Qed.

(** The substitution on the key's prefix is never used: every legacy key
    has an entry in the key map. *)
Remark migration_ignores_the_fallback :
  forall (replace1 replace2 : string -> string) (st : storage)
         (migrationPerformed : bool),
    migrateLocalStorage replace1 st migrationPerformed
    = migrateLocalStorage replace2 st migrationPerformed.
Proof.
  intros replace1 replace2 st p. unfold migrateLocalStorage.
  apply fold_ext. unfold oldLocalStorageKeys. intros o Ho.
  repeat (destruct Ho as [<- | Ho]; [reflexivity|]). destruct Ho.
Qed.

(** X29: when an older and a newer legacy key map to the same key of the
    application, the one listed first supplies the value: a value under
    one of the first three legacy keys is moved to its target whenever
    the target holds none. *)
Theorem first_legacy_key_wins :
  forall (replace_prefix : string -> string) (st : storage)
         (migrationPerformed : bool) (oldKey newKey value : string),
    In (oldKey, newKey) (firstn 3 newKeyMap) ->
    getItem oldKey st = Some value ->
    value <> "" ->
    truthy_item (getItem newKey st) = false ->
    let result := migrateLocalStorage replace_prefix st migrationPerformed in
    getItem newKey (fst result) = Some value /\ snd result = true.
Proof.
  intros replace_prefix st p o n v Hin Ho Hv Hn result.
  assert (Hvt : truthy_item (Some v) = true) by (destruct v; [contradiction | reflexivity]).
  set (s0 := (st, p)).
  (* the keys before [o], the step on [o], the keys after it *)
  assert (Hsplit : exists pre post,
             oldLocalStorageKeys = pre ++ o :: post
             /\ ~ In o pre /\ ~ In n (o :: post) /\ ~ In n pre
             /\ ~ In n (List.map (new_key replace_prefix) pre)
             /\ ~ In o (List.map (new_key replace_prefix) pre)
             /\ new_key replace_prefix o = n
             /\ apart replace_prefix pre /\ apart replace_prefix post).
  { unfold newKeyMap in Hin. cbn [firstn] in Hin.
    destruct Hin as [E | [E | [E | []]]]; injection E as <- <-.
    - exists [], (tl oldLocalStorageKeys).
      repeat split; try reflexivity; cbn; try tauto; try (intuition discriminate).
      + intros o' []. 
      + intros o' Ho'. apply legacy_apart. right. exact Ho'.
    - exists (firstn 1 oldLocalStorageKeys), (skipn 2 oldLocalStorageKeys).
      repeat split; try reflexivity; cbn; try tauto; try (intuition discriminate).
      + intros o' Ho'. apply legacy_apart. cbn in Ho' |- *. tauto.
      + intros o' Ho'. apply legacy_apart. cbn in Ho' |- *. tauto.
    - exists (firstn 2 oldLocalStorageKeys), (skipn 3 oldLocalStorageKeys).
      repeat split; try reflexivity; cbn; try tauto; try (intuition discriminate).
      + intros o' Ho'. apply legacy_apart. cbn in Ho' |- *. tauto.
      + intros o' Ho'. apply legacy_apart. cbn in Ho' |- *. tauto. }
  destruct Hsplit as [pre [post [Hks [Hopre [Hnpost [Hnpre [Hnt [Hot [Hnk [Hap1 Hap2]]]]]]]]]].
  unfold result, migrateLocalStorage. rewrite Hks, fold_left_app. cbn [fold_left].
  fold s0. set (s1 := fold_left (DataMigration.migrate_key replace_prefix) pre s0).
  assert (Ho1 : getItem o (fst s1) = Some v).
  { unfold s1. rewrite fold_keeps; [exact Ho | exact Hap1 | exact Hopre|].
    right. exact Hot. }
  assert (Hn1 : truthy_item (getItem n (fst s1)) = false).
  { unfold s1. apply fold_stays_absent; [exact Hap1 | exact Hnt | exact Hn]. }
  assert (Hne : n <> o) by (intros E; apply Hnpost; left; symmetry; exact E).
  set (s2 := DataMigration.migrate_key replace_prefix s1 o).
  assert (Hn2 : getItem n (fst s2) = Some v).
  { unfold s2. rewrite migrate_key_get by (rewrite Hnk; exact Hne).
    rewrite Ho1, Hvt, Hnk, Hn1.
    destruct (String.eqb_spec n o) as [E|_]; [contradiction|].
    rewrite String.eqb_refl. reflexivity. }
  assert (Hf2 : snd s2 = true).
  { unfold s2, DataMigration.migrate_key. rewrite Ho1.
    destruct v; [contradiction|]. cbn [is_empty]. cbv zeta.
    rewrite Hnk, Hn1. reflexivity. }
  split.
  - rewrite fold_keeps; [exact Hn2 | exact Hap2 | |].
    + intros Hin'. apply Hnpost. right. exact Hin'.
    + left. rewrite Hn2. exact Hvt.
  - apply fold_flag. exact Hf2.
Qed.

Lemma first_legacy_key_wins_witness :
  getItem "musicquest_settings"
    (fst (migrateLocalStorage (fun k => k) Sample.legacy_storage false))
  = Some "{zoom:1}"
  /\ snd (migrateLocalStorage (fun k => k) Sample.legacy_storage false) = true.
Proof.
  apply (first_legacy_key_wins (fun k => k) Sample.legacy_storage false
           "music-genre-settings" "musicquest_settings" "{zoom:1}").
  - left. reflexivity.
  - reflexivity.
  - discriminate.
  - reflexivity.
Defined.

(** X30: once the migration is marked as complete the notice is not
    shown again. *)
Theorem notice_is_shown_once :
  forall (H : Host) (st : storage),
    shouldShowMigrationNotice (markMigrationComplete st) = false.
Proof.
  intros H st. unfold shouldShowMigrationNotice, markMigrationComplete.
  rewrite getItem_setItem, String.eqb_refl. cbn [truthy_item].
  assert (Hne : forall z, is_empty (string_of_Z z) = false).
  { assert (Hd : forall fuel n acc, is_empty (digits (S fuel) n acc) = false).
    { induction fuel as [|fuel IH]; intros n acc; cbn [digits].
      - destruct (N.eqb _ _); reflexivity.
      - destruct (N.eqb (N.div n 10) 0); [reflexivity | apply IH]. }
    intros [|p|p]; [reflexivity | apply Hd | reflexivity]. }
  rewrite Hne. reflexivity.
Qed.

End MigrationFacts.
